(** * Overstory coordination core: watchdog, run-completion detector and mail wait

    A shallow embedding of [src/watchdog/daemon.ts] (the tier-0 watchdog and
    the run-completion detector) and of the mail command ([overstory mail
    send/check/wait/reply]) together with the properties of the coordination
    core that are stated about them.

    Conventions of the embedding.
    - Timestamps are epoch milliseconds in [Z]; an ISO string and the number
      it parses to are identified ([new Date(iso).getTime()] inverts
      [toISOString()] on every valid date).
    - JavaScript numbers that the code only ever uses as integers are [Z]
      (a double holds an integer below 2^53 exactly); the backoff factor of
      the mail wait, which is not an integer, is an IEEE 754 double.
    - Strings are [string], holding the UTF-8 bytes of the text; [trim]
      removes the white space of ECMAScript, [sort] orders by UTF-16 code
      units.
    - Code that throws is modelled in a state-and-exception monad whose state
      survives the exception, as a store write that happened before a throw
      stays written. *)

From Stdlib Require Import ZArith Lia QArith Ascii.
From Stdlib Require SpecFloat.
From stdpp Require Import base strings list gmap pretty.

Local Open Scope Z_scope.

(** ** JavaScript helpers *)

Module Js.

(** [Boolean(s)] for a string: every string but the empty one is truthy. *)
Definition truthy (s : string) : bool :=
  match s with EmptyString => false | _ => true end.

(** White space removed by [String.prototype.trim]: the WhiteSpace and
    LineTerminator characters of ECMAScript, by their UTF-8 bytes.
    One byte: TAB, LF, VT, FF, CR and SPACE. *)
Definition isWs (c : ascii) : bool :=
  let n := nat_of_ascii c in
  ((9 <=? n)%nat && (n <=? 13)%nat) || (n =? 32)%nat.

(** Two bytes: U+00A0 (C2 A0). *)
Definition isWs2 (a b : ascii) : bool :=
  (nat_of_ascii a =? 194)%nat && (nat_of_ascii b =? 160)%nat.

(** Three bytes: U+1680 (E1 9A 80), U+2000 to U+200A (E2 80 80 to E2 80 8A),
    U+2028 and U+2029 (E2 80 A8, E2 80 A9), U+202F (E2 80 AF), U+205F
    (E2 81 9F), U+3000 (E3 80 80) and U+FEFF (EF BB BF). *)
Definition isWs3 (a b c : ascii) : bool :=
  let x := nat_of_ascii a in
  let y := nat_of_ascii b in
  let z := nat_of_ascii c in
  ((x =? 225) && (y =? 154) && (z =? 128))%nat ||
  ((x =? 226) && (y =? 128) &&
   (((128 <=? z) && (z <=? 138)) || (z =? 168) || (z =? 169) || (z =? 175)))%nat ||
  ((x =? 226) && (y =? 129) && (z =? 159))%nat ||
  ((x =? 227) && (y =? 128) && (z =? 128))%nat ||
  ((x =? 239) && (y =? 187) && (z =? 191))%nat.

(** The number of bytes of the white space character that the bytes start
    with; 0 when they start with none. *)
Definition wsLen (l : list ascii) : nat :=
  match l with
  | a :: r =>
      if isWs a then 1%nat
      else match r with
           | b :: r2 =>
               if isWs2 a b then 2%nat
               else match r2 with
                    | c :: _ => if isWs3 a b c then 3%nat else 0%nat
                    | [] => 0%nat
                    end
           | [] => 0%nat
           end
  | [] => 0%nat
  end.

(** The same for bytes read from the end of a string, last byte first. *)
Definition wsLenRev (l : list ascii) : nat :=
  match l with
  | a :: r =>
      if isWs a then 1%nat
      else match r with
           | b :: r2 =>
               if isWs2 b a then 2%nat
               else match r2 with
                    | c :: _ => if isWs3 c b a then 3%nat else 0%nat
                    | [] => 0%nat
                    end
           | [] => 0%nat
           end
  | [] => 0%nat
  end.

(** Remove the characters that [len] finds at the start, one after another;
    [fuel] bounds their number (the length of the list is enough). *)
Fixpoint dropWs (len : list ascii -> nat) (fuel : nat) (l : list ascii)
  : list ascii :=
  match fuel with
  | O => l
  | S fuel' =>
      match len l with
      | O => l
      | n => dropWs len fuel' (drop n l)
      end
  end.

Definition trimStart (s : string) : string :=
  let l := String.list_ascii_of_string s in
  String.string_of_list_ascii (dropWs wsLen (length l) l).

Definition trimEnd (s : string) : string :=
  let l := rev (String.list_ascii_of_string s) in
  String.string_of_list_ascii (rev (dropWs wsLenRev (length l) l)).

Definition trim (s : string) : string := trimEnd (trimStart s).

(** [Array.prototype.includes] / [Set.prototype.has] on strings. *)
Definition includes (l : list string) (x : string) : bool :=
  existsb (String.eqb x) l.

(** [Array.from(new Set(l))]: the distinct elements in first-occurrence order. *)
Fixpoint uniq (l : list string) : list string :=
  match l with
  | [] => []
  | x :: r => x :: List.filter (fun y => negb (String.eqb x y)) (uniq r)
  end.

(** The UTF-16 code units of a string, from its UTF-8 bytes: a character of
    one, two or three bytes is one code unit, a character of four bytes (beyond
    U+FFFF) is a surrogate pair. *)
Fixpoint codeUnits (l : list Z) : list Z :=
  match l with
  | [] => []
  | a :: r =>
      if a <? 128 then a :: codeUnits r
      else if a <? 224 then
        match r with
        | b :: r' => (a mod 32 * 64 + b mod 64) :: codeUnits r'
        | _ => a :: codeUnits r
        end
      else if a <? 240 then
        match r with
        | b :: c :: r' => (a mod 16 * 4096 + b mod 64 * 64 + c mod 64) :: codeUnits r'
        | _ => a :: codeUnits r
        end
      else
        match r with
        | b :: c :: d :: r' =>
            let cp := a mod 8 * 262144 + b mod 64 * 4096 + c mod 64 * 64 + d mod 64 in
            (55296 + (cp - 65536) / 1024) :: (56320 + (cp - 65536) mod 1024)
              :: codeUnits r'
        | _ => a :: codeUnits r
        end
  end.

Definition utf16 (s : string) : list Z :=
  codeUnits (map (fun c => Z.of_nat (nat_of_ascii c)) (String.list_ascii_of_string s)).

(** Lexicographic order of code units. *)
Fixpoint lexLeb (u v : list Z) : bool :=
  match u, v with
  | [], _ => true
  | _ :: _, [] => false
  | a :: u', b :: v' =>
      if a <? b then true else if b <? a then false else lexLeb u' v'
  end.

(** [x <= y] on strings, as JavaScript compares them: by UTF-16 code units. *)
Definition leb (x y : string) : bool := lexLeb (utf16 x) (utf16 y).

(** [Array.prototype.sort()] with the default comparator on strings
    (the order of the UTF-16 code units), as an insertion sort. *)
Fixpoint insertSorted (x : string) (l : list string) : list string :=
  match l with
  | [] => [x]
  | y :: r => if leb x y then x :: l else y :: insertSorted x r
  end.

Definition sort (l : list string) : list string := foldr insertSorted [] l.

(** [Array.prototype.join(sep)]. *)
Fixpoint join (sep : string) (l : list string) : string :=
  match l with
  | [] => EmptyString
  | [x] => x
  | x :: r => x +:+ sep +:+ join sep r
  end.

(** [Math.min(Math.floor(a / b), cap)] on integers [a], [b] as JavaScript
    computes it: a division by zero gives [+Infinity] (capped to [cap]),
    [-Infinity] or [NaN]; the last two are [None], as every comparison
    [x > level] with them is false. *)
Definition minFloorDiv (a b cap : Z) : option Z :=
  if b =? 0 then (if 0 <? a then Some cap else None)
  else Some (Z.min (a / b) cap).

(** *** Numbers that are not integers

    A JavaScript number is an IEEE 754 double (binary64): 53 bits of
    mantissa, infinities at exponent 1024. *)
Definition number : Type := SpecFloat.spec_float.

Definition NaN : number := SpecFloat.S754_nan.

(** The number of an integer: the nearest double, ties to the even one. *)
Definition ofZ (z : Z) : number := SpecFloat.binary_normalize 53 1024 z 0 false.

(** The number of a decimal literal of the source ([1.5]): the double
    nearest to the rational it writes. *)
Definition literal (q : Q) : number :=
  let exact (z : Z) : number :=
    match z with
    | Z0 => SpecFloat.S754_zero false
    | Zpos p => SpecFloat.S754_finite false p 0
    | Zneg p => SpecFloat.S754_finite true p 0
    end in
  SpecFloat.SFdiv 53 1024 (exact (Qnum q)) (exact (Zpos (Qden q))).

(** [x * y] *)
Definition mul (x y : number) : number := SpecFloat.SFmul 53 1024 x y.

(** [x < y]: false when one of them is NaN. *)
Definition ltb (x y : number) : bool := SpecFloat.SFltb x y.

(** [Number.isNaN(x)] *)
Definition isNaN (x : number) : bool :=
  match x with SpecFloat.S754_nan => true | _ => false end.

(** A number whose value is an integer, an infinity or NaN. *)
Inductive integral := Int (z : Z) | PosInf | NegInf | NotANumber.

(** [Math.floor(x)] *)
Definition floor (x : number) : integral :=
  match x with
  | SpecFloat.S754_zero _ => Int 0
  | SpecFloat.S754_infinity false => PosInf
  | SpecFloat.S754_infinity true => NegInf
  | SpecFloat.S754_nan => NotANumber
  | SpecFloat.S754_finite sign m e =>
      let mantissa := if sign then Z.neg m else Z.pos m in
      Int (if 0 <=? e then mantissa * 2 ^ e else mantissa / 2 ^ (- e))
  end.

End Js.

(** ** Data model (types.ts and the session store) *)

Inductive AgentState := Booting | Working | Completed | Stalled | Zombie.

Definition AgentState_eqb (a b : AgentState) : bool :=
  match a, b with
  | Booting, Booting | Working, Working | Completed, Completed
  | Stalled, Stalled | Zombie, Zombie => true
  | _, _ => false
  end.

(** [AgentSession]: one row of the session store. *)
Record AgentSession := mkSession {
  sessionId : string;             (* [id]; renamed, [id] is the identity function *)
  agentName : string;
  capability : string;
  worktreePath : string;
  branchName : string;
  beadId : string;
  tmuxSession : string;
  state : AgentState;
  pid : option Z;
  parentAgent : option string;
  depth : Z;
  runId : option string;
  startedAt : Z;
  lastActivity : Z;
  escalationLevel : Z;
  stalledSince : option Z
}.

Definition withState (st : AgentState) (s : AgentSession) : AgentSession :=
  mkSession (sessionId s) (agentName s) (capability s) (worktreePath s) (branchName s)
    (beadId s) (tmuxSession s) st (pid s) (parentAgent s) (depth s) (runId s)
    (startedAt s) (lastActivity s) (escalationLevel s) (stalledSince s).

Definition withEscalation (lvl : Z) (since : option Z) (s : AgentSession)
  : AgentSession :=
  mkSession (sessionId s) (agentName s) (capability s) (worktreePath s) (branchName s)
    (beadId s) (tmuxSession s) (state s) (pid s) (parentAgent s) (depth s)
    (runId s) (startedAt s) (lastActivity s) lvl since.

Definition withLastActivity (t : Z) (s : AgentSession) : AgentSession :=
  mkSession (sessionId s) (agentName s) (capability s) (worktreePath s) (branchName s)
    (beadId s) (tmuxSession s) (state s) (pid s) (parentAgent s) (depth s)
    (runId s) (startedAt s) t (escalationLevel s) (stalledSince s).

(** Modelled from the spec: the session store ([sessions/compat.ts],
    [sessions/store.ts], not part of the sources at hand) is "a durable keyed
    record of all agent sessions with atomic single-row updates", keyed by
    [agentName].  It is a list of rows; every update is by agent name. *)
Module SessionStore.

Definition t := list AgentSession.

Definition updateRows (name : string) (f : AgentSession -> AgentSession)
  (rows : t) : t :=
  map (fun r => if String.eqb (agentName r) name then f r else r) rows.

Definition getAll (rows : t) : list AgentSession := rows.

Definition getByName (rows : t) (name : string) : option AgentSession :=
  List.find (fun r => String.eqb (agentName r) name) rows.

Definition getByRun (rows : t) (run : string) : list AgentSession :=
  List.filter
    (fun r => match runId r with Some x => String.eqb x run | None => false end)
    rows.

Definition getActive (rows : t) : list AgentSession :=
  List.filter
    (fun r => match state r with
              | Booting | Working | Stalled => true
              | _ => false
              end) rows.

Definition updateState (name : string) (st : AgentState) (rows : t) : t :=
  updateRows name (withState st) rows.

Definition updateLastActivity (name : string) (now : Z) (rows : t) : t :=
  updateRows name (withLastActivity now) rows.

Definition updateEscalation (name : string) (lvl : Z) (since : option Z)
  (rows : t) : t :=
  updateRows name (withEscalation lvl since) rows.

End SessionStore.

(** ** The watchdog daemon (src/watchdog/daemon.ts) *)

Module Watchdog.

(** Maximum escalation level (terminate). *)
Definition MAX_ESCALATION_LEVEL : Z := 3.

(** Persistent agent capabilities, excluded from run-level completion checks. *)
Definition PERSISTENT_CAPABILITIES : list string := ["coordinator"; "monitor"].

Inductive HealthAction := ActNone | ActEscalate | ActTerminate | ActInvestigate.

(** [HealthCheck] of types.ts. *)
Record HealthCheck := mkCheck {
  hcAgentName : string;
  hcTimestamp : Z;
  hcProcessAlive : bool;
  hcTmuxAlive : bool;
  hcPidAlive : option bool;
  hcLastActivity : Z;
  hcState : AgentState;
  hcAction : HealthAction;
  hcReconciliationNote : option string
}.

(** Verdict of the tier-1 triage: ["retry" | "terminate" | "extend"]. *)
Inductive Verdict := VRetry | VTerminate | VExtend.

Inductive LogLevel := LvDebug | LvInfo | LvWarn | LvError.

(** The [data] object of the events the daemon records, by its [type]. *)
Inductive EventData :=
| BeadClosedAutocomplete (bead : string)
| MailPendingNudge (unreadCount : nat) (delivered : bool)
| EscalationWarn
| EscalationTerminate
| NudgeSent (delivered : bool)
| TriageVerdict (verdict : Verdict)
| RunComplete (workerCount : nat) (completedAgents capabilities : list string)
    (phase : string).

Record Event := mkEvent {
  evRunId : option string;
  evAgentName : string;
  evLevel : LogLevel;
  evData : EventData
}.

(** The four places that call the nudge sender. *)
Inductive NudgeSite := UnreadMailSite | StalledSite | RecoverySite | RunCompleteSite.

(** What a tick does to the world outside the session store and the marker
    file, in the order it does it. *)
Inductive Effect :=
| Probe (tmux : string)                          (* tmux.isSessionAlive *)
| Kill (tmux : string)                           (* tmux.killSession *)
| Nudge (site : NudgeSite) (agent message : string) (force : bool)
| Triage (agent : string) (lastAct : Z)          (* triage({agentName, lastActivity}) *)
| Failure (agent cap reason : string) (tier : Z) (suggestion : option string)
| HealthCallback (c : HealthCheck)               (* onHealthCheck(check) *)
| EventInsert (e : Event).                       (* eventStore.insert *)

Inductive StoreOp :=
| OpUpdateState (name : string) (st : AgentState)
| OpUpdateEscalation (name : string) (lvl : Z) (since : option Z).

(** [DaemonOptions] and everything else a tick reads from outside: the
    injected collaborators with their answers during this tick ([None] where
    the call throws), the clock, the files.  [evaluateHealth] and
    [transitionState] are imported from [./health.ts], which is not part of
    the sources at hand: they are collaborators here too. *)
Record Env := mkEnv {
  staleThresholdMs : Z;
  zombieThresholdMs : Z;
  nudgeIntervalMs : Z;
  tier1Enabled : bool;
  onHealthCheck : bool;                          (* is a callback given? *)
  isSessionAlive : string -> option bool;
  triage : string -> Z -> option Verdict;
  nudge : string -> string -> option bool;       (* the [delivered] field *)
  mailStore : option (string -> option nat);     (* getUnread(agent).length *)
  eventStore : option (Event -> bool);           (* does insert succeed? *)
  getClosedBeadIdsFn : list string -> option (list string);
  currentRunFile : option string;                (* current-run.txt *)
  markerReadable : bool;                         (* run-complete-notified.txt *)
  markerWritable : bool;
  storeThrows : StoreOp -> bool;
  evaluateHealth : AgentSession -> bool -> Z * Z -> HealthCheck;
  transitionState : AgentState -> HealthCheck -> AgentState;
  clockStall : string -> Z;       (* new Date() when a stall is first seen *)
  clockCheck : string -> Z        (* Date.now() when the level is computed *)
}.

Record World := mkWorld {
  store : SessionStore.t;         (* sessions.db *)
  marker : option string;         (* run-complete-notified.txt *)
  trace : list Effect
}.

(** *** State and exception *)

Definition M (A : Type) : Type := World -> World * option A.

Definition ret {A} (a : A) : M A := fun w => (w, Some a).
Definition throw {A} : M A := fun w => (w, None).
Definition bind {A B} (m : M A) (k : A -> M B) : M B :=
  fun w => match m w with
           | (w', Some a) => k a w'
           | (w', None) => (w', None)
           end.
(** [try { m } catch { }] *)
Definition tryCatch (m : M unit) : M unit := fun w => (fst (m w), Some tt).

Declare Scope daemon_scope.
Delimit Scope daemon_scope with daemon.
Notation "x <- m ;; k" := (bind m (fun x => k))
  (at level 100, m at next level, right associativity) : daemon_scope.
Notation "m ;; k" := (bind m (fun _ => k))
  (at level 100, right associativity) : daemon_scope.
Local Open Scope daemon_scope.

Fixpoint forEach {A} (f : A -> M unit) (l : list A) : M unit :=
  match l with
  | [] => ret tt
  | x :: r => f x ;; forEach f r
  end.

Definition emit (e : Effect) : M unit :=
  fun w => (mkWorld (store w) (marker w) (trace w ++ [e]), Some tt).

Definition applyOp (op : StoreOp) (rows : SessionStore.t) : SessionStore.t :=
  match op with
  | OpUpdateState n st => SessionStore.updateState n st rows
  | OpUpdateEscalation n lvl since => SessionStore.updateEscalation n lvl since rows
  end.

Definition storeWrite (env : Env) (op : StoreOp) : M unit :=
  fun w => if storeThrows env op then (w, None)
           else (mkWorld (applyOp op (store w)) (marker w) (trace w), Some tt).

Definition updateState env (n : string) (st : AgentState) : M unit :=
  storeWrite env (OpUpdateState n st).
Definition updateEscalation env (n : string) (lvl : Z) (since : option Z) : M unit :=
  storeWrite env (OpUpdateEscalation n lvl since).

(** *** Collaborators *)

(** Fire-and-forget: record an event to EventStore. Never throws. *)
Definition recordEvent (env : Env) (e : Event) : M unit :=
  match eventStore env with
  | None => ret tt
  | Some accepts => if accepts e then emit (EventInsert e) else ret tt
  end.

(** [recordFailureFn]: fire-and-forget, never throws. *)
Definition recordFailure (s : AgentSession) (reason : string) (tier : Z)
  (suggestion : option string) : M unit :=
  emit (Failure (agentName s) (capability s) reason tier suggestion).

Definition probeSession (env : Env) (tmux : string) : M bool :=
  emit (Probe tmux) ;;
  match isSessionAlive env tmux with
  | Some b => ret b
  | None => throw
  end.

(** [if (tmuxAlive) { try { await tmux.killSession(...) } catch {} }] *)
Definition killIfAlive (tmuxAlive : bool) (tmux : string) : M unit :=
  if tmuxAlive then emit (Kill tmux) else ret tt.

(** A call of the nudge sender; the result is [None] when it throws. *)
Definition callNudge (env : Env) (site : NudgeSite) (agent message : string)
  : M (option bool) :=
  emit (Nudge site agent message true) ;; ret (nudge env agent message).

Definition callTriage (env : Env) (agent : string) (lastAct : Z) : M Verdict :=
  emit (Triage agent lastAct) ;;
  match triage env agent lastAct with
  | Some v => ret v
  | None => throw
  end.

Definition readCurrentRunId (env : Env) : option string :=
  match currentRunFile env with
  | None => None
  | Some text =>
      let trimmed := Js.trim text in
      if (0 <? String.length trimmed)%nat then Some trimmed else None
  end.

(** *** Run-completion detector *)

Definition buildCompletionMessage (workerSessions : list AgentSession)
  (run : string) : string :=
  let capabilities := Js.uniq (map capability workerSessions) in
  let count : string := pretty (length workerSessions) in
  let phaseMsg (who rest : string) :=
    "[WATCHDOG] All " +:+ count +:+ " " +:+ who +:+ "(s) in run " +:+ run
      +:+ " have completed. " +:+ rest in
  let generic :=
    "[WATCHDOG] All " +:+ count +:+ " worker(s) in run " +:+ run
      +:+ " have completed (" +:+ Js.join ", " (Js.sort capabilities)
      +:+ "). Ready for next steps." in
  if (length capabilities =? 1)%nat then
    if Js.includes capabilities "scout" then phaseMsg "scout" "Ready for next phase."
    else if Js.includes capabilities "builder" then phaseMsg "builder" "Ready for merge/cleanup."
    else if Js.includes capabilities "reviewer" then phaseMsg "reviewer" "Reviews done."
    else if Js.includes capabilities "lead" then phaseMsg "lead" "Ready for merge/cleanup."
    else if Js.includes capabilities "merger" then phaseMsg "merger" "Merges done."
    else generic
  else generic.

(** The dedup test: the marker file exists, can be read, and its trimmed
    content is the run id. *)
Definition alreadyNotified (env : Env) (w : World) (run : string) : bool :=
  markerReadable env &&
  match marker w with
  | Some existing => String.eqb (Js.trim existing) run
  | None => false
  end.

Definition writeMarker (env : Env) (run : string) : M unit :=
  fun w => if markerWritable env
           then (mkWorld (store w) (Some run) (trace w), Some tt)
           else (w, None).

Definition runCompleteEvent (workerSessions : list AgentSession) (run : string)
  : Event :=
  let capabilitiesArr := Js.sort (Js.uniq (map capability workerSessions)) in
  let phase := match capabilitiesArr with [c] => c | _ => "mixed" end in
  mkEvent (Some run) "watchdog" LvInfo
    (RunComplete (length workerSessions) (map agentName workerSessions)
       capabilitiesArr phase).

Definition checkRunCompletion (env : Env) (run : string) : M unit :=
  fun w =>
    let runSessions := SessionStore.getByRun (store w) run in
    let workerSessions :=
      List.filter
        (fun s => negb (Js.includes PERSISTENT_CAPABILITIES (capability s)))
        runSessions in
    if (length workerSessions =? 0)%nat then ret tt w
    else if negb (forallb (fun s => AgentState_eqb (state s) Completed) workerSessions)
    then ret tt w
    else if alreadyNotified env w run then ret tt w
    else
      (tryCatch (callNudge env RunCompleteSite "coordinator"
                   (buildCompletionMessage workerSessions run) ;; ret tt) ;;
       recordEvent env (runCompleteEvent workerSessions run) ;;
       tryCatch (writeMarker env run)) w.

(** *** Escalation ladder *)

(** The double-quote character. *)
Definition dquote : string := String (ascii_of_nat 34) EmptyString.

Definition stalledMessage (agent : string) : string :=
  "[WATCHDOG] Agent " +:+ dquote +:+ agent +:+ dquote
    +:+ " appears stalled. Please check your current task and report status.".

Definition unreadMessage (unreadCount : nat) (agent : string) : string :=
  "[WATCHDOG] You have " +:+ pretty unreadCount +:+ " unread mail message"
    +:+ (if (unreadCount =? 1)%nat then EmptyString else "s")
    +:+ ". Run: overstory mail check --agent " +:+ agent.

Definition recoveryMessage : string :=
  "[WATCHDOG] Triage suggests recovery is possible. "
    +:+ "Please retry your current operation or check for errors.".

(** Execute the escalation action corresponding to the agent's current
    escalation level; the result is the [terminated] flag. *)
Definition executeEscalationAction (env : Env) (run : option string)
  (session : AgentSession) (tmuxAlive : bool) : M bool :=
  let name := agentName session in
  match escalationLevel session with
  | 0 =>
      recordEvent env (mkEvent run name LvWarn EscalationWarn) ;;
      ret false
  | 1 =>
      result <- callNudge env StalledSite name (stalledMessage name) ;;
      let delivered := match result with Some d => d | None => false end in
      recordEvent env (mkEvent run name LvWarn (NudgeSent delivered)) ;;
      ret false
  | 2 =>
      if negb (tier1Enabled env) then ret false
      else
        verdict <- callTriage env name (lastActivity session) ;;
        recordEvent env (mkEvent run name LvWarn (TriageVerdict verdict)) ;;
        match verdict with
        | VTerminate =>
            recordFailure session "AI triage classified as terminal failure" 1
              (Some "terminate") ;;
            killIfAlive tmuxAlive (tmuxSession session) ;;
            ret true
        | VRetry =>
            callNudge env RecoverySite name recoveryMessage ;;
            ret false
        | VExtend => ret false
        end
  | _ =>
      recordEvent env (mkEvent run name LvError EscalationTerminate) ;;
      recordFailure session "Progressive escalation reached terminal level" 0 None ;;
      killIfAlive tmuxAlive (tmuxSession session) ;;
      ret true
  end.

(** The unread-mail courtesy nudge of the first stall tick: one [try] block
    around the unread count, the nudge and the event. *)
Definition firstStallNudge (env : Env) (run : option string) (name : string)
  : M unit :=
  match mailStore env with
  | None => ret tt
  | Some getUnread =>
      match getUnread name with
      | None => ret tt
      | Some unreadCount =>
          if (0 <? unreadCount)%nat then
            result <- callNudge env UnreadMailSite name (unreadMessage unreadCount name) ;;
            match result with
            | None => ret tt
            | Some delivered =>
                recordEvent env
                  (mkEvent run name LvWarn (MailPendingNudge unreadCount delivered))
            end
          else ret tt
      end
  end.

(** [Math.min(Math.floor(stalledMs / nudgeIntervalMs), MAX_ESCALATION_LEVEL)];
    [None] stands for [NaN] and [-Infinity], which no level is below. *)
Definition expectedLevel (env : Env) (stalledMs : Z) : option Z :=
  Js.minFloorDiv stalledMs (nudgeIntervalMs env) MAX_ESCALATION_LEVEL.

(** Stall tracking, the first part of the [escalate] branch: initialise
    [stalledSince] on the first detection (with the unread-mail courtesy
    nudge), then advance the level when enough time has passed. *)
Definition trackStall (env : Env) (run : option string) (session : AgentSession)
  : M AgentSession :=
  let name := agentName session in
  p <- match stalledSince session with
       | None =>
           let now := clockStall env name in
           updateEscalation env name 0 (Some now) ;;
           firstStallNudge env run name ;;
           ret (withEscalation 0 (Some now) session, now)
       | Some since => ret (session, since)
       end ;;
  let session := fst p in
  let since := snd p in
  let stalledMs := clockCheck env name - since in
  match expectedLevel env stalledMs with
  | Some expected =>
      if escalationLevel session <? expected
      then updateEscalation env name expected (Some since) ;;
           ret (withEscalation expected (Some since) session)
      else ret session
  | None => ret session
  end.

(** The [escalate] branch of the tick: track the stall, execute the action
    of the current level, and reset a terminated session. *)
Definition escalate (env : Env) (run : option string) (session : AgentSession)
  (tmuxAlive : bool) : M AgentSession :=
  let name := agentName session in
  session <- trackStall env run session ;;
  terminated <- executeEscalationAction env run session tmuxAlive ;;
  if terminated : bool then
    updateState env name Zombie ;;
    updateEscalation env name 0 None ;;
    ret (withEscalation 0 None (withState Zombie session))
  else ret session.

(** The body of the tick's loop over the sessions; the result is the
    session object as the iteration leaves it. *)
Definition processSession (env : Env) (run : option string)
  (closedBeadIds : list string) (session : AgentSession) : M AgentSession :=
  let name := agentName session in
  if AgentState_eqb (state session) Completed then ret session
  else if Js.truthy (beadId session) && Js.includes closedBeadIds (beadId session) then
    updateState env name Completed ;;
    updateEscalation env name 0 None ;;
    recordEvent env
      (mkEvent run name LvInfo (BeadClosedAutocomplete (beadId session))) ;;
    ret (withEscalation 0 None (withState Completed session))
  else
    tmuxAlive <- probeSession env (tmuxSession session) ;;
    let check :=
      evaluateHealth env session tmuxAlive
        (staleThresholdMs env, zombieThresholdMs env) in
    let newState := transitionState env (state session) check in
    session <- (if AgentState_eqb newState (state session) then ret session
                else updateState env name newState ;; ret (withState newState session)) ;;
    (if onHealthCheck env then emit (HealthCallback check) else ret tt) ;;
    match hcAction check with
    | ActTerminate =>
        let reason := match hcReconciliationNote check with
                      | Some note => note
                      | None => "Process terminated"
                      end in
        recordFailure session reason 0 None ;;
        killIfAlive tmuxAlive (tmuxSession session) ;;
        updateState env name Zombie ;;
        updateEscalation env name 0 None ;;
        ret (withEscalation 0 None (withState Zombie session))
    | ActInvestigate => ret session
    | ActEscalate => escalate env run session tmuxAlive
    | ActNone =>
        match stalledSince session with
        | Some _ =>
            updateEscalation env name 0 None ;;
            ret (withEscalation 0 None session)
        | None => ret session
        end
    end.

(** The closed-bead lookup of a tick, fail-open: the empty set when the
    lookup throws. *)
Definition closedBeadIds (env : Env) (sessions : list AgentSession) : list string :=
  let beadIds := List.filter Js.truthy (map beadId sessions) in
  match getClosedBeadIdsFn env beadIds with
  | Some closed => closed
  | None => []
  end.

(** One iteration of the tick's loop, for the sessions read at its start. *)
Definition tickBody (env : Env) (sessions : list AgentSession)
  (session : AgentSession) : M unit :=
  processSession env (readCurrentRunId env) (closedBeadIds env sessions) session ;;
  ret tt.

(** Run a single daemon tick. *)
Definition runDaemonTick (env : Env) : M unit :=
  fun w =>
    let sessions := SessionStore.getAll (store w) in
    (forEach (tickBody env sessions) sessions ;;
     match readCurrentRunId env with
     | Some run => checkRunCompletion env run
     | None => ret tt
     end) w.

(** [runDaemonTick(options).catch(() => {})] *)
Definition tickCaught (env : Env) : M unit :=
  fun w => (fst (runDaemonTick env w), Some tt).

(** The daemon: the first tick at once, then one per interval; [envs] is what
    the successive ticks find.  This is the daemon whose ticks each end
    before the timer fires the next one: the timer itself does not wait
    ([setInterval] calls [runDaemonTick] whether or not the previous tick
    has returned), and a tick that is still awaiting a collaborator when the
    next one starts is the matter of [overlappingTicks] below. *)
Fixpoint startDaemon (envs : list Env) : M unit :=
  match envs with
  | [] => ret tt
  | env :: rest => tickCaught env ;; startDaemon rest
  end.

(** *** Ticks that overlap

    [checkRunCompletion] awaits the nudge sender between its read of the
    marker file and its write of it.  Its two parts, before and after that
    await: *)

(** The tests of [checkRunCompletion] with the read of the marker: the
    workers to notify about, when the notification is due. *)
Definition completionDue (env : Env) (run : string) (w : World)
  : option (list AgentSession) :=
  let runSessions := SessionStore.getByRun (store w) run in
  let workerSessions :=
    List.filter
      (fun s => negb (Js.includes PERSISTENT_CAPABILITIES (capability s)))
      runSessions in
  if (length workerSessions =? 0)%nat then None
  else if negb (forallb (fun s => AgentState_eqb (state s) Completed) workerSessions)
  then None
  else if alreadyNotified env w run then None
  else Some workerSessions.

(** The nudge of the coordinator, the event and the write of the marker. *)
Definition notifyCompletion (env : Env) (run : string)
  (workerSessions : list AgentSession) : M unit :=
  tryCatch (callNudge env RunCompleteSite "coordinator"
              (buildCompletionMessage workerSessions run) ;; ret tt) ;;
  recordEvent env (runCompleteEvent workerSessions run) ;;
  tryCatch (writeMarker env run).

(** A tick up to the await of the completion nudge: the loop over the
    sessions and the first part of the check. *)
Definition tickUntilNudge (env : Env) : M (option (list AgentSession)) :=
  fun w =>
    let sessions := SessionStore.getAll (store w) in
    (forEach (tickBody env sessions) sessions ;;
     fun w1 => (w1, Some match readCurrentRunId env with
                          | Some run => completionDue env run w1
                          | None => None
                          end)) w.

(** The rest of the tick, from that await on. *)
Definition tickFromNudge (env : Env) (due : option (list AgentSession)) : M unit :=
  match readCurrentRunId env, due with
  | Some run, Some workerSessions => notifyCompletion env run workerSessions
  | _, _ => ret tt
  end.

(** Two ticks of which the second is fired while the first awaits the
    nudge sender of its run-completion check, and reaches its own check
    before that nudge returns.  The error of a tick is swallowed. *)
Definition overlappingTicks (env1 env2 : Env) : M unit :=
  fun w =>
    let '(w1, due1) := tickUntilNudge env1 w in
    let '(w2, due2) := tickUntilNudge env2 w1 in
    let w3 := match due1 with
              | Some due => fst (tickFromNudge env1 due w2)
              | None => w2
              end in
    let w4 := match due2 with
              | Some due => fst (tickFromNudge env2 due w3)
              | None => w3
              end in
    (w4, Some tt).

(** *** The health check of the spec, for examples *)

(** Modelled from the spec: [evaluateHealth] of [./health.ts], which is not
    part of the sources at hand, after the table of section 4.5.2 ("Let
    age = now - lastActivity": dead terminal gives terminate/zombie; alive
    and recorded zombie gives investigate/unchanged; alive and age below
    staleMs gives none/working; otherwise escalate, a working session
    becoming stalled).  The table leaves a booting session past staleMs
    open; it is treated as the working one.  "The check also records a
    reconciliationNote whenever the observable state disagrees with the
    stored state": the text of the note is not given, scenario 1 wants the
    reason of a dead terminal to contain "terminated". *)
Definition specEvaluateHealth (now : Z) (s : AgentSession) (tmuxAlive : bool)
  (thresholds : Z * Z) : HealthCheck :=
  let age := now - lastActivity s in
  let mk st act note :=
    mkCheck (agentName s) now tmuxAlive tmuxAlive None (lastActivity s) st act note in
  if negb tmuxAlive then
    mk Zombie ActTerminate
      (match state s with
       | Zombie => None
       | _ => Some "terminal is dead: process terminated"
       end)
  else match state s with
       | Zombie => mk Zombie ActInvestigate (Some "tmux alive but recorded zombie")
       | Completed => mk Completed ActNone None
       | st =>
           if age <? fst thresholds then mk Working ActNone None
           else if age <? snd thresholds then mk Stalled ActEscalate None
           else mk st ActEscalate None
       end.

(** Modelled from the spec: [transitionState] of [./health.ts] ("apply state
    transition ... [investigate] holds current state"). *)
Definition specTransitionState (current : AgentState) (check : HealthCheck)
  : AgentState :=
  match hcAction check with
  | ActInvestigate => current
  | _ => hcState check
  end.

End Watchdog.

(** ** The mail command (overstory mail send/check/wait/reply) *)

Module Mail.

Inductive MailMessageType :=
| TStatus | TQuestion | TResult | TError
| TWorkerDone | TMergeReady | TMerged | TMergeFailed
| TEscalation | THealthCheck | TDispatch | TAssign.

Inductive Priority := PLow | PNormal | PHigh | PUrgent.

Definition typeName (t : MailMessageType) : string :=
  match t with
  | TStatus => "status" | TQuestion => "question" | TResult => "result"
  | TError => "error" | TWorkerDone => "worker_done"
  | TMergeReady => "merge_ready" | TMerged => "merged"
  | TMergeFailed => "merge_failed" | TEscalation => "escalation"
  | THealthCheck => "health_check" | TDispatch => "dispatch"
  | TAssign => "assign"
  end.

Definition priorityName (p : Priority) : string :=
  match p with
  | PLow => "low" | PNormal => "normal" | PHigh => "high" | PUrgent => "urgent"
  end.

(** All valid mail message types (types.ts). *)
Definition MAIL_MESSAGE_TYPES : list MailMessageType :=
  [TStatus; TQuestion; TResult; TError; TWorkerDone; TMergeReady; TMerged;
   TMergeFailed; TEscalation; THealthCheck; TDispatch; TAssign].

Definition VALID_PRIORITIES : list Priority := [PLow; PNormal; PHigh; PUrgent].

(** [MAIL_MESSAGE_TYPES.includes(rawType)] followed by the cast. *)
Definition parseType (raw : string) : option MailMessageType :=
  List.find (fun t => String.eqb (typeName t) raw) MAIL_MESSAGE_TYPES.

Definition parsePriority (raw : string) : option Priority :=
  List.find (fun p => String.eqb (priorityName p) raw) VALID_PRIORITIES.

(** Protocol message types that require immediate recipient attention. *)
Definition AUTO_NUDGE_TYPES (t : MailMessageType) : bool :=
  match t with
  | TWorkerDone | TMergeReady | TError | TEscalation | TMergeFailed => true
  | _ => false
  end.

Record MailMessage := mkMessage {
  msgId : string;
  msgFrom : string;
  msgTo : string;
  msgSubject : string;
  msgBody : string;
  msgPriority : Priority;
  msgType : MailMessageType;
  msgThreadId : option string;
  msgPayload : option string;
  msgRead : bool;
  msgCreatedAt : Z
}.

(** Shape of a pending nudge marker file. *)
Record PendingNudge := mkNudge {
  pnFrom : string;
  pnReason : string;
  pnSubject : string;
  pnMessageId : string;
  pnCreatedAt : Z
}.

(** A [mail_sent] event: sender, recipient, message id, broadcast flag. *)
Record MailSent := mkMailSent {
  sentBy : string;
  sentTo : string;
  sentMessageId : string;
  sentBroadcast : bool
}.

(** The project state the mail command works on.  A marker file whose
    content does not parse is [None] in [pendingNudges]. *)
Record World := mkWorld {
  sessions : SessionStore.t;                       (* sessions.db *)
  mail : list MailMessage;                         (* mail.db *)
  pendingNudges : gmap string (option PendingNudge);  (* pending-nudges/<agent>.json *)
  mailCheckState : gmap string Z;                  (* mail-check-state.json *)
  files : gset string;                             (* other files that exist *)
  events : list MailSent;                          (* events.db *)
  now : Z                                          (* the clock *)
}.

(** What the command reads from outside the project state. *)
Record Env := mkEnv {
  sessionStoreOk : bool;            (* can sessions.db be opened and used? *)
  eventStoreOk : bool;
  freshId : list MailMessage -> string;            (* "msg-" + nanoid(12) *)
  validJson : string -> bool;                      (* does JSON.parse succeed? *)
  parseFloat : string -> Js.number;                (* Number.parseFloat *)
  envAgentName : option string;                    (* OVERSTORY_AGENT_NAME *)
  isGroupAddress : string -> bool;                 (* mail/broadcast.ts *)
  resolveGroupAddress : string -> list AgentSession -> string -> list string;
  sleep : World -> Z -> World       (* Bun.sleep: what the others did meanwhile *)
}.

Definition setSessions (rows : SessionStore.t) (w : World) : World :=
  mkWorld rows (mail w) (pendingNudges w) (mailCheckState w) (files w) (events w) (now w).
Definition setMail (m : list MailMessage) (w : World) : World :=
  mkWorld (sessions w) m (pendingNudges w) (mailCheckState w) (files w) (events w) (now w).
Definition setPendingNudges (p : gmap string (option PendingNudge)) (w : World) : World :=
  mkWorld (sessions w) (mail w) p (mailCheckState w) (files w) (events w) (now w).
Definition setMailCheckState (c : gmap string Z) (w : World) : World :=
  mkWorld (sessions w) (mail w) (pendingNudges w) c (files w) (events w) (now w).
Definition setEvents (e : list MailSent) (w : World) : World :=
  mkWorld (sessions w) (mail w) (pendingNudges w) (mailCheckState w) (files w) e (now w).

(** *** Argument parsing *)

(** The value after the flag, or [None]. *)
Fixpoint getFlag (args : list string) (flag : string) : option string :=
  match args with
  | [] => None
  | a :: rest =>
      if String.eqb a flag then
        match rest with
        | v :: _ => Some v
        | [] => None
        end
      else getFlag rest flag
  end.

Definition hasFlag (args : list string) (flag : string) : bool :=
  Js.includes args flag.

Definition BOOLEAN_FLAGS : list string :=
  ["--json"; "--inject"; "--unread"; "--all"; "--help"; "-h"].

Definition startsWithDash (s : string) : bool :=
  match s with String c _ => Ascii.eqb c "-"%char | EmptyString => false end.

(** Positional arguments: [fuel] bounds the loop ([length args] is enough). *)
Fixpoint getPositionalArgs (fuel : nat) (args : list string) : list string :=
  match fuel, args with
  | S f, arg :: rest =>
      if startsWithDash arg then
        if Js.includes BOOLEAN_FLAGS arg then getPositionalArgs f rest
        else getPositionalArgs f (tail rest)
      else arg :: getPositionalArgs f rest
  | _, _ => []
  end.

(** [a ?? b] *)
Definition orElse {A} (a b : option A) : option A :=
  match a with Some _ => a | None => b end.

Definition digit (c : ascii) : option Z :=
  let n := nat_of_ascii c in
  if ((48 <=? n) && (n <=? 57))%nat then Some (Z.of_nat n - 48) else None.

Fixpoint digits (acc : option Z) (s : string) : option Z :=
  match s with
  | EmptyString => acc
  | String c r =>
      match digit c with
      | Some d => digits (Some (10 * default 0 acc + d)) r
      | None => acc
      end
  end.

(** [Number.parseInt(s, 10)]; [None] is NaN.  The result is the integer the
    digits denote; the number the code holds is the double nearest to it
    ([Js.ofZ]), the same integer below 2^53. *)
Definition parseInt (s : string) : option Z :=
  match Js.trimStart s with
  | String "-" r => Z.opp <$> digits None r
  | String "+" r => digits None r
  | t => digits None t
  end.

(** Explicit [--agent], else OVERSTORY_AGENT_NAME, else "orchestrator". *)
Definition resolveAgentName (env : Env) (args : list string) : string :=
  match Js.trim <$> getFlag args "--agent" with
  | Some (String c r) => String c r
  | _ =>
      match Js.trim <$> envAgentName env with
      | Some (String c r) => String c r
      | _ => "orchestrator"
      end
  end.

(** Result of a handler: it returns, or throws a validation or mail error. *)
Inductive Outcome (A : Type) :=
| Returned (a : A)
| ValidationError (field : string)
| MailError.
Arguments Returned {A} a.
Arguments ValidationError {A} field.
Arguments MailError {A}.

(** *** Session heartbeat *)

(** Best-effort session activity heartbeat for an agent. *)
Definition touchAgentSession (env : Env) (agent : string) (w : World) : World :=
  if negb (sessionStoreOk env) then w
  else
    match SessionStore.getByName (sessions w) agent with
    | None => w
    | Some session =>
        match state session with
        | Zombie | Completed => w
        | st =>
            let rows := SessionStore.updateLastActivity agent (now w) (sessions w) in
            let rows :=
              match st with
              | Booting | Stalled => SessionStore.updateState agent Working rows
              | _ => rows
              end in
            setSessions rows w
        end
    end.

(** Resolve the current capability for an agent, if session data is available. *)
Definition resolveAgentCapability (env : Env) (agent : string) (w : World)
  : option string :=
  if negb (sessionStoreOk env) then None
  else capability <$> SessionStore.getByName (sessions w) agent.

(** *** Pending nudge markers *)

(** Write a pending nudge marker for an agent; overwrites any existing one. *)
Definition writePendingNudge (agent from reason subject messageId : string)
  (w : World) : World :=
  let marker := mkNudge from reason subject messageId (now w) in
  setPendingNudges (<[agent := Some marker]> (pendingNudges w)) w.

(** Read and clear the pending nudge marker of an agent. *)
Definition readAndClearPendingNudge (agent : string) (w : World)
  : World * option PendingNudge :=
  match pendingNudges w !! agent with
  | None => (w, None)
  | Some content => (setPendingNudges (delete agent (pendingNudges w)) w, content)
  end.

(** *** Mail check debounce *)

Definition isMailCheckDebounced (agent : string) (debounceMs : Z) (w : World)
  : bool :=
  match mailCheckState w !! agent with
  | None => false
  | Some lastCheck => now w - lastCheck <? debounceMs
  end.

Definition recordMailCheck (agent : string) (w : World) : World :=
  setMailCheckState (<[agent := now w]> (mailCheckState w)) w.

(** *** The mail client *)

(** Modelled from the spec: [Send] of the mail store and broker
    ([mail/client.ts], [mail/store.ts], not part of the sources at hand)
    persists the message, unread, and returns its id. *)
Definition clientSend (env : Env) (from to subject body : string)
  (type : MailMessageType) (priority : Priority) (payload thread : option string)
  (w : World) : World * string :=
  let newId := freshId env (mail w) in
  (setMail (mail w ++ [mkMessage newId from to subject body priority type
                         thread payload false (now w)]) w, newId).

Definition unreadFor (agent : string) (m : MailMessage) : bool :=
  String.eqb (msgTo m) agent && negb (msgRead m).

Definition markRead (m : MailMessage) : MailMessage :=
  mkMessage (msgId m) (msgFrom m) (msgTo m) (msgSubject m) (msgBody m)
    (msgPriority m) (msgType m) (msgThreadId m) (msgPayload m) true (msgCreatedAt m).

(** Modelled from the spec: "[Check(agent)]: unread messages addressed to
    [agent], marked read atomically". *)
Definition clientCheck (agent : string) (w : World) : World * list MailMessage :=
  (setMail (map (fun m => if unreadFor agent m then markRead m else m) (mail w)) w,
   List.filter (unreadFor agent) (mail w)).

(** Modelled from the spec: "[Reply(id, body, from)] (auto-derives [to],
    subject with [Re:] prefix, and [threadId])"; type and priority are the
    original's.  [None] when no message has this id. *)
Definition clientReply (env : Env) (id body from : string) (w : World)
  : option (World * string) :=
  match List.find (fun m => String.eqb (msgId m) id) (mail w) with
  | None => None
  | Some original =>
      Some (clientSend env from (msgFrom original) ("Re: " +:+ msgSubject original)
              body (msgType original) (msgPriority original) None
              (Some (default (msgId original) (msgThreadId original))) w)
  end.

(** Record a [mail_sent] event (fire-and-forget). *)
Definition recordMailSent (env : Env) (from to id : string) (broadcast : bool)
  (w : World) : World :=
  if eventStoreOk env then setEvents (events w ++ [mkMailSent from to id broadcast]) w
  else w.

(** *** overstory mail send *)

Definition shouldNudge (priority : Priority) (type : MailMessageType) : bool :=
  match priority with
  | PUrgent | PHigh => true
  | _ => AUTO_NUDGE_TYPES type
  end.

Definition nudgeReason (priority : Priority) (type : MailMessageType) : string :=
  if AUTO_NUDGE_TYPES type then typeName type
  else priorityName priority +:+ " priority".

(** One message to one recipient: send, record the event, auto-nudge.
    Both the broadcast fan-out and the single-recipient path do this. *)
Definition sendOne (env : Env) (broadcast : bool) (from to subject body : string)
  (type : MailMessageType) (priority : Priority) (payload : option string)
  (w : World) : World * string :=
  let '(w, newId) := clientSend env from to subject body type priority payload None w in
  let w := recordMailSent env from to newId broadcast w in
  let w := if shouldNudge priority type
           then writePendingNudge to from (nudgeReason priority type) subject newId w
           else w in
  (w, newId).

Fixpoint sendAll (env : Env) (from subject body : string)
  (type : MailMessageType) (priority : Priority) (payload : option string)
  (recipients : list string) (w : World) : World * list string :=
  match recipients with
  | [] => (w, [])
  | recipient :: rest =>
      let '(w, newId) :=
        sendOne env true from recipient subject body type priority payload w in
      let '(w, ids) := sendAll env from subject body type priority payload rest w in
      (w, newId :: ids)
  end.

(** A required flag: a value that is present and not the empty string. *)
Definition required (v : option string) : option string :=
  match v with
  | Some (String c r) => Some (String c r)
  | _ => None
  end.

Definition handleSend (env : Env) (args : list string) (w : World)
  : World * Outcome (list string) :=
  let to := getFlag args "--to" in
  let subject := getFlag args "--subject" in
  let body := getFlag args "--body" in
  let from := default "orchestrator"
                (orElse (getFlag args "--agent") (getFlag args "--from")) in
  let rawPayload := getFlag args "--payload" in
  let rawType := default "status" (getFlag args "--type") in
  let rawPriority := default "normal" (getFlag args "--priority") in
  match parseType rawType with
  | None => (w, ValidationError "type")
  | Some type =>
  match parsePriority rawPriority with
  | None => (w, ValidationError "priority")
  | Some priority =>
      (* Treat outbound mail as agent activity (best-effort). *)
      let w := touchAgentSession env from w in
      if match rawPayload with Some p => negb (validJson env p) | None => false end
      then (w, ValidationError "payload")
      else
      match required to, required subject, required body with
      | None, _, _ => (w, ValidationError "to")
      | _, None, _ => (w, ValidationError "subject")
      | _, _, None => (w, ValidationError "body")
      | Some to, Some subject, Some body =>
          if isGroupAddress env to then
            let activeSessions := SessionStore.getActive (sessions w) in
            let recipients := resolveGroupAddress env to activeSessions from in
            let '(w, ids) :=
              sendAll env from subject body type priority rawPayload recipients w in
            (w, Returned ids)
          else
            let '(w, newId) :=
              sendOne env false from to subject body type priority rawPayload w in
            (w, Returned [newId])
      end
  end
  end.

(** *** overstory mail check *)

Definition handleCheck (env : Env) (args : list string) (w : World)
  : World * Outcome (list MailMessage * option PendingNudge) :=
  let agent := resolveAgentName env args in
  let inject := hasFlag args "--inject" in
  let debounce :=
    match getFlag args "--debounce" with
    | None => Returned None
    | Some flag =>
        match parseInt flag with
        | None => ValidationError "debounce"
        | Some parsed =>
            if parsed <? 0 then ValidationError "debounce" else Returned (Some parsed)
        end
    end in
  match debounce with
  | ValidationError f => (w, ValidationError f)
  | MailError => (w, MailError)
  | Returned debounceMs =>
      if match debounceMs with
         | Some ms => isMailCheckDebounced agent ms w
         | None => false
         end
      then (w, Returned ([], None))      (* silent skip *)
      else
        (* Treat inbox polling as activity (best-effort). *)
        let w := touchAgentSession env agent w in
        let '(w, pendingNudge) :=
          if inject then readAndClearPendingNudge agent w else (w, None) in
        let '(w, messages) := clientCheck agent w in
        let w := match debounceMs with
                 | Some _ => recordMailCheck agent w
                 | None => w
                 end in
        (w, Returned (messages, pendingNudge))
  end.

(** *** overstory mail reply *)

Definition handleReply (env : Env) (args : list string) (w : World)
  : World * Outcome string :=
  let positional := getPositionalArgs (length args) args in
  let id := head positional in
  let body := getFlag args "--body" in
  let from := default "orchestrator"
                (orElse (getFlag args "--agent") (getFlag args "--from")) in
  let w := touchAgentSession env from w in
  match required id, required body with
  | None, _ => (w, ValidationError "id")
  | _, None => (w, ValidationError "body")
  | Some id, Some body =>
      match clientReply env id body from w with
      | None => (w, MailError)
      | Some (w, replyId) => (w, Returned replyId)
      end
  end.

(** *** overstory mail wait *)

Inductive WaitStatus := StMessage | StTimeout | StCancelled | StNudged.

Record MailWaitResult := mkResult {
  status : WaitStatus;
  messages : list MailMessage;
  waitedMs : Z;
  polls : nat;
  resultCancelFile : option string;
  nudge : option PendingNudge
}.

Record MailWaitOptions := mkOptions {
  agent : string;
  timeoutMs : Z;
  initialPollMs : Z;
  maxPollMs : Z;
  backoff : Js.number;
  cancelFile : option string;
  wakeOnPendingNudge : bool
}.

(** [options.cancelFile] is set and the file exists. *)
Definition cancelRequested (options : MailWaitOptions) (w : World) : bool :=
  match cancelFile options with
  | Some path => Js.truthy path && bool_decide (path ∈ files w)
  | None => false
  end.

(** [Math.min(maxPollMs, Math.max(initialPollMs, Math.floor(pollMs * backoff)))],
    the product being that of two doubles.  It is an infinity when
    [backoff] is one; [Math.max] and [Math.min] then give [maxPollMs].  It
    is NaN only for a NaN [backoff] or for [pollMs] 0 with an infinite
    [backoff], neither of which [handleWait] lets through (the interval
    stays positive); the interval is left as it is then. *)
Definition nextPollMs (options : MailWaitOptions) (pollMs : Z) : Z :=
  match Js.floor (Js.mul (Js.ofZ pollMs) (backoff options)) with
  | Js.Int product =>
      Z.min (maxPollMs options) (Z.max (initialPollMs options) product)
  | Js.PosInf => maxPollMs options
  | Js.NegInf => Z.min (maxPollMs options) (initialPollMs options)
  | Js.NotANumber => pollMs
  end.

(** How one iteration of the wait loop ends: with the result, or asleep. *)
Inductive Step :=
| Return (r : MailWaitResult)
| Sleep (sleepMs pollMs : Z) (polls : nat).

(** The body of the [while (true)] loop of [waitForMail]. *)
Definition waitIteration (env : Env) (options : MailWaitOptions)
  (startedAt pollMs : Z) (polls : nat) (w : World) : World * Step :=
  if cancelRequested options w then
    (w, Return (mkResult StCancelled [] (now w - startedAt) polls
                  (cancelFile options) None))
  else
    let '(w, pendingNudge) :=
      if wakeOnPendingNudge options
      then readAndClearPendingNudge (agent options) w
      else (w, None) in
    let '(w, messages) := clientCheck (agent options) w in
    let polls := S polls in
    let w := touchAgentSession env (agent options) w in
    if (0 <? length messages)%nat then
      (w, Return (mkResult StMessage messages (now w - startedAt) polls
                    (cancelFile options) pendingNudge))
    else
      match pendingNudge with
      | Some _ =>
          (w, Return (mkResult StNudged [] (now w - startedAt) polls
                        (cancelFile options) pendingNudge))
      | None =>
          let elapsedMs := now w - startedAt in
          if timeoutMs options <=? elapsedMs then
            (w, Return (mkResult StTimeout [] elapsedMs polls
                          (cancelFile options) None))
          else
            let remainingMs := timeoutMs options - elapsedMs in
            let sleepMs := Z.min pollMs remainingMs in
            (w, Sleep sleepMs (nextPollMs options pollMs) polls)
      end.

(** The loop: [fuel] bounds the number of iterations. *)
Fixpoint waitLoop (fuel : nat) (env : Env) (options : MailWaitOptions)
  (startedAt pollMs : Z) (polls : nat) (w : World)
  : option (World * MailWaitResult) :=
  match fuel with
  | O => None
  | S fuel' =>
      match waitIteration env options startedAt pollMs polls w with
      | (w, Return r) => Some (w, r)
      | (w, Sleep sleepMs pollMs' polls') =>
          waitLoop fuel' env options startedAt pollMs' polls' (sleep env w sleepMs)
      end
  end.

(** Wait for mailbox activity with timeout/backoff/cancellation controls. *)
Definition waitForMail (fuel : nat) (env : Env) (options : MailWaitOptions)
  (w : World) : option (World * MailWaitResult) :=
  let startedAt := now w in
  (* Seed heartbeat immediately before entering the wait loop. *)
  let w := touchAgentSession env (agent options) w in
  waitLoop fuel env options startedAt (initialPollMs options) 0 w.

(** [flag ? Number.parseInt(flag, 10) : dflt]; the inner [None] is NaN. *)
Definition intFlag (flag : option string) (dflt : Z) : option Z :=
  match required flag with
  | Some f => parseInt f
  | None => Some dflt
  end.

(** The condition under which the wait also wakes on a pending nudge. *)
Definition wakesOnNudge (capability : option string) (agent : string) : bool :=
  match capability with
  | Some c => String.eqb c "coordinator" || String.eqb c "lead"
  | None => false
  end || String.eqb agent "coordinator".

(** The first half of [handleWait]: the flags, their validation, and the
    options of the wait. *)
Definition waitOptions (env : Env) (args : list string) (w : World)
  : Outcome MailWaitOptions :=
  let agent := resolveAgentName env args in
  let timeoutFlag := orElse (getFlag args "--timeout-ms") (getFlag args "--timeout") in
  let pollFlag := orElse (getFlag args "--poll-ms") (getFlag args "--poll") in
  let maxPollFlag := getFlag args "--max-poll-ms" in
  let backoffFlag := getFlag args "--backoff" in
  let cancelFile := getFlag args "--cancel-file" in
  let backoff := match required backoffFlag with
                 | Some f => parseFloat env f
                 | None => Js.literal (15 # 10)
                 end in
  match intFlag timeoutFlag 300000 with
  | None => ValidationError "timeout-ms"
  | Some timeoutMs =>
  if timeoutMs <? 0 then ValidationError "timeout-ms" else
  match intFlag pollFlag 1000 with
  | None => ValidationError "poll-ms"
  | Some initialPollMs =>
  if initialPollMs <=? 0 then ValidationError "poll-ms" else
  match intFlag maxPollFlag 10000 with
  | None => ValidationError "max-poll-ms"
  | Some maxPollMs =>
  if (maxPollMs <=? 0) || (maxPollMs <? initialPollMs)
  then ValidationError "max-poll-ms" else
  if Js.isNaN backoff || Js.ltb backoff (Js.ofZ 1)
  then ValidationError "backoff" else
    let capability := resolveAgentCapability env agent w in
    Returned (mkOptions agent timeoutMs initialPollMs maxPollMs backoff cancelFile
                (wakesOnNudge capability agent))
  end end end.

(** [handleWait]: [None] when [fuel] iterations of the loop do not suffice. *)
Definition handleWait (fuel : nat) (env : Env) (args : list string) (w : World)
  : option (World * Outcome MailWaitResult) :=
  match waitOptions env args w with
  | Returned options =>
      match waitForMail fuel env options w with
      | Some (w, r) => Some (w, Returned r)
      | None => None
      end
  | ValidationError f => Some (w, ValidationError f)
  | MailError => Some (w, MailError)
  end.

End Mail.

(** ** Example data *)

Module WatchdogExamples.
Import Watchdog.

Definition exSession (name bead : string) (st : AgentState) (lastAct lvl : Z)
  (since : option Z) : AgentSession :=
  mkSession ("session-" +:+ name) name "builder" "/wt" "branch" bead
    ("tmux-" +:+ name) st None None 0 (Some "run-1") 0 lastAct lvl since.

(** An environment at time [now] with thresholds of 5 and 20 minutes and a
    nudge interval of one minute (the spec's scenario 2), the health check
    of the spec, no unread mail, and nothing failing but what [probe] says;
    the current run is ["run-1"]. *)
Definition exEnvWith (now : Z) (probe : string -> option bool)
  (closed : list string) (tier1 : bool) (verdict : option Verdict) : Env :=
  mkEnv 300000 1200000 60000 tier1 true probe
    (fun _ _ => verdict) (fun _ _ => Some true)
    (Some (fun _ => Some 0%nat)) (Some (fun _ => true)) (fun _ => Some closed)
    (Some "run-1") true true (fun _ => false)
    (specEvaluateHealth now) specTransitionState (fun _ => now) (fun _ => now).

(** Scenario 2: every terminal alive, triage disabled. *)
Definition exEnv (now : Z) : Env :=
  exEnvWith now (fun _ => Some true) [] false None.

(** The liveness probe of terminal [tmux] throws; every other terminal is dead. *)
Definition exEnvProbeThrows (now : Z) (tmux : string) : Env :=
  exEnvWith now (fun t => if String.eqb t tmux then None else Some false)
    [] false None.

(** Every terminal is dead and the tracker reports the beads [closed] closed. *)
Definition exEnvClosed (now : Z) (closed : list string) : Env :=
  exEnvWith now (fun _ => Some false) closed false None.


(** As [exEnvClosed], with a session store that throws at every reset of
    the escalation fields ([updateEscalation(name, 0, null)]). *)
Definition exEnvResetThrows (now : Z) : Env :=
  mkEnv 300000 1200000 60000 false true (fun _ => Some false)
    (fun _ _ => None) (fun _ _ => Some true)
    (Some (fun _ => Some 0%nat)) (Some (fun _ => true)) (fun _ => Some [])
    (Some "run-1") true true
    (fun op => match op with
               | OpUpdateEscalation _ 0 None => true
               | _ => false
               end)
    (specEvaluateHealth now) specTransitionState (fun _ => now) (fun _ => now).



(** As [exEnv], with a marker file that cannot be read. *)
Definition exEnvMarkerUnreadable (now : Z) : Env :=
  mkEnv 300000 1200000 60000 false true (fun _ => Some true)
    (fun _ _ => None) (fun _ _ => Some true)
    (Some (fun _ => Some 0%nat)) (Some (fun _ => true)) (fun _ => Some [])
    (Some "run-1") false true (fun _ => false)
    (specEvaluateHealth now) specTransitionState (fun _ => now) (fun _ => now).

Definition exWorld (rows : list AgentSession) : World := mkWorld rows None [].

(** The session of scenario 2: working, last active 11 minutes before 0. *)
Definition quietSession : AgentSession :=
  exSession "a" EmptyString Working (-660000) 0 None.

End WatchdogExamples.

(** ** Vocabulary of the watchdog's properties *)

Module WatchdogSpec.
Import Watchdog.

(** [Q] holds of the world and the result ([None]: thrown) of [m] run in [w]. *)
Definition wp {A} (m : M A) (w : World) (Q : World -> option A -> Prop) : Prop :=
  Q (fst (m w)) (snd (m w)).

(** What [recordEvent] appends to the trace. *)
Definition recorded (env : Env) (e : Event) : list Effect :=
  match eventStore env with
  | Some accepts => if accepts e then [EventInsert e] else []
  | None => []
  end.

(** [m] leaves the session store and the marker file alone. *)
Definition neutral {A} (m : M A) : Prop :=
  forall w, store (fst (m w)) = store w /\ marker (fst (m w)) = marker w.

(** The fields of a row that a tick writes, copied from a session object. *)
Definition sync (s r : AgentSession) : AgentSession :=
  withEscalation (escalationLevel s) (stalledSince s) (withState (state s) r).

(** The rows of [s]'s name carry [s]'s state and escalation fields: the
    session object read at the start of the tick is still what is stored. *)
Definition agree (s : AgentSession) (rows : list AgentSession) : Prop :=
  Forall (fun r => agentName r = agentName s ->
                   state r = state s /\ escalationLevel r = escalationLevel s /\
                   stalledSince r = stalledSince s) rows.

Definition terminal (st : AgentState) : bool :=
  match st with Completed | Zombie => true | _ => false end.

(** The invariant of terminal sessions. *)
Definition resetWhenTerminal (r : AgentSession) : Prop :=
  terminal (state r) = true -> escalationLevel r = 0 /\ stalledSince r = None.

(** What the invariant needs of the health check (section 4.5.2 of the
    spec) on the sessions a tick evaluates, those not completed:
    [investigate] holds the state, and neither [escalate] nor [none] moves
    a session to a terminal state. *)
Definition healthHoldsTerminal (env : Env) : Prop :=
  forall s alive,
    state s <> Completed ->
    let check := evaluateHealth env s alive (staleThresholdMs env, zombieThresholdMs env) in
    let st := transitionState env (state s) check in
    match hcAction check with
    | ActInvestigate => st = state s
    | ActEscalate | ActNone => terminal st = false
    | ActTerminate => True
    end.

(** After an iteration that returns [s']: the rows of the session's name in
    the store carry the fields of [s'], and [s'] keeps the invariant. *)
Definition iterPost (env : Env) (s : AgentSession) (rows0 : list AgentSession)
  (w' : World) (r : option AgentSession) : Prop :=
  match r with
  | Some s' =>
      agentName s' = agentName s /\
      store w' = SessionStore.updateRows (agentName s) (sync s') rows0 /\
      (healthHoldsTerminal env -> resetWhenTerminal s -> resetWhenTerminal s')
  | None => True
  end.

Definition isCompletionNudge (e : Effect) : bool :=
  match e with Nudge RunCompleteSite _ _ _ => true | _ => false end.

Definition isRunCompleteEvent (e : Effect) : bool :=
  match e with
  | EventInsert ev => match evData ev with RunComplete _ _ _ _ => true | _ => false end
  | _ => false
  end.

(** Number of completion notifications sent to the coordinator. *)
Definition completionNudges (tr : list Effect) : nat :=
  length (List.filter isCompletionNudge tr).

(** Number of [run_complete] events recorded. *)
Definition runCompleteEvents (tr : list Effect) : nat :=
  length (List.filter isRunCompleteEvent tr).

Definition sessionEffect (e : Effect) : Prop :=
  isCompletionNudge e = false /\ isRunCompleteEvent e = false.

(** [m] works on the sessions named in [N] only, whether it returns or
    throws: it leaves the marker file alone, sends no completion
    notification, and rewrites rows of names in [N] only, keeping every
    row's name. *)
Definition framed (N : string -> Prop) {A} (m : M A) : Prop :=
  forall w,
    marker (fst (m w)) = marker w /\
    (exists tr, trace (fst (m w)) = trace w ++ tr /\ Forall sessionEffect tr) /\
    (exists f, (forall r, agentName (f r) = agentName r) /\
               (forall r, ~ N (agentName r) -> f r = r) /\
               store (fst (m w)) = map f (store w)).

(** The state and escalation fields of [r'] are those of [s']. *)
Definition rowOf (s' r' : AgentSession) : Prop :=
  state r' = state s' /\ escalationLevel r' = escalationLevel s' /\
  stalledSince r' = stalledSince s'.

Definition opName (op : StoreOp) : string :=
  match op with
  | OpUpdateState n _ => n
  | OpUpdateEscalation n _ _ => n
  end.

(** The marker file names run [R]. *)
Definition notified (R : string) (w : World) : bool :=
  match marker w with
  | Some existing => String.eqb (Js.trim existing) R
  | None => false
  end.



(** No call of the nudge sender and none of the triage. *)
Definition noNudgeNoTriage (tr : list Effect) : Prop :=
  Forall (fun x => match x with
                   | Nudge _ _ _ _ | Triage _ _ => False
                   | _ => True
                   end) tr.

(** The workers of run [R]: its sessions without the persistent capabilities. *)
Definition workersOf (R : string) (w : World) : list AgentSession :=
  List.filter
    (fun s => negb (Js.includes PERSISTENT_CAPABILITIES (capability s)))
    (SessionStore.getByRun (store w) R).

(** Notifications still allowed for run [R]: none once the marker names it. *)
Definition pending (R : string) (w : World) : nat :=
  if notified R w then 0%nat else 1%nat.

(** What a world has spent of its one notification for run [R]. *)
Definition spent (R : string) (w0 w : World) : Prop :=
  (completionNudges (trace w) + pending R w
     <= completionNudges (trace w0) + pending R w0)%nat /\
  (runCompleteEvents (trace w) + pending R w
     <= runCompleteEvents (trace w0) + pending R w0)%nat /\
  (completionNudges (trace w0) <= completionNudges (trace w))%nat /\
  (runCompleteEvents (trace w0) <= runCompleteEvents (trace w))%nat /\
  (pending R w <= pending R w0)%nat.

End WatchdogSpec.

Module MailExamples.
Import Mail.

(** An environment in which nothing fails: ids count the messages, every
    payload is valid JSON, a group address starts with [@] and resolves to
    every active session but the sender, and a sleep only moves the clock. *)
Definition exEnv : Env :=
  mkEnv true true
    (fun m => "msg-" +:+ pretty (length m))
    (fun _ => true)
    (fun _ => Js.NaN)
    None
    (fun to => String.prefix "@" to)
    (fun _ active from =>
       List.filter (fun n => negb (String.eqb n from)) (map agentName active))
    (fun w ms => mkWorld (sessions w) (mail w) (pendingNudges w)
                   (mailCheckState w) (files w) (events w) (now w + ms)).

Definition exSession (name cap : string) (st : AgentState) : AgentSession :=
  mkSession ("session-" +:+ name) name cap "/wt" "branch" EmptyString
    ("tmux-" +:+ name) st None None 0 (Some "run-1") 0 0 0 None.

Definition exWorld (rows : list AgentSession)
  (nudges : gmap string (option PendingNudge)) (now : Z) : World :=
  mkWorld rows [] nudges ∅ ∅ [] now.

Definition exNudge : PendingNudge :=
  mkNudge "builder-1" "worker_done" "done" "msg-0" 0.

End MailExamples.

(** ** Vocabulary of the mail properties *)

Module MailSpec.
Import Mail.

(** The sender of a send or reply: [--agent], else [--from], else
    "orchestrator". *)
Definition sender (args : list string) : string :=
  default "orchestrator" (orElse (getFlag args "--agent") (getFlag args "--from")).

(** What the heartbeat makes of a live session's row. *)
Definition heartbeat (now : Z) (s : AgentSession) : AgentSession :=
  match state s with
  | Booting | Stalled => withState Working (withLastActivity now s)
  | _ => withLastActivity now s
  end.

(** The row of an agent after a heartbeat: untouched when zombie or completed. *)
Definition afterTouch (now : Z) (s : AgentSession) : AgentSession :=
  match state s with
  | Zombie | Completed => s
  | _ => heartbeat now s
  end.

(** A mail check goes past its debounce gate: no [--debounce] flag, or a
    valid one outside the window. *)
Definition checkProceeds (args : list string) (agent : string) (w : World) : bool :=
  match getFlag args "--debounce" with
  | None => true
  | Some flag =>
      match parseInt flag with
      | Some ms => negb (ms <? 0) && negb (isMailCheckDebounced agent ms w)
      | None => false
      end
  end.

(** The marker a send from [from] writes for message [id]. *)
Definition markerFor (from subject id : string) (priority : Priority)
  (type : MailMessageType) (now : Z) : option PendingNudge :=
  Some (mkNudge from (nudgeReason priority type) subject id now).

End MailSpec.

(** * The rest of the watchdog and of the commands *)

(** ** The closed-bead lookup (src/watchdog/daemon.ts, getClosedBeadIds) *)

Module Beads.

(** One element of the array that [bd list --json] prints: its [id] and
    [status], where it has them. *)
Record Item := mkItem {
  itemId : option string;
  itemStatus : option string
}.

(** What the lookup finds outside: whether the [.beads] directory exists,
    and what [bd list --all --id <ids> --json] gives for the [--id]
    argument: [None] when spawning the command or reading its output throws,
    else the exit code and the parsed output ([None] when the output does not
    parse as an array of objects). *)
Record Env := mkEnv {
  beadsDirExists : bool;
  bdList : string -> option (Z * option (list Item))
}.

(** What the lookup does: the [--id] argument of the command it ran, if it
    ran one, and the set of closed beads it returns. *)
Record Lookup := mkLookup {
  spawned : option string;
  closed : list string
}.

(** [id.trim().length > 0] *)
Definition nonBlank (id : string) : bool :=
  (0 <? String.length (Js.trim id))%nat.

(** [item.id && item.status === "closed"] *)
Definition isClosed (item : Item) : bool :=
  match itemId item, itemStatus item with
  | Some i, Some st => Js.truthy i && String.eqb st "closed"
  | _, _ => false
  end.

(** The ids added to the set, in the order of the output. *)
Definition closedOf (parsed : list Item) : list string :=
  Js.uniq (omap (fun item => if isClosed item then itemId item else None) parsed).

(** Query beads for closed issue IDs in one batch.  Fail-open: on any
    command/parse error, returns an empty set. *)
Definition getClosedBeadIds (env : Env) (beadIds : list string) : Lookup :=
  let unique := Js.uniq (List.filter nonBlank beadIds) in
  if (length unique =? 0)%nat then mkLookup None []
  else if negb (beadsDirExists env) then mkLookup None []
  else
    let arg := Js.join "," unique in
    match bdList env arg with
    | None => mkLookup (Some arg) []
    | Some (exitCode, stdout) =>
        if negb (exitCode =? 0) then mkLookup (Some arg) []
        else match stdout with
             | None => mkLookup (Some arg) []
             | Some parsed => mkLookup (Some arg) (closedOf parsed)
             end
    end.

End Beads.

(** ** overstory mail purge (the request of handlePurge) *)

Module MailPurge.
Import Mail.

(** The argument of [store.purge]. *)
Record PurgeOptions := mkPurge {
  purgeAll : bool;
  olderThanMs : option Js.number;
  purgeAgent : option string
}.

(** [days * 24 * 60 * 60 * 1000] for the double that [Number.parseInt]
    returns, the one nearest to the integer it reads: four products of
    doubles. *)
Definition daysToMs (days : Z) : Js.number :=
  Js.mul (Js.mul (Js.mul (Js.mul (Js.ofZ days) (Js.ofZ 24)) (Js.ofZ 60)) (Js.ofZ 60))
    (Js.ofZ 1000).

(** The first half of [handlePurge]: the flags, their validation, and the
    request it passes to the mail store.  The test [days <= 0] is made on
    the integer read: the double nearest to it has its sign. *)
Definition purgeRequest (args : list string) : Outcome PurgeOptions :=
  let all := hasFlag args "--all" in
  let daysStr := getFlag args "--days" in
  let agent := getFlag args "--agent" in
  if negb all && negb (bool_decide (is_Some daysStr)) && negb (bool_decide (is_Some agent))
  then ValidationError "purge"
  else
    match daysStr with
    | None => Returned (mkPurge all None agent)
    | Some s =>
        match parseInt s with
        | None => ValidationError "days"
        | Some days =>
            if days <=? 0 then ValidationError "days"
            else Returned (mkPurge all (Some (daysToMs days)) agent)
        end
    end.

End MailPurge.

(** ** The stop command (src/commands/stop.ts, overstory stop) *)

Module Stop.

(** What the command does outside the session store, in the order it does it. *)
Inductive Effect :=
| Probe (tmux : string)                                   (* tmux.isSessionAlive *)
| Kill (tmux : string)                                    (* tmux.killSession *)
| RemoveWorktree (root path : string) (force forceBranch : bool).

Record World := mkWorld {
  sessions : SessionStore.t;          (* sessions.db *)
  trace : list Effect;
  now : Z                             (* the clock of updateLastActivity *)
}.

(** The calls of the session store that the command makes. *)
Inductive StoreCall :=
| OpenStore                           (* openSessionStore *)
| GetByName
| UpdateState
| UpdateLastActivity
| CloseStore.

(** What the command reads from outside: the project root of the loaded
    config ([None] when [loadConfig] throws), which calls of the session
    store throw, and the injected collaborators with their answers ([None]
    and [false] where the call throws). *)
Record Env := mkEnv {
  loadConfig : option string;
  storeThrows : StoreCall -> bool;
  isSessionAlive : string -> option bool;
  killSession : string -> bool;
  removeWorktree : string -> string -> bool
}.

Inductive Error :=
| ValidationError (field : string)    (* Missing required argument *)
| ConfigError                         (* loadConfig threw *)
| AgentNotFound
| AgentAlreadyCompleted
| AgentAlreadyZombie
| TmuxError                           (* the probe or the kill threw *)
| StoreError.                         (* a call of the session store threw *)

(** What the command reports (the fields of its JSON output; the text
    output prints the same facts). *)
Record Report := mkReport {
  reportAgentName : string;
  reportSessionId : string;
  reportCapability : string;
  tmuxKilled : bool;
  worktreeRemoved : bool;
  reportForce : bool
}.

Inductive Outcome :=
| Help
| Stopped (r : Report)
| Failed (e : Error).

Definition emit (e : Effect) (w : World) : World :=
  mkWorld (sessions w) (trace w ++ [e]) (now w).

Definition setSessions (rows : SessionStore.t) (w : World) : World :=
  mkWorld rows (trace w) (now w).

(** [try { ... } finally { store.close() }]: the store is closed however
    the body ends, and an error of the closing is the error of the command. *)
Definition finallyClose (env : Env) (body : World * Outcome) : World * Outcome :=
  if storeThrows env CloseStore then (fst body, Failed StoreError) else body.

(** Entry point for [overstory stop <agent-name>]. *)
Definition stopCommand (env : Env) (args : list string) (w : World)
  : World * Outcome :=
  if Js.includes args "--help" || Js.includes args "-h" then (w, Help)
  else
    let force := Js.includes args "--force" in
    let cleanWorktree := Js.includes args "--clean-worktree" in
    (* First non-flag arg is the agent name *)
    match List.find (fun a => negb (Mail.startsWithDash a)) args with
    | None | Some EmptyString => (w, Failed (ValidationError "agentName"))
    | Some agentName =>
        match loadConfig env with
        | None => (w, Failed ConfigError)
        | Some projectRoot =>
            if storeThrows env OpenStore then (w, Failed StoreError)
            else finallyClose env
            (if storeThrows env GetByName then (w, Failed StoreError)
             else
             match SessionStore.getByName (sessions w) agentName with
             | None => (w, Failed AgentNotFound)
             | Some session =>
                match state session with
                | Completed => (w, Failed AgentAlreadyCompleted)
                | Zombie => (w, Failed AgentAlreadyZombie)
                | _ =>
                    (* Kill tmux session if alive *)
                    let w := emit (Probe (tmuxSession session)) w in
                    match isSessionAlive env (tmuxSession session) with
                    | None => (w, Failed TmuxError)
                    | Some alive =>
                        let w := if alive then emit (Kill (tmuxSession session)) w
                                 else w in
                        if alive && negb (killSession env (tmuxSession session))
                        then (w, Failed TmuxError)
                        else
                          (* Mark session as completed *)
                          if storeThrows env UpdateState then (w, Failed StoreError)
                          else
                          let w :=
                            setSessions
                              (SessionStore.updateState agentName Completed
                                 (sessions w)) w in
                          if storeThrows env UpdateLastActivity
                          then (w, Failed StoreError)
                          else
                          let w :=
                            setSessions
                              (SessionStore.updateLastActivity agentName (now w)
                                 (sessions w)) w in
                          (* Optionally remove worktree (best-effort, non-fatal) *)
                          let remove :=
                            cleanWorktree && Js.truthy (worktreePath session) in
                          let w :=
                            if remove
                            then emit (RemoveWorktree projectRoot
                                         (worktreePath session) force force) w
                            else w in
                          let removed :=
                            remove &&
                            removeWorktree env projectRoot (worktreePath session) in
                          (w, Stopped (mkReport agentName (sessionId session)
                                         (capability session) alive removed force))
                    end
                end
             end)
        end
    end.

End Stop.

(** ** The coordinator command (overstory coordinator start|stop|status) *)

Module Coordinator.

(** Default coordinator agent name. *)
Definition COORDINATOR_NAME : string := "coordinator".







(** The part of the loaded config that the command reads. *)
Record Config := mkConfig {
  projectRoot : string;
  projectName : string;
  canonicalBranch : string;
  mulchEnabled : bool;
  mulchDomains : list string
}.

(** What the command does outside the session store, in the order it does it. *)
Inductive Effect :=
| Probe (tmux : string)                          (* tmux.isSessionAlive *)
| Kill (tmux : string)                           (* tmux.killSession *)
| DeployHooks (root agent capability : string)
| CreateIdentity (name : string) (expertiseDomains : list string)
| CreateSession (tmux cwd command : string)      (* tmux.createSession *)
| SendKeys (tmux keys : string)                  (* tmux.sendKeys *)
| Attach (tmux : string).                        (* tmux attach-session *)

Record World := mkWorld {
  sessions : SessionStore.t;          (* sessions.db *)
  trace : list Effect;
  now : Z                             (* the clock *)
}.

(** The calls of the session store that the stop and the status make. *)
Inductive StoreCall :=
| OpenStore                           (* openSessionStore *)
| GetByName
| UpdateState
| UpdateLastActivity
| CloseStore.

(** What the command reads from outside: the loaded config ([None] when
    [loadConfig] throws), which calls of the session store throw in
    [stopCoordinator] and [statusCoordinator], and the collaborators with
    their answers ([None] and [false] where the call throws). *)
Record Env := mkEnv {
  loadConfig : option Config;
  storeThrows : StoreCall -> bool;
  isSessionAlive : string -> option bool;
  killSession : string -> bool;
  deployHooks : bool;
  loadIdentity : option bool;         (* is there an identity already? *)
  createIdentity : bool;
  agentDef : option (option string);  (* agent-defs/coordinator.md, if it exists *)
  createSession : string -> string -> option Z;      (* the pid *)
  sendKeys : string -> string -> bool;
  isTTY : bool;
  toISOString : Z -> string
}.

Inductive Error :=
| ConfigError
| AlreadyRunning                    (* Coordinator is already running *)
| NoActiveCoordinator               (* No active coordinator session found *)
| TmuxError                         (* a tmux call threw *)
| SetupError                        (* hooks, identity or agent definition threw *)
| StoreError.                       (* a call of the session store threw *)

(** The status the command reports. *)
Record Status := mkStatus {
  running : bool;
  statusSessionId : string;
  statusState : AgentState;
  statusTmuxSession : string;
  statusPid : option Z;
  statusStartedAt : Z;
  statusLastActivity : Z
}.

Inductive Outcome :=
| Started (tmux root : string) (pid : Z)
| Stopped (sessionId : string)
| NotRunning
| Reported (s : Status)
| Failed (e : Error).

Definition emit (e : Effect) (w : World) : World :=
  mkWorld (sessions w) (trace w ++ [e]) (now w).

Definition setSessions (rows : SessionStore.t) (w : World) : World :=
  mkWorld rows (trace w) (now w).

(** [Bun.sleep(ms)] *)
Definition sleep (ms : Z) (w : World) : World :=
  mkWorld (sessions w) (trace w) (now w + ms).


(** The session of the coordinator, when it is active: recorded under the
    coordinator's name with the coordinator capability and neither
    completed nor zombie. *)
Definition activeCoordinator (w : World) : option AgentSession :=
  match SessionStore.getByName (sessions w) COORDINATOR_NAME with
  | None => None
  | Some session =>
      if negb (String.eqb (capability session) "coordinator") then None
      else match state session with
           | Completed | Zombie => None
           | _ => Some session
           end
  end.




(** [try { ... } finally { store.close() }]: the store is closed however
    the body ends, and an error of the closing is the error of the command. *)
Definition finallyClose (env : Env) (body : World * Outcome) : World * Outcome :=
  if storeThrows env CloseStore then (fst body, Failed StoreError) else body.

(** Stop the coordinator agent. *)
Definition stopCoordinator (env : Env) (w : World) : World * Outcome :=
  match loadConfig env with
  | None => (w, Failed ConfigError)
  | Some config =>
      if storeThrows env OpenStore then (w, Failed StoreError)
      else finallyClose env
      (if storeThrows env GetByName then (w, Failed StoreError)
       else
       match activeCoordinator w with
       | None => (w, Failed NoActiveCoordinator)
       | Some session =>
          (* Kill tmux session with process tree cleanup *)
          let w := emit (Probe (tmuxSession session)) w in
          match isSessionAlive env (tmuxSession session) with
          | None => (w, Failed TmuxError)
          | Some alive =>
              let w := if alive then emit (Kill (tmuxSession session)) w else w in
              if alive && negb (killSession env (tmuxSession session))
              then (w, Failed TmuxError)
              else
                (* Update session state *)
                if storeThrows env UpdateState then (w, Failed StoreError)
                else
                let w :=
                  setSessions
                    (SessionStore.updateState COORDINATOR_NAME Completed
                       (sessions w)) w in
                if storeThrows env UpdateLastActivity then (w, Failed StoreError)
                else
                (setSessions
                   (SessionStore.updateLastActivity COORDINATOR_NAME (now w)
                      (sessions w)) w,
                 Stopped (sessionId session))
          end
       end)
  end.

(** Show coordinator status. *)
Definition statusCoordinator (env : Env) (w : World) : World * Outcome :=
  match loadConfig env with
  | None => (w, Failed ConfigError)
  | Some config =>
      if storeThrows env OpenStore then (w, Failed StoreError)
      else finallyClose env
      (if storeThrows env GetByName then (w, Failed StoreError)
       else
       match activeCoordinator w with
       | None => (w, NotRunning)
       | Some session =>
          let w := emit (Probe (tmuxSession session)) w in
          match isSessionAlive env (tmuxSession session) with
          | None => (w, Failed TmuxError)
          | Some alive =>
              let report st :=
                Reported (mkStatus alive (sessionId session) st
                            (tmuxSession session) (pid session)
                            (startedAt session) (lastActivity session)) in
              (* Reconcile state: if session says active but tmux is dead, update. *)
              if alive then (w, report (state session))
              else
                if storeThrows env UpdateState then (w, Failed StoreError)
                else
                let w :=
                  setSessions
                    (SessionStore.updateState COORDINATOR_NAME Zombie
                       (sessions w)) w in
                if storeThrows env UpdateLastActivity then (w, Failed StoreError)
                else
                (setSessions
                   (SessionStore.updateLastActivity COORDINATOR_NAME (now w)
                      (sessions w)) w,
                 report Zombie)
          end
       end)
  end.

End Coordinator.

(** ** Vocabulary of the further properties *)

Module WatchdogTerms.
Import Watchdog WatchdogSpec.

(** [m] returns: it never throws. *)
Definition returns {A} (m : M A) : Prop :=
  forall w, snd (m w) <> None.

(** [r'] is [r] but for its state, escalation level and stalledSince. *)
Definition sameIdentity (r r' : AgentSession) : Prop :=
  sessionId r' = sessionId r /\ agentName r' = agentName r /\
  capability r' = capability r /\ worktreePath r' = worktreePath r /\
  branchName r' = branchName r /\ beadId r' = beadId r /\
  tmuxSession r' = tmuxSession r /\ pid r' = pid r /\
  parentAgent r' = parentAgent r /\ depth r' = depth r /\
  runId r' = runId r /\ startedAt r' = startedAt r /\
  lastActivity r' = lastActivity r.

(** [m] writes the state and the escalation fields of rows only, whether it
    returns or throws, and adds or removes no row. *)
Definition statusOnly {A} (m : M A) : Prop :=
  forall w, exists f, (forall r, sameIdentity r (f r)) /\
                      store (fst (m w)) = map f (store w).

(** The closing words of the completion message for a batch of one
    capability; [None] for a capability without a message of its own. *)
Definition phaseTail (c : string) : option string :=
  if String.eqb c "scout" then Some "Ready for next phase."
  else if String.eqb c "builder" then Some "Ready for merge/cleanup."
  else if String.eqb c "reviewer" then Some "Reviews done."
  else if String.eqb c "lead" then Some "Ready for merge/cleanup."
  else if String.eqb c "merger" then Some "Merges done."
  else None.

(** What the health callback adds to the trace. *)
Definition callback (env : Env) (check : HealthCheck) : list Effect :=
  if onHealthCheck env then [HealthCallback check] else [].

(** The row of a session that the tick found terminated. *)
Definition terminated (r : AgentSession) : AgentSession :=
  withEscalation 0 None (withState Zombie r).

(** The store after a sequence of writes. *)
Definition applyOps (ops : list StoreOp) (rows : SessionStore.t) : SessionStore.t :=
  fold_left (fun rows op => applyOp op rows) ops rows.

(** The health check of a session in a tick, and the state it moves to. *)
Definition checkOf (env : Env) (s : AgentSession) (alive : bool) : HealthCheck :=
  evaluateHealth env s alive (staleThresholdMs env, zombieThresholdMs env).

Definition newStateOf (env : Env) (s : AgentSession) (alive : bool) : AgentState :=
  transitionState env (state s) (checkOf env s alive).

(** The write of the state transition: none when the state stays. *)
Definition transitionWrite (env : Env) (s : AgentSession) (alive : bool)
  : list StoreOp :=
  if AgentState_eqb (newStateOf env s alive) (state s) then []
  else [OpUpdateState (agentName s) (newStateOf env s alive)].

(** The number of unread messages the mail store reports for an agent: 0
    when there is no mail store or when it throws. *)
Definition unreadCount (env : Env) (agent : string) : nat :=
  match mailStore env with
  | Some getUnread => default 0%nat (getUnread agent)
  | None => 0%nat
  end.

(** [bd] reported the bead [b] closed, for the [--id] argument [arg]. *)
Definition reportedClosed (benv : Beads.Env) (arg b : string) : Prop :=
  exists parsed item,
    Beads.bdList benv arg = Some (0, Some parsed) /\ In item parsed /\
    Beads.itemId item = Some b /\ Beads.itemStatus item = Some "closed".

Definition isKill (e : Effect) : bool :=
  match e with Kill _ => true | _ => false end.

(** An environment as [exEnv], with [unread] unread messages for every agent
    and a marker file that can be written or not. *)
Definition exEnvMail (now : Z) (unread : nat) (writable : bool) : Env :=
  mkEnv 300000 1200000 60000 false true (fun _ => Some true)
    (fun _ _ => None) (fun _ _ => Some true)
    (Some (fun _ => Some unread)) (Some (fun _ => true)) (fun _ => Some [])
    (Some "run-1") true writable (fun _ => false)
    (specEvaluateHealth now) specTransitionState (fun _ => now) (fun _ => now).

End WatchdogTerms.

Module MailTerms.
Import Mail MailSpec MailExamples.

(** The message a send persists. *)
Definition sentMessage (from subject body : string) (type : MailMessageType)
  (priority : Priority) (payload : option string) (now : Z) (to id : string)
  : MailMessage :=
  mkMessage id from to subject body priority type None payload false now.

(** The options of a wait are valid. *)
Definition validOptions (o : MailWaitOptions) : Prop :=
  0 <= timeoutMs o /\ 0 < initialPollMs o /\ initialPollMs o <= maxPollMs o /\
  Js.isNaN (backoff o) = false /\ Js.ltb (backoff o) (Js.ofZ 1) = false.

(** [Bun.sleep(ms)] returns after [ms] milliseconds at the earliest. *)
Definition sleepAdvances (env : Env) : Prop :=
  forall w ms, now w + ms <= now (sleep env w ms).

(** An environment as [exEnv] in which a nudge for [agent] arrives during
    every sleep. *)
Definition exEnvWaking (agent : string) : Env :=
  mkEnv true true (freshId exEnv) (validJson exEnv) (parseFloat exEnv) None
    (isGroupAddress exEnv) (resolveGroupAddress exEnv)
    (fun w ms => mkWorld (sessions w) (mail w)
                   (<[agent := Some exNudge]> (pendingNudges w))
                   (mailCheckState w) (files w) (events w) (now w + ms)).

End MailTerms.

Module StopTerms.

(** The row of a session after a stop at time [now]. *)
Definition stoppedRow (now : Z) (r : AgentSession) : AgentSession :=
  withLastActivity now (withState Completed r).

(** The agent a stop command names: its first argument that does not start
    with a dash. *)
Definition agentArg (args : list string) : option string :=
  List.find (fun a => negb (Mail.startsWithDash a)) args.

Definition exSession (name : string) (st : AgentState) (lvl : Z)
  (since : option Z) : AgentSession :=
  mkSession ("session-" +:+ name) name "builder" "/wt/a" "branch" EmptyString
    ("tmux-" +:+ name) st None None 1 (Some "run-1") 0 0 lvl since.

(** An environment in which nothing fails; the terminals are alive or not. *)
Definition exEnv (alive : bool) : Stop.Env :=
  Stop.mkEnv (Some "/repo") (fun _ => false) (fun _ => Some alive) (fun _ => true)
    (fun _ _ => true).

(** As [exEnv], with a session store that throws at [call]. *)
Definition exEnvStoreThrows (call : Stop.StoreCall) : Stop.Env :=
  Stop.mkEnv (Some "/repo")
    (fun c => match c, call with
              | Stop.OpenStore, Stop.OpenStore
              | Stop.GetByName, Stop.GetByName
              | Stop.UpdateState, Stop.UpdateState
              | Stop.UpdateLastActivity, Stop.UpdateLastActivity
              | Stop.CloseStore, Stop.CloseStore => true
              | _, _ => false
              end)
    (fun _ => Some true) (fun _ => true) (fun _ _ => true).

End StopTerms.

Module CoordinatorTerms.
Import Coordinator.

(** The row of the coordinator after [statusCoordinator] found its terminal
    dead at time [now]. *)
Definition zombieRow (now : Z) (r : AgentSession) : AgentSession :=
  withLastActivity now (withState Zombie r).



Definition exConfig : Config := mkConfig "/repo" "demo" "main" true ["typescript"].

(** An environment in which nothing fails; the terminals are alive or not. *)
Definition exEnv (alive : bool) : Env :=
  mkEnv (Some exConfig) (fun _ => false) (fun _ => Some alive) (fun _ => true) true
    (Some false) true (Some None) (fun _ _ => Some 4242) (fun _ _ => true) false
    (fun t => "T" +:+ pretty t).

(** As [exEnv false], with a session store that throws at the write of the
    last activity. *)
Definition exEnvActivityThrows : Env :=
  mkEnv (Some exConfig)
    (fun c => match c with UpdateLastActivity => true | _ => false end)
    (fun _ => Some false) (fun _ => true) true
    (Some false) true (Some None) (fun _ _ => Some 4242) (fun _ _ => true) false
    (fun t => "T" +:+ pretty t).

Definition exCoordinator (st : AgentState) : AgentSession :=
  mkSession "session-1-coordinator" "coordinator" "coordinator" "/repo" "main"
    EmptyString "overstory-demo-coordinator" st (Some 7) None 0 None 1 1 0 None.

End CoordinatorTerms.

(** * Properties of the watchdog *)

Module WatchdogFacts.
Import Watchdog WatchdogSpec WatchdogExamples.
Local Open Scope daemon_scope.

Lemma AgentState_eqb_eq a b : AgentState_eqb a b = true <-> a = b.
Proof. destruct a, b; simpl; split; congruence. Qed.

(** ** Rules for running the monad *)

Lemma wp_ret {A} (a : A) w Q : Q w (Some a) -> wp (ret a) w Q.
Proof. intros H. exact H. Qed.

Lemma wp_throw {A} w (Q : World -> option A -> Prop) : Q w None -> wp throw w Q.
Proof. intros H. exact H. Qed.

Lemma wp_bind {A B} (m : M A) (k : A -> M B) w Q :
  wp m w (fun w1 r => match r with
                      | Some a => wp (k a) w1 Q
                      | None => Q w1 None
                      end) ->
  wp (bind m k) w Q.
Proof. unfold wp, bind. destruct (m w) as [w1 [a|]]; simpl; auto. Qed.

Lemma wp_emit e w Q :
  Q (mkWorld (store w) (marker w) (trace w ++ [e])) (Some tt) -> wp (emit e) w Q.
Proof. intros H. exact H. Qed.

Lemma wp_storeWrite env op w Q :
  (storeThrows env op = true -> Q w None) ->
  (storeThrows env op = false ->
   Q (mkWorld (applyOp op (store w)) (marker w) (trace w)) (Some tt)) ->
  wp (storeWrite env op) w Q.
Proof. unfold wp, storeWrite. destruct (storeThrows env op); simpl; auto. Qed.

Lemma wp_recordEvent env e w Q :
  Q (mkWorld (store w) (marker w) (trace w ++ recorded env e)) (Some tt) ->
  wp (recordEvent env e) w Q.
Proof.
  unfold wp, recordEvent, recorded.
  destruct (eventStore env) as [acc|]; [destruct (acc e)|]; simpl;
    rewrite ?app_nil_r; destruct w; auto.
Qed.

Lemma wp_tryCatch (m : M unit) w Q :
  wp m w (fun w1 _ => Q w1 (Some tt)) -> wp (tryCatch m) w Q.
Proof. intros H. exact H. Qed.

Lemma wp_run {A} (m : M A) w Q w' r : wp m w Q -> m w = (w', r) -> Q w' r.
Proof. unfold wp. intros H E. rewrite E in H. exact H. Qed.

(** ** Operations that leave the store alone *)

Lemma neutral_ret {A} (a : A) : neutral (ret a).
Proof. intros w. split; reflexivity. Qed.

Lemma neutral_throw {A} : neutral (@throw A).
Proof. intros w. split; reflexivity. Qed.

Lemma neutral_emit e : neutral (emit e).
Proof. intros w. split; reflexivity. Qed.

Lemma neutral_bind {A B} (m : M A) (k : A -> M B) :
  neutral m -> (forall a, neutral (k a)) -> neutral (bind m k).
Proof.
  intros Hm Hk w. unfold bind. specialize (Hm w).
  destruct (m w) as [w1 [a|]]; simpl in *; [|exact Hm].
  destruct (Hk a w1) as [H1 H2]. destruct Hm as [H3 H4].
  split; congruence.
Qed.

Lemma neutral_tryCatch (m : M unit) : neutral m -> neutral (tryCatch m).
Proof. intros Hm w. exact (Hm w). Qed.

Lemma neutral_recordEvent env e : neutral (recordEvent env e).
Proof.
  unfold recordEvent. destruct (eventStore env) as [acc|];
    [destruct (acc e)|]; auto using neutral_emit, neutral_ret.
Qed.

Ltac neutral_step :=
  lazymatch goal with
  | |- neutral (ret _) => apply neutral_ret
  | |- neutral throw => apply neutral_throw
  | |- neutral (emit _) => apply neutral_emit
  | |- neutral (recordEvent _ _) => apply neutral_recordEvent
  | |- neutral (tryCatch _) => apply neutral_tryCatch
  | |- neutral (bind _ _) => apply neutral_bind; [|intros ?]
  | |- neutral (if ?c then _ else _) => destruct c
  | |- neutral (match ?x with _ => _ end) => destruct x
  | |- neutral (recordFailure _ _ _ _) => unfold recordFailure
  | |- neutral (killIfAlive _ _) => unfold killIfAlive
  | |- neutral (probeSession _ _) => unfold probeSession
  | |- neutral (callNudge _ _ _ _) => unfold callNudge
  | |- neutral (callTriage _ _ _) => unfold callTriage
  | |- neutral (firstStallNudge _ _ _) => unfold firstStallNudge
  | |- neutral (executeEscalationAction _ _ _ _) => unfold executeEscalationAction
  end.

Lemma wp_neutral {A} (m : M A) w (Q : World -> option A -> Prop) :
  neutral m ->
  (forall w' r, store w' = store w -> marker w' = marker w -> Q w' r) ->
  wp m w Q.
Proof. intros Hm HQ. destruct (Hm w). apply HQ; assumption. Qed.

(** One step of the tick's code: a store write splits into the throwing and
    the returning case, a store-neutral block is skipped as a whole, a
    branch is taken both ways. *)
Ltac wp_step :=
  lazymatch goal with
  | |- wp (ret _) _ _ => apply wp_ret
  | |- wp throw _ _ => apply wp_throw
  | |- wp (bind _ _) _ _ => apply wp_bind
  | |- wp (storeWrite _ _) _ _ => apply wp_storeWrite; intros ?
  | |- wp (Watchdog.updateState _ _ _) _ _ => unfold Watchdog.updateState
  | |- wp (Watchdog.updateEscalation _ _ _ _) _ _ => unfold Watchdog.updateEscalation
  | |- wp (trackStall _ _ _) _ _ => unfold trackStall
  | |- wp (escalate _ _ _ _) _ _ => unfold escalate
  | |- wp (processSession _ _ _ _) _ _ => unfold processSession
  | |- wp ?m _ _ =>
      first [ apply wp_neutral; [solve [repeat neutral_step]|];
              let w1 := fresh "w" in let r := fresh "r" in
              intros w1 r ? ?; destruct r
            | lazymatch m with
              | (if ?c then _ else _) => destruct c eqn:?
              | (match ?x with _ => _ end) => destruct x eqn:?
              end ]
  end; cbv beta iota zeta; cbn [store marker trace fst snd] in *.

(** ** The session store *)

Lemma agentName_withState st r : agentName (withState st r) = agentName r.
Proof. reflexivity. Qed.

Lemma agentName_withEscalation l t r :
  agentName (withEscalation l t r) = agentName r.
Proof. reflexivity. Qed.

Lemma updateRows_fields n s rows :
  Forall (fun r => agentName r = n ->
                   state r = state s /\ escalationLevel r = escalationLevel s /\
                   stalledSince r = stalledSince s)
    (SessionStore.updateRows n (sync s) rows).
Proof.
  unfold SessionStore.updateRows. apply List.Forall_forall. intros r Hin.
  apply in_map_iff in Hin. destruct Hin as (r0 & <- & _).
  destruct (String.eqb (agentName r0) n) eqn:E.
  - intros _. repeat split.
  - intros Hn. apply String.eqb_neq in E. contradiction.
Qed.

Ltac store_chain :=
  repeat match goal with
         | H : store ?a = _ |- context [store ?a] => rewrite H
         end.

(** The store after an iteration is the store before with the rows of the
    session's name synchronised to the session object. *)
Ltac sync_leaf Hag :=
  unfold applyOp, SessionStore.updateState, SessionStore.updateEscalation,
    SessionStore.updateRows;
  rewrite ?map_map;
  lazymatch goal with
  | |- store ?w = _ => rewrite <- (map_id (store w)) at 1
  | _ => idtac
  end;
  apply map_ext_Forall;
  eapply Forall_impl; [ exact Hag | ];
  let r := fresh "r" in let Hr := fresh "Hr" in let E := fresh "E" in
  intros r Hr; cbv beta;
  destruct (String.eqb (agentName r) (agentName _)) eqn:E;
  repeat (rewrite ?agentName_withState, ?agentName_withEscalation, ?E; cbv iota);
  [ apply String.eqb_eq in E; destruct (Hr E) as (? & ? & ?);
    unfold sync; destruct r; cbn in *; subst; reflexivity
  | reflexivity ].

Ltac eqb_facts :=
  repeat match goal with
         | H : AgentState_eqb _ _ = true |- _ => apply AgentState_eqb_eq in H
         | H : AgentState_eqb ?a ?b = false |- _ =>
             assert (a <> b)
               by (let Hc := fresh in
                   intros Hc; apply AgentState_eqb_eq in Hc; congruence);
             clear H
         end.

(** The session object after an iteration keeps the terminal invariant. *)
Ltac reset_leaf Hh Hinv :=
  unfold resetWhenTerminal in *;
  cbn [state escalationLevel stalledSince withEscalation withState];
  let Ht := fresh "Ht" in
  intros Ht;
  eqb_facts;
  try match goal with
      | Hne : state ?s <> Completed,
        Ha : hcAction (evaluateHealth _ ?s ?b _) = _ |- _ =>
          let Hb := fresh "Hb" in
          pose proof (Hh s b Hne) as Hb; cbv zeta in Hb; rewrite Ha in Hb
      end;
  first [ split; reflexivity | exact (Hinv Ht) | congruence ].

Lemma processSession_post env run closed s w :
  agree s (store w) ->
  wp (processSession env run closed s) w (iterPost env s (store w)).
Proof.
  intros Hag.
  repeat wp_step.
  all: try exact I.
  all: unfold iterPost; cbn [store]; store_chain; cbn [store].
  all: split; [reflexivity|split; [sync_leaf Hag|]].
  all: intros Hh Hinv; reset_leaf Hh Hinv.
Qed.

(** ** Framing: an iteration works on its own session only *)

Lemma framed_ret N {A} (a : A) : framed N (ret a).
Proof.
  intros w. split; [reflexivity|]. split.
  - exists []. split; [symmetry; apply app_nil_r|constructor].
  - exists (fun r => r). repeat split. symmetry. apply map_id.
Qed.

Lemma framed_throw N {A} : framed N (@throw A).
Proof. exact (framed_ret N tt). Qed.

Lemma framed_emit N e : sessionEffect e -> framed N (emit e).
Proof.
  intros He w. split; [reflexivity|]. split.
  - exists [e]. split; [reflexivity|]. constructor; [exact He|constructor].
  - exists (fun r => r). repeat split. symmetry. apply map_id.
Qed.

Lemma framed_recordEvent N env e :
  isRunCompleteEvent (EventInsert e) = false -> framed N (recordEvent env e).
Proof.
  intros He. unfold recordEvent.
  destruct (eventStore env) as [acc|]; [destruct (acc e)|];
    auto using framed_ret.
  apply framed_emit. split; [reflexivity|exact He].
Qed.

Lemma framed_storeWrite (N : string -> Prop) env op :
  N (opName op) -> framed N (storeWrite env op).
Proof.
  intros HN w. unfold storeWrite.
  destruct (storeThrows env op); [apply (framed_ret N tt)|].
  cbn [fst store marker trace]. split; [reflexivity|]. split.
  - exists []. split; [symmetry; apply app_nil_r|constructor].
  - destruct op as [n st|n lvl since]; cbn [applyOp opName] in *;
      unfold SessionStore.updateState, SessionStore.updateEscalation,
        SessionStore.updateRows;
      eexists; (split; [|split; [|reflexivity]]); intros r; cbv beta;
      destruct (String.eqb (agentName r) n) eqn:E; try reflexivity;
      apply String.eqb_eq in E; intros Hn; congruence.
Qed.

Lemma framed_bind N {A B} (m : M A) (k : A -> M B) :
  framed N m -> (forall a, framed N (k a)) -> framed N (bind m k).
Proof.
  intros Hm Hk w. unfold bind. specialize (Hm w).
  destruct (m w) as [w1 [a|]]; cbn [fst] in *; [|exact Hm].
  destruct Hm as (Hmk & (tr1 & Htr1 & Hf1) & (f1 & Hn1 & Ho1 & Hs1)).
  destruct (Hk a w1) as (Hmk2 & (tr2 & Htr2 & Hf2) & (f2 & Hn2 & Ho2 & Hs2)).
  split; [congruence|]. split.
  - exists (tr1 ++ tr2). split.
    + rewrite Htr2, Htr1. symmetry. apply app_assoc.
    + apply Forall_app. split; assumption.
  - exists (fun r => f2 (f1 r)). split; [|split].
    + intros r. rewrite Hn2. apply Hn1.
    + intros r Hr. rewrite (Ho1 r Hr). apply Ho2. exact Hr.
    + rewrite Hs2, Hs1. apply map_map.
Qed.

Lemma framed_tryCatch N (m : M unit) : framed N m -> framed N (tryCatch m).
Proof. intros Hm w. exact (Hm w). Qed.

Lemma framed_weaken (N N' : string -> Prop) {A} (m : M A) :
  (forall n, N n -> N' n) -> framed N m -> framed N' m.
Proof.
  intros HN Hm w. destruct (Hm w) as (H1 & H2 & (f & Hn & Ho & Hs)).
  split; [exact H1|]. split; [exact H2|].
  exists f. repeat split; auto.
Qed.

Ltac framed_step :=
  lazymatch goal with
  | |- framed _ (ret _) => apply framed_ret
  | |- framed _ throw => apply framed_throw
  | |- framed _ (emit _) => apply framed_emit; split; reflexivity
  | |- framed _ (recordEvent _ _) => apply framed_recordEvent; reflexivity
  | |- framed _ (storeWrite _ _) => apply framed_storeWrite; reflexivity
  | |- framed _ (tryCatch _) => apply framed_tryCatch
  | |- framed _ (bind _ _) => apply framed_bind; [|intros ?]
  | |- framed _ (if ?c then _ else _) => destruct c
  | |- framed _ (match ?x with _ => _ end) => destruct x
  | |- framed _ (Watchdog.updateState _ _ _) => unfold Watchdog.updateState
  | |- framed _ (Watchdog.updateEscalation _ _ _ _) => unfold Watchdog.updateEscalation
  | |- framed _ (recordFailure _ _ _ _) => unfold recordFailure
  | |- framed _ (killIfAlive _ _) => unfold killIfAlive
  | |- framed _ (probeSession _ _) => unfold probeSession
  | |- framed _ (callNudge _ _ _ _) => unfold callNudge
  | |- framed _ (callTriage _ _ _) => unfold callTriage
  | |- framed _ (firstStallNudge _ _ _) => unfold firstStallNudge
  | |- framed _ (executeEscalationAction _ _ _ _) => unfold executeEscalationAction
  | |- framed _ (trackStall _ _ _) => unfold trackStall
  | |- framed _ (escalate _ _ _ _) => unfold escalate
  | |- framed _ (processSession _ _ _ _) => unfold processSession
  end; cbv beta zeta; cbn [fst snd].

Lemma framed_bind_val N {A B} (P : A -> Prop) (m : M A) (k : A -> M B) :
  framed N m -> (forall w a, snd (m w) = Some a -> P a) ->
  (forall a, P a -> framed N (k a)) -> framed N (bind m k).
Proof.
  intros Hm HP Hk w. unfold bind. specialize (Hm w). specialize (HP w).
  destruct (m w) as [w1 [a|]]; cbn [fst snd] in *; [|exact Hm].
  destruct Hm as (Hmk & (tr1 & Htr1 & Hf1) & (f1 & Hn1 & Ho1 & Hs1)).
  destruct (Hk a (HP a eq_refl) w1)
    as (Hmk2 & (tr2 & Htr2 & Hf2) & (f2 & Hn2 & Ho2 & Hs2)).
  split; [congruence|]. split.
  - exists (tr1 ++ tr2). split.
    + rewrite Htr2, Htr1. symmetry. apply app_assoc.
    + apply Forall_app. split; assumption.
  - exists (fun r => f2 (f1 r)). split; [|split].
    + intros r. rewrite Hn2. apply Hn1.
    + intros r Hr. rewrite (Ho1 r Hr). apply Ho2. exact Hr.
    + rewrite Hs2, Hs1. apply map_map.
Qed.

Lemma processSession_framed env run closed s :
  framed (fun n => n = agentName s) (processSession env run closed s).
Proof.
  unfold processSession.
  destruct (AgentState_eqb (state s) Completed); [apply framed_ret|].
  destruct (Js.truthy (beadId s) && Js.includes closed (beadId s));
    [repeat framed_step|].
  apply framed_bind; [repeat framed_step|intros alive]. cbv zeta.
  eapply framed_bind_val with (P := fun a => agentName a = agentName s).
  - repeat framed_step.
  - intros w a.
    destruct (AgentState_eqb _ _); cbn.
    + intros [= <-]. reflexivity.
    + unfold Watchdog.updateState, storeWrite, bind.
      destruct (storeThrows env _); cbn; [discriminate|].
      intros [= <-]. reflexivity.
  - intros a Ha. rewrite <- Ha. repeat framed_step.
Qed.

Lemma tickBody_framed env ss s :
  framed (fun n => n = agentName s) (tickBody env ss s).
Proof.
  unfold tickBody. apply framed_bind;
    [apply processSession_framed|intros; apply framed_ret].
Qed.

Lemma forEach_framed env ss l :
  framed (fun n => In n (map agentName l)) (forEach (tickBody env ss) l).
Proof.
  induction l as [|x l IH]; cbn [forEach].
  - apply framed_ret.
  - apply framed_bind.
    + eapply framed_weaken; [|apply tickBody_framed].
      intros n ->. left. reflexivity.
    + intros _. eapply framed_weaken; [|exact IH].
      intros n Hn. right. exact Hn.
Qed.

(** ** The loop over the sessions *)

Lemma bind_inv {A B} (m : M A) (k : A -> M B) w w' b :
  bind m k w = (w', Some b) ->
  exists w1 a, m w = (w1, Some a) /\ k a w1 = (w', Some b).
Proof.
  unfold bind. destruct (m w) as [w1 [a|]]; [|discriminate].
  intros H. exists w1, a. split; [reflexivity|exact H].
Qed.

Lemma tickBody_inv env ss s w w' :
  tickBody env ss s w = (w', Some tt) ->
  exists s', processSession env (readCurrentRunId env) (closedBeadIds env ss) s w
             = (w', Some s').
Proof.
  unfold tickBody. intros H. apply bind_inv in H.
  destruct H as (w1 & s' & Hp & Hr). injection Hr as <-. exists s'. exact Hp.
Qed.

Lemma NoDup_name_inj rows r s :
  NoDup (map agentName rows) -> In r rows -> In s rows ->
  agentName r = agentName s -> r = s.
Proof.
  intros Hnd Hr Hs Hn.
  induction rows as [|x rows IH]; [contradiction|].
  cbn [map] in Hnd. apply NoDup_cons in Hnd. destruct Hnd as [Hx Hnd].
  assert (forall y, In y rows -> agentName y ∈ map agentName rows) as Hin.
  { intros y Hy. apply list_elem_of_In. apply in_map. exact Hy. }
  destruct Hr as [<-|Hr], Hs as [<-|Hs]; auto.
  - exfalso. apply Hx. rewrite Hn. auto.
  - exfalso. apply Hx. rewrite <- Hn. auto.
Qed.

Lemma NoDup_agree rows s :
  NoDup (map agentName rows) -> In s rows -> agree s rows.
Proof.
  intros Hnd Hs. apply List.Forall_forall. intros r Hr Hn.
  assert (r = s) as ->; [|repeat split].
  eapply NoDup_name_inj; eassumption.
Qed.

Lemma agree_frame (N : string -> Prop) f s rows :
  (forall r, agentName (f r) = agentName r) ->
  (forall r, ~ N (agentName r) -> f r = r) ->
  ~ N (agentName s) -> agree s rows -> agree s (map f rows).
Proof.
  intros Hn Ho Hs Hag. unfold agree in *. apply List.Forall_forall.
  intros r' Hr'. apply in_map_iff in Hr'. destruct Hr' as (r & <- & Hr).
  rewrite Hn. intros E. rewrite Ho by (rewrite E; exact Hs).
  rewrite List.Forall_forall in Hag. apply Hag; assumption.
Qed.

(** A tick that returns leaves in every row the fields of the session
    object that the row's own iteration ended with, and that iteration
    started from a store the object agreed with. *)
Lemma forEach_rows env ss l : forall w w',
  NoDup (map agentName l) ->
  Forall (fun s => agree s (store w)) l ->
  forEach (tickBody env ss) l w = (w', Some tt) ->
  forall r' s, In r' (store w') -> In s l -> agentName r' = agentName s ->
  exists w1 w2 s',
    agree s (store w1) /\
    processSession env (readCurrentRunId env) (closedBeadIds env ss) s w1
      = (w2, Some s') /\
    rowOf s' r'.
Proof.
  induction l as [|x l IH]; intros w w' Hnd Hag Hrun r' s Hr' Hs Hname;
    [contradiction|].
  cbn [forEach] in Hrun. apply bind_inv in Hrun.
  destruct Hrun as (w1 & [] & Hx & Hrest).
  cbn [map] in Hnd. apply NoDup_cons in Hnd. destruct Hnd as [Hxl Hnd].
  apply Forall_cons in Hag. destruct Hag as [Hagx Hagl].
  apply tickBody_inv in Hx. destruct Hx as (x' & Hx).
  pose proof (wp_run _ _ _ _ _ (processSession_post env _ _ x w Hagx) Hx)
    as (Hnx & Hstore & _).
  destruct (processSession_framed env (readCurrentRunId env)
              (closedBeadIds env ss) x w) as (_ & _ & (f & Hfn & Hfo & Hfs)).
  rewrite Hx in Hfs. cbn [fst] in Hfs.
  destruct (forEach_framed env ss l w1) as (_ & _ & (g & Hgn & Hgo & Hgs)).
  rewrite Hrest in Hgs. cbn [fst] in Hgs.
  destruct Hs as [<-|Hs].
  - (* the row of [x]: untouched by the rest of the loop *)
    exists w, w1, x'. split; [exact Hagx|]. split; [exact Hx|].
    rewrite Hgs in Hr'. apply in_map_iff in Hr'. destruct Hr' as (r1 & <- & Hr1).
    rewrite Hgn in Hname.
    rewrite Hgo.
    2:{ rewrite Hname. intros Hc. apply Hxl. apply list_elem_of_In. exact Hc. }
    pose proof (updateRows_fields (agentName x) x' (store w)) as Hf.
    rewrite <- Hstore in Hf. rewrite List.Forall_forall in Hf.
    exact (Hf r1 Hr1 Hname).
  - eapply (IH w1 w'); eauto.
    apply List.Forall_forall. intros t Ht. rewrite Hfs.
    apply (agree_frame (fun n => n = agentName x)); auto.
    + intros Hc. apply Hxl. rewrite <- Hc. apply list_elem_of_In.
      apply in_map. exact Ht.
    + rewrite List.Forall_forall in Hagl. auto.
Qed.

Lemma checkRunCompletion_store env R w :
  store (fst (checkRunCompletion env R w)) = store w.
Proof.
  unfold checkRunCompletion.
  repeat match goal with
         | |- context [if ?c then _ else _] => destruct c; try reflexivity
         end.
  unfold bind, tryCatch, callNudge, emit, ret, recordEvent, writeMarker.
  cbn. destruct (eventStore env) as [acc|]; [destruct (acc _)|];
    cbn; destruct (markerWritable env); reflexivity.
Qed.

Lemma runDaemonTick_inv env w w' :
  runDaemonTick env w = (w', Some tt) ->
  exists w1, forEach (tickBody env (store w)) (store w) w = (w1, Some tt) /\
             store w' = store w1.
Proof.
  unfold runDaemonTick, SessionStore.getAll. intros H. apply bind_inv in H.
  destruct H as (w1 & [] & Hloop & Hrest). exists w1. split; [exact Hloop|].
  destruct (readCurrentRunId env) as [R|].
  - pose proof (checkRunCompletion_store env R w1) as Hs.
    rewrite Hrest in Hs. exact Hs.
  - injection Hrest as <-. reflexivity.
Qed.

(** Every row of the store after a tick that returns: the row's name was in
    the store before, and the row carries the fields its iteration ended with. *)
Lemma runDaemonTick_rows env w w' :
  NoDup (map agentName (store w)) ->
  runDaemonTick env w = (w', Some tt) ->
  forall r', In r' (store w') ->
  exists s w1 w2 s',
    In s (store w) /\ agentName r' = agentName s /\ agree s (store w1) /\
    processSession env (readCurrentRunId env) (closedBeadIds env (store w)) s w1
      = (w2, Some s') /\
    rowOf s' r'.
Proof.
  intros Hnd Hrun r' Hr'. apply runDaemonTick_inv in Hrun.
  destruct Hrun as (w1 & Hloop & Hstore). rewrite Hstore in Hr'.
  destruct (forEach_framed env (store w) (store w) w)
    as (_ & _ & (f & Hfn & _ & Hfs)).
  rewrite Hloop in Hfs. cbn [fst] in Hfs.
  assert (exists s, In s (store w) /\ agentName r' = agentName s) as (s & Hs & Hn).
  { rewrite Hfs in Hr'. apply in_map_iff in Hr'. destruct Hr' as (s & <- & Hs).
    exists s. split; [exact Hs|apply Hfn]. }
  destruct (forEach_rows env (store w) (store w) w w1 Hnd) with (r' := r') (s := s)
    as (wa & wb & s' & H1 & H2 & H3); auto.
  { apply List.Forall_forall. intros t Ht. apply NoDup_agree; assumption. }
  exists s, wa, wb, s'. auto.
Qed.

(** ** Terminal sessions carry no escalation (C4) *)

Lemma rowOf_reset s' r' : rowOf s' r' -> resetWhenTerminal s' -> resetWhenTerminal r'.
Proof.
  unfold rowOf, resetWhenTerminal. intros (-> & -> & ->) H. exact H.
Qed.

(** C4 as the spec states it fails: the state and the escalation fields are
    written by two calls of the store.  Session [a] is stalled at level 2
    and its terminal is dead; the store takes the write of the state and
    throws at the reset.  Every row kept the invariant before the tick;
    after it the row is zombie at level 2, stalled since 100; the tick has
    thrown, and the daemon goes on. *)
Lemma zombie_write_without_reset :
  let env := exEnvResetThrows 200000 in
  let w := exWorld [exSession "a" EmptyString Stalled 0 2 (Some 100)] in
  Forall resetWhenTerminal (store w) /\
  snd (runDaemonTick env w) = None /\
  store (fst (runDaemonTick env w))
    = [exSession "a" EmptyString Zombie 0 2 (Some 100)] /\
  ~ Forall resetWhenTerminal (store (fst (runDaemonTick env w))) /\
  snd (startDaemon [env] w) = Some tt.
Proof.
  cbv zeta.
  assert (store (fst (runDaemonTick (exEnvResetThrows 200000)
                        (exWorld [exSession "a" EmptyString Stalled 0 2 (Some 100)])))
          = [exSession "a" EmptyString Zombie 0 2 (Some 100)]) as E
    by (vm_compute; reflexivity).
  split.
  { constructor; [|constructor]. unfold resetWhenTerminal. cbn. discriminate. }
  split; [vm_compute; reflexivity|]. split; [exact E|].
  split; [|reflexivity].
  rewrite E. intros H. inversion H as [|x l Hx Hl]. subst.
  destruct (Hx eq_refl) as [H0 _]. discriminate.
Qed.

(** C4, amended: for every tick that returns, on a store with unique agent names and
    with a health check as in the spec's table: every row that was not
    terminal before the tick, or satisfied the invariant, satisfies it after
    the tick (if its state is completed or zombie then its escalation level
    is 0 and stalledSince is null); so a tick preserves the invariant of the
    whole store. *)
Theorem terminal_sessions_reset env w w' :
  NoDup (map agentName (store w)) ->
  healthHoldsTerminal env ->
  runDaemonTick env w = (w', Some tt) ->
  (forall r', In r' (store w') ->
     exists s, In s (store w) /\ agentName r' = agentName s /\
               (terminal (state s) = false \/ resetWhenTerminal s ->
                resetWhenTerminal r')) /\
  (Forall resetWhenTerminal (store w) -> Forall resetWhenTerminal (store w')).
Proof.
  intros Hnd Hh Hrun.
  assert (forall r', In r' (store w') ->
     exists s, In s (store w) /\ agentName r' = agentName s /\
               (terminal (state s) = false \/ resetWhenTerminal s ->
                resetWhenTerminal r')) as Hrows.
  { intros r' Hr'.
    destruct (runDaemonTick_rows env w w' Hnd Hrun r' Hr')
      as (s & w1 & w2 & s' & Hs & Hn & Hag & Hp & Hrow).
    exists s. split; [exact Hs|]. split; [exact Hn|].
    intros Hpre.
    pose proof (wp_run _ _ _ _ _ (processSession_post env _ _ s w1 Hag) Hp)
      as (_ & _ & Hkeep).
    apply (rowOf_reset s'); [exact Hrow|]. apply Hkeep; [exact Hh|].
    destruct Hpre as [Hnt|Hok]; [|exact Hok].
    unfold resetWhenTerminal. rewrite Hnt. discriminate. }
  split; [exact Hrows|].
  intros Hinv. apply List.Forall_forall. intros r' Hr'.
  destruct (Hrows r' Hr') as (s & Hs & _ & Hk). apply Hk. right.
  rewrite List.Forall_forall in Hinv. auto.
Qed.

Lemma specHealth_holdsTerminal now probe closed tier1 verdict :
  healthHoldsTerminal (exEnvWith now probe closed tier1 verdict).
Proof.
  intros s alive Hne. cbn. unfold specEvaluateHealth, specTransitionState.
  destruct alive; cbn; [|exact I].
  destruct (state s) eqn:E; cbn; try reflexivity; try congruence;
    repeat match goal with
           | |- context [if ?c then _ else _] => destruct c; cbn
           end; rewrite ?E; reflexivity.
Qed.

(** A store for C4: [a] is stalled at level 2 and its terminal is dead, [b]
    works on a bead that has been closed. *)
Lemma terminal_sessions_reset_witness :
  let w := exWorld [exSession "a" EmptyString Stalled 0 2 (Some 100);
                    exSession "b" "bead-1" Working 0 0 None] in
  let env := exEnvClosed 200000 ["bead-1"] in
  Forall resetWhenTerminal (store w) /\
  Forall resetWhenTerminal (store (fst (runDaemonTick env w))) /\
  map state (store (fst (runDaemonTick env w))) = [Zombie; Completed].
Proof.
  cbv zeta.
  assert (Forall resetWhenTerminal
            (store (exWorld [exSession "a" EmptyString Stalled 0 2 (Some 100);
                             exSession "b" "bead-1" Working 0 0 None]))) as Hinv.
  { repeat constructor; unfold resetWhenTerminal; cbn; discriminate. }
  split; [exact Hinv|]. split; [|vm_compute; reflexivity].
  refine (proj2 (terminal_sessions_reset (exEnvClosed 200000 ["bead-1"]) _ _ _ _ _) Hinv).
  - apply (bool_decide_unpack _). vm_compute. exact I.
  - apply specHealth_holdsTerminal.
  - vm_compute. reflexivity.
Defined.

(** ** Running the code with its trace *)

(** As [wp_step], but keeping the trace: every block is opened. *)
Ltac wp_trace_step :=
  lazymatch goal with
  | |- wp (ret _) _ _ => apply wp_ret
  | |- wp throw _ _ => apply wp_throw
  | |- wp (bind _ _) _ _ => apply wp_bind
  | |- wp (emit _) _ _ => apply wp_emit
  | |- wp (recordEvent _ _) _ _ => apply wp_recordEvent
  | |- wp (storeWrite _ _) _ _ => apply wp_storeWrite; intros ?
  | |- wp (Watchdog.updateState _ _ _) _ _ => unfold Watchdog.updateState
  | |- wp (Watchdog.updateEscalation _ _ _ _) _ _ => unfold Watchdog.updateEscalation
  | |- wp (recordFailure _ _ _ _) _ _ => unfold recordFailure
  | |- wp (killIfAlive _ _) _ _ => unfold killIfAlive
  | |- wp (probeSession _ _) _ _ => unfold probeSession
  | |- wp (callNudge _ _ _ _) _ _ => unfold callNudge
  | |- wp (callTriage _ _ _) _ _ => unfold callTriage
  | |- wp (firstStallNudge _ _ _) _ _ => unfold firstStallNudge
  | |- wp (tryCatch _) _ _ => apply wp_tryCatch
  | |- wp (if ?c then _ else _) _ _ => destruct c eqn:?
  | |- wp (match ?x with _ => _ end) _ _ => destruct x eqn:?
  end; cbv beta iota zeta; cbn [store marker trace fst snd] in *.



(** ** Auto-completion from a closed ticket (C5) *)





(** ** The escalation level follows the elapsed time (C2) *)






(** ** One ladder action per tick (C10) *)

Ltac wp_ladder_step :=
  lazymatch goal with
  | |- wp (executeEscalationAction _ _ _ _) _ _ => unfold executeEscalationAction
  | |- wp (trackStall _ _ _) _ _ => unfold trackStall
  | |- wp (escalate _ _ _ _) _ _ => unfold escalate
  | _ => wp_trace_step
  end; cbv beta iota zeta; cbn [store marker trace fst snd] in *.





(** The same over two ticks of the daemon (scenario 2 of the spec with the
    ticks at 61 s and 121 s missing): the session is warned at 0 and
    terminated at 181 s; the nudge sender and the triage are never called. *)
Example skipped_levels_two_ticks :
  let w' := fst (startDaemon [exEnv 0; exEnv 181000] (exWorld [quietSession])) in
  map state (store w') = [Zombie] /\
  noNudgeNoTriage (trace w') /\
  In (Failure "a" "builder" "Progressive escalation reached terminal level" 0 None)
    (trace w').
Proof.
  cbv zeta. split; [vm_compute; reflexivity|]. split.
  - vm_compute. repeat constructor.
  - vm_compute. repeat (first [left; reflexivity | right]).
Qed.

(** ** A throwing session ends the tick, not the daemon (C1) *)

Lemma forEach_app_throw {A} (f : A -> M unit) before x after w w1 w2 :
  forEach f before w = (w1, Some tt) ->
  f x w1 = (w2, None) ->
  forEach f (before ++ x :: after) w = (w2, None).
Proof.
  revert w. induction before as [|y before IH]; intros w Hb Hx; cbn [forEach app] in *.
  - injection Hb as <-. unfold bind. rewrite Hx. reflexivity.
  - unfold bind in *. destruct (f y w) as [wy [[]|]]; [|discriminate].
    apply IH; assumption.
Qed.

Lemma startDaemon_returns envs : forall w, snd (startDaemon envs w) = Some tt.
Proof.
  induction envs as [|env envs IH]; intros w; [reflexivity|].
  cbn [startDaemon]. unfold bind, tickCaught. apply IH.
Qed.

Lemma startDaemon_cons env envs w :
  startDaemon (env :: envs) w = startDaemon envs (fst (runDaemonTick env w)).
Proof. reflexivity. Qed.

(** C1 as the spec states it fails: the probe of the first session's
    terminal throws; the tick throws with it, and the second session, whose
    terminal is dead and whose own iteration would mark it zombie, is
    neither probed nor written. *)
Lemma tick_aborts_at_throwing_probe :
  let env := exEnvProbeThrows 0 "tmux-a" in
  let a := exSession "a" EmptyString Working 0 0 None in
  let b := exSession "b" EmptyString Working 0 0 None in
  runDaemonTick env (exWorld [a; b])
    = (mkWorld [a; b] None [Probe "tmux-a"], None) /\
  map state
    (store (fst (processSession env (Some "run-1") [] b (exWorld [a; b]))))
    = [Working; Zombie].
Proof. cbv zeta. split; vm_compute; reflexivity. Qed.

(** C1, amended: when the evaluation of a session throws, the sessions
    before it having been evaluated, the tick throws there: the world is left
    as it was at the throw, so the sessions after it are not evaluated in
    this tick (rows of other names are as before the tick) and the
    run-completion check is skipped; the daemon swallows the error and runs
    the following ticks from that world, and never throws itself. *)
Theorem tick_stops_at_throwing_session env w before s after w1 w2 rest :
  store w = before ++ s :: after ->
  forEach (tickBody env (store w)) before w = (w1, Some tt) ->
  tickBody env (store w) s w1 = (w2, None) ->
  runDaemonTick env w = (w2, None) /\
  (forall r, In r after ->
     ~ In (agentName r) (map agentName (before ++ [s])) -> In r (store w2)) /\
  startDaemon (env :: rest) w = startDaemon rest w2 /\
  snd (startDaemon (env :: rest) w) = Some tt.
Proof.
  intros Hrows Hbefore Hthrow.
  assert (runDaemonTick env w = (w2, None)) as Htick.
  { unfold runDaemonTick, SessionStore.getAll, bind.
    rewrite Hrows at 2.
    rewrite (forEach_app_throw _ before s after w w1 w2 Hbefore Hthrow).
    reflexivity. }
  split; [exact Htick|]. split; [|split].
  - intros r Hr Hname.
    destruct (forEach_framed env (store w) before w)
      as (_ & _ & (f & _ & Hfo & Hfs)).
    rewrite Hbefore in Hfs. cbn [fst] in Hfs.
    destruct (tickBody_framed env (store w) s w1)
      as (_ & _ & (g & _ & Hgo & Hgs)).
    rewrite Hthrow in Hgs. cbn [fst] in Hgs.
    rewrite Hgs, Hfs, map_map. apply in_map_iff. exists r. split.
    + rewrite Hfo.
      * apply Hgo. intros E. apply Hname. rewrite map_app. apply in_or_app.
        right. left. symmetry. exact E.
      * intros Hin. apply Hname. rewrite map_app. apply in_or_app. left. exact Hin.
    + rewrite Hrows. apply in_or_app. right. right. exact Hr.
  - rewrite startDaemon_cons, Htick. reflexivity.
  - apply startDaemon_returns.
Qed.

(** The store of the counterexample: the tick stops at [a]; the next tick,
    at which the probe answers, evaluates both sessions. *)
Lemma tick_stops_at_throwing_session_witness :
  let env := exEnvProbeThrows 0 "tmux-a" in
  let a := exSession "a" EmptyString Working 0 0 None in
  let b := exSession "b" EmptyString Working 0 0 None in
  let w := exWorld [a; b] in
  let w2 := mkWorld [a; b] None [Probe "tmux-a"] in
  (runDaemonTick env w = (w2, None) /\
   (forall r, In r [b] ->
      ~ In (agentName r) (map agentName ([] ++ [a])) -> In r (store w2)) /\
   startDaemon [env; exEnvClosed 60000 []] w
     = startDaemon [exEnvClosed 60000 []] w2 /\
   snd (startDaemon [env; exEnvClosed 60000 []] w) = Some tt) /\
  map state (store (fst (startDaemon [env; exEnvClosed 60000 []] w)))
    = [Zombie; Zombie].
Proof.
  cbv zeta. split; [|vm_compute; reflexivity].
  refine (tick_stops_at_throwing_session (exEnvProbeThrows 0 "tmux-a")
            (exWorld [exSession "a" EmptyString Working 0 0 None;
                      exSession "b" EmptyString Working 0 0 None])
            [] (exSession "a" EmptyString Working 0 0 None)
            [exSession "b" EmptyString Working 0 0 None]
            _ _ [exEnvClosed 60000 []] _ _ _).
  - reflexivity.
  - reflexivity.
  - vm_compute. reflexivity.
Defined.

(** ** The run-completion notification is sent once (C3) *)

(** Trimming: [len] finds the white space character at the start of a list
    of bytes. *)
Section DropWs.
Variable len : list ascii -> nat.
Hypothesis len_le : forall l, (len l <= length l)%nat.
Hypothesis len_app : forall l l', len l <> 0%nat -> len (l ++ l') = len l.

Lemma dropWs_done fuel : forall l,
  (length l <= fuel)%nat -> len (Js.dropWs len fuel l) = 0%nat.
Proof.
  induction fuel as [|fuel IH]; intros l Hl; cbn [Js.dropWs].
  - pose proof (len_le l). lia.
  - destruct (len l) as [|n] eqn:E; [exact E|].
    apply IH. rewrite length_drop. lia.
Qed.

Lemma dropWs_none fuel l : len l = 0%nat -> Js.dropWs len fuel l = l.
Proof. intros E. destruct fuel; cbn [Js.dropWs]; [|rewrite E]; reflexivity. Qed.

Lemma dropWs_suffix fuel : forall l, exists p, l = p ++ Js.dropWs len fuel l.
Proof.
  induction fuel as [|fuel IH]; intros l; cbn [Js.dropWs].
  - exists []. reflexivity.
  - destruct (len l) as [|n] eqn:E; [exists []; reflexivity|].
    destruct (IH (drop (S n) l)) as (p & Hp).
    exists (take (S n) l ++ p). rewrite <- app_assoc, <- Hp.
    symmetry. apply take_drop.
Qed.

(** What is left of a list that starts with no white space still starts
    with none. *)
Lemma len_prefix l l' : len (l ++ l') = 0%nat -> len l = 0%nat.
Proof.
  intros E. destruct (len l) as [|n] eqn:El; [reflexivity|].
  rewrite len_app in E by (rewrite El; discriminate). congruence.
Qed.

End DropWs.

Lemma wsLen_le l : (Js.wsLen l <= length l)%nat.
Proof.
  destruct l as [|a [|b [|c r]]]; cbn [Js.wsLen length];
    repeat match goal with |- context [if ?c then _ else _] => destruct c end; lia.
Qed.

Lemma wsLenRev_le l : (Js.wsLenRev l <= length l)%nat.
Proof.
  destruct l as [|a [|b [|c r]]]; cbn [Js.wsLenRev length];
    repeat match goal with |- context [if ?c then _ else _] => destruct c end; lia.
Qed.

Lemma wsLen_app l l' : Js.wsLen l <> 0%nat -> Js.wsLen (l ++ l') = Js.wsLen l.
Proof.
  destruct l as [|a [|b [|c r]]]; cbn [Js.wsLen app];
    repeat match goal with |- context [if ?c then _ else _] => destruct c end;
    congruence.
Qed.

Lemma wsLenRev_app l l' :
  Js.wsLenRev l <> 0%nat -> Js.wsLenRev (l ++ l') = Js.wsLenRev l.
Proof.
  destruct l as [|a [|b [|c r]]]; cbn [Js.wsLenRev app];
    repeat match goal with |- context [if ?c then _ else _] => destruct c end;
    congruence.
Qed.

(** A trimmed string starts and ends with no white space. *)
Lemma trim_ends s :
  exists l, Js.trim s = String.string_of_list_ascii l /\
            Js.wsLen l = 0%nat /\ Js.wsLenRev (rev l) = 0%nat.
Proof.
  unfold Js.trim, Js.trimEnd, Js.trimStart. cbv zeta.
  rewrite String.list_ascii_of_string_of_list_ascii.
  set (t := Js.dropWs Js.wsLen _ (String.list_ascii_of_string s)).
  set (u := Js.dropWs Js.wsLenRev (length (rev t)) (rev t)).
  exists (rev u). split; [reflexivity|].
  assert (Js.wsLenRev u = 0%nat) as Hu
    by (apply dropWs_done; [apply wsLenRev_le|reflexivity]).
  split; [|rewrite rev_involutive; exact Hu].
  assert (Js.wsLen t = 0%nat) as Ht
    by (apply dropWs_done; [apply wsLen_le|reflexivity]).
  destruct (dropWs_suffix Js.wsLenRev (length (rev t)) (rev t)) as (p & Hp).
  fold u in Hp. apply (f_equal (@rev ascii)) in Hp.
  rewrite rev_involutive, rev_app_distr in Hp.
  apply (len_prefix Js.wsLen wsLen_app (rev u) (rev p)). rewrite <- Hp. exact Ht.
Qed.

Lemma trim_idem s : Js.trim (Js.trim s) = Js.trim s.
Proof.
  destruct (trim_ends s) as (l & -> & Hl & Hr).
  unfold Js.trim, Js.trimEnd, Js.trimStart. cbv zeta.
  rewrite !String.list_ascii_of_string_of_list_ascii.
  rewrite (dropWs_none _ _ _ Hl).
  rewrite ?String.list_ascii_of_string_of_list_ascii.
  rewrite (dropWs_none _ _ _ Hr). rewrite rev_involutive. reflexivity.
Qed.

Lemma readCurrentRunId_trimmed env R :
  readCurrentRunId env = Some R -> Js.trim R = R.
Proof.
  unfold readCurrentRunId. destruct (currentRunFile env) as [text|]; [|discriminate].
  destruct (0 <? String.length (Js.trim text))%nat; [|discriminate].
  intros [= <-]. apply trim_idem.
Qed.

Lemma completionNudges_app tr tr' :
  completionNudges (tr ++ tr') = (completionNudges tr + completionNudges tr')%nat.
Proof. unfold completionNudges. rewrite List.filter_app. apply length_app. Qed.

Lemma runCompleteEvents_app tr tr' :
  runCompleteEvents (tr ++ tr') = (runCompleteEvents tr + runCompleteEvents tr')%nat.
Proof. unfold runCompleteEvents. rewrite List.filter_app. apply length_app. Qed.

Lemma sessionEffects_count tr :
  Forall sessionEffect tr -> completionNudges tr = 0%nat /\ runCompleteEvents tr = 0%nat.
Proof.
  unfold completionNudges, runCompleteEvents.
  induction 1 as [|e tr [H1 H2] _ [IH1 IH2]]; [split; reflexivity|].
  cbn [List.filter]. rewrite H1, H2. split; assumption.
Qed.

Lemma recorded_runComplete env ws R :
  completionNudges (recorded env (runCompleteEvent ws R)) = 0%nat /\
  (runCompleteEvents (recorded env (runCompleteEvent ws R)) <= 1)%nat.
Proof.
  unfold recorded. destruct (eventStore env) as [acc|]; [destruct (acc _)|];
    cbn; split; lia.
Qed.

(** The detector fires: workers exist, all are completed, and the marker
    does not name the run (or cannot be read). *)
Lemma checkRunCompletion_fires env R w :
  workersOf R w <> [] ->
  forallb (fun s => AgentState_eqb (state s) Completed) (workersOf R w) = true ->
  alreadyNotified env w R = false ->
  checkRunCompletion env R w =
    (mkWorld (store w)
       (if markerWritable env then Some R else marker w)
       (trace w ++
        [Nudge RunCompleteSite "coordinator"
           (buildCompletionMessage (workersOf R w) R) true] ++
        recorded env (runCompleteEvent (workersOf R w) R)),
     Some tt).
Proof.
  intros Hne Hall Hfresh. unfold checkRunCompletion. fold (workersOf R w).
  destruct (workersOf R w) as [|x ws] eqn:E; [congruence|].
  cbn [length Nat.eqb]. rewrite Hall, Hfresh. cbn [negb].
  cbv beta iota zeta delta
    [bind tryCatch callNudge emit ret recordEvent recorded writeMarker
     fst snd store marker trace].
  destruct (eventStore env) as [acc|]; [destruct (acc _)|];
    destruct (markerWritable env);
    cbv beta iota zeta delta [fst snd store marker trace];
    rewrite <- ?app_assoc, ?app_nil_r; try reflexivity; destruct w; reflexivity.
Qed.

(** The detector does nothing: no worker, a worker not completed, or the
    marker names the run. *)
Lemma checkRunCompletion_skips env R w :
  workersOf R w = [] \/
  forallb (fun s => AgentState_eqb (state s) Completed) (workersOf R w) = false \/
  alreadyNotified env w R = true ->
  checkRunCompletion env R w = (w, Some tt).
Proof.
  intros H. unfold checkRunCompletion. fold (workersOf R w).
  destruct (workersOf R w) as [|x ws] eqn:E; [reflexivity|].
  cbn [length Nat.eqb].
  destruct (forallb _ (x :: ws)) eqn:Hall; [|reflexivity]. cbn [negb].
  destruct (alreadyNotified env w R) eqn:Hn; [reflexivity|].
  destruct H as [H|[H|H]]; discriminate.
Qed.

Lemma spent_refl R w : spent R w w.
Proof. unfold spent. repeat split; lia. Qed.

Lemma spent_trans R w0 w1 w2 : spent R w0 w1 -> spent R w1 w2 -> spent R w0 w2.
Proof. unfold spent. intros (?&?&?&?&?) (?&?&?&?&?). repeat split; lia. Qed.

Lemma checkRunCompletion_spent env R w :
  markerReadable env = true -> markerWritable env = true -> Js.trim R = R ->
  spent R w (fst (checkRunCompletion env R w)).
Proof.
  intros Hr Hw Ht.
  destruct (workersOf R w) as [|x ws] eqn:E.
  { rewrite checkRunCompletion_skips by (left; exact E). apply spent_refl. }
  destruct (forallb (fun s => AgentState_eqb (state s) Completed) (workersOf R w))
    eqn:Hall.
  2:{ rewrite checkRunCompletion_skips by (right; left; exact Hall).
      apply spent_refl. }
  destruct (alreadyNotified env w R) eqn:Hn.
  { rewrite checkRunCompletion_skips by (right; right; exact Hn). apply spent_refl. }
  rewrite checkRunCompletion_fires; [|congruence|exact Hall|exact Hn].
  cbn [fst].
  unfold alreadyNotified in Hn. rewrite Hr in Hn. cbn [andb] in Hn.
  fold (notified R w) in Hn.
  unfold spent, pending. rewrite Hn. unfold notified. cbn [marker trace].
  rewrite Hw, Ht, String.eqb_refl.
  rewrite !completionNudges_app, !runCompleteEvents_app.
  destruct (recorded_runComplete env (workersOf R w) R) as [H1 H2].
  rewrite H1. cbn. repeat split; lia.
Qed.

Lemma framed_spent R (N : string -> Prop) {A} (m : M A) w :
  framed N m -> spent R w (fst (m w)).
Proof.
  intros Hm. destruct (Hm w) as (Hmk & (tr & Htr & Hf) & _).
  destruct (sessionEffects_count tr Hf) as [H1 H2].
  unfold spent, pending, notified. rewrite Hmk, Htr.
  rewrite completionNudges_app, runCompleteEvents_app, H1, H2.
  repeat split; lia.
Qed.

Lemma runDaemonTick_spent env R w :
  readCurrentRunId env = Some R ->
  markerReadable env = true -> markerWritable env = true ->
  spent R w (fst (runDaemonTick env w)).
Proof.
  intros HR Hr Hw. unfold runDaemonTick, bind.
  pose proof (framed_spent R _ _ w
                (forEach_framed env (store w) (SessionStore.getAll (store w))))
    as Hloop.
  destruct (forEach _ _ w) as [w1 [[]|]]; cbn [fst] in *; [|exact Hloop].
  rewrite HR. eapply spent_trans; [exact Hloop|].
  apply checkRunCompletion_spent; auto.
  eapply readCurrentRunId_trimmed. exact HR.
Qed.

Lemma startDaemon_spent R envs : forall w,
  Forall (fun env => readCurrentRunId env = Some R /\
                     markerReadable env = true /\ markerWritable env = true) envs ->
  spent R w (fst (startDaemon envs w)).
Proof.
  induction envs as [|env envs IH]; intros w Henvs; [apply spent_refl|].
  apply Forall_cons in Henvs. destruct Henvs as [(HR & Hr & Hw) Henvs].
  rewrite startDaemon_cons. eapply spent_trans; [|apply IH; exact Henvs].
  apply runDaemonTick_spent; assumption.
Qed.

(** A tick is its two parts, one after the other. *)
Lemma tick_in_two_parts env w :
  runDaemonTick env w
  = match tickUntilNudge env w with
    | (w1, Some due) => tickFromNudge env due w1
    | (w1, None) => (w1, None)
    end.
Proof.
  unfold runDaemonTick, tickUntilNudge, bind.
  destruct (forEach _ _ w) as [w1 [[]|]]; [|reflexivity].
  unfold tickFromNudge.
  destruct (readCurrentRunId env) as [run|]; [|reflexivity].
  unfold checkRunCompletion, completionDue, notifyCompletion.
  repeat match goal with
         | |- context [if ?c then _ else _] => destruct c; try reflexivity
         end.
Qed.

(** The tick whose loop returns ends with the run-completion check, run on
    the world the loop leaves. *)
Lemma tick_ends_with_check env R w w1 :
  readCurrentRunId env = Some R ->
  forEach (tickBody env (store w)) (store w) w = (w1, Some tt) ->
  runDaemonTick env w = checkRunCompletion env R w1.
Proof.
  intros HR Hloop. unfold runDaemonTick, bind, SessionStore.getAll.
  rewrite Hloop, HR. reflexivity.
Qed.

(** C3 as the spec states it fails: the timer fires a tick whether or not
    the previous one has returned.  Three workers of the run are completed;
    the first tick finds the marker not naming the run and awaits the nudge
    sender; the second tick, fired meanwhile, reads the marker before the
    first has written it.  Both ticks notify the coordinator and both
    record a run_complete event, the marker being readable and writable
    throughout; the same two ticks one after the other notify once.  And
    two ticks one after the other that cannot read the marker, which the
    first has written, notify twice. *)
Lemma overlapping_ticks_notify_twice :
  let done n := exSession n EmptyString Completed 0 0 None in
  let coordinator :=
    mkSession "session-c" "coordinator" "coordinator" "/" "main" EmptyString
      "tmux-c" Working None None 0 (Some "run-1") 0 0 0 None in
  let w := exWorld [done "a"; done "b"; done "c"; coordinator] in
  let w' := fst (overlappingTicks (exEnv 0) (exEnv 60000) w) in
  let serial := fst (startDaemon [exEnv 0; exEnv 60000] w) in
  let unread :=
    fst (startDaemon [exEnvMarkerUnreadable 0; exEnvMarkerUnreadable 60000] w) in
  (completionNudges (trace w') = 2%nat /\ runCompleteEvents (trace w') = 2%nat /\
   marker w' = Some "run-1") /\
  (completionNudges (trace serial) = 1%nat /\ runCompleteEvents (trace serial) = 1%nat) /\
  (completionNudges (trace unread) = 2%nat /\ runCompleteEvents (trace unread) = 2%nat /\
   marker unread = Some "run-1").
Proof. cbv zeta. repeat split; vm_compute; reflexivity. Qed.

(** C3, amended: over any number of ticks of the daemon that do not overlap
    (each has returned before the next is fired), find the current run to
    be [R] and can read and write the marker file, at most one completion
    notification is sent to the coordinator and at most one run_complete
    event recorded, none when the marker names [R] from the start.  When
    the detector finds workers, all completed, and the marker not naming
    [R], it force-sends the message, records the event and writes [R] to
    the marker; when the marker it reads names [R], it does nothing. *)
Theorem run_complete_notified_once R envs w :
  Forall (fun env => readCurrentRunId env = Some R /\
                     markerReadable env = true /\ markerWritable env = true) envs ->
  let w' := fst (startDaemon envs w) in
  (completionNudges (trace w') <= completionNudges (trace w) + 1)%nat /\
  (runCompleteEvents (trace w') <= runCompleteEvents (trace w) + 1)%nat /\
  (notified R w = true ->
   completionNudges (trace w') = completionNudges (trace w) /\
   runCompleteEvents (trace w') = runCompleteEvents (trace w)) /\
  (forall env w0,
     workersOf R w0 <> [] ->
     forallb (fun s => AgentState_eqb (state s) Completed) (workersOf R w0) = true ->
     alreadyNotified env w0 R = false ->
     checkRunCompletion env R w0 =
       (mkWorld (store w0)
          (if markerWritable env then Some R else marker w0)
          (trace w0 ++
           [Nudge RunCompleteSite "coordinator"
              (buildCompletionMessage (workersOf R w0) R) true] ++
           recorded env (runCompleteEvent (workersOf R w0) R)),
        Some tt)) /\
  (forall env w0,
     markerReadable env = true -> notified R w0 = true ->
     checkRunCompletion env R w0 = (w0, Some tt)) /\
  (forall env w0 w1,
     readCurrentRunId env = Some R ->
     forEach (tickBody env (store w0)) (store w0) w0 = (w1, Some tt) ->
     runDaemonTick env w0 = checkRunCompletion env R w1).
Proof.
  intros Henvs w'.
  pose proof (startDaemon_spent R envs w Henvs) as (H1 & H2 & H3 & H4 & H5).
  fold w' in H1, H2, H3, H4, H5. unfold pending in *.
  split; [destruct (notified R w), (notified R w'); lia|].
  split; [destruct (notified R w), (notified R w'); lia|].
  split; [|split; [|split]].
  - intros Hn. rewrite Hn in *. destruct (notified R w'); lia.
  - intros env w0. apply checkRunCompletion_fires.
  - intros env w0 Hr Hn. apply checkRunCompletion_skips. right. right.
    unfold alreadyNotified. rewrite Hr. exact Hn.
  - intros env w0 w1. apply tick_ends_with_check.
Qed.

(** Scenario 7 of the spec: three completed workers and the coordinator;
    three ticks send one notification. *)
Lemma run_complete_notified_once_witness :
  let done n := exSession n EmptyString Completed 0 0 None in
  let coordinator :=
    mkSession "session-c" "coordinator" "coordinator" "/" "main" EmptyString
      "tmux-c" Working None None 0 (Some "run-1") 0 0 0 None in
  let w := exWorld [done "a"; done "b"; done "c"; coordinator] in
  let w' := fst (startDaemon [exEnv 0; exEnv 60000; exEnv 120000] w) in
  (completionNudges (trace w') = 1%nat /\ runCompleteEvents (trace w') = 1%nat /\
   marker w' = Some "run-1") /\
  (completionNudges (trace w') <= completionNudges (trace w) + 1)%nat.
Proof.
  cbv zeta. split; [vm_compute; repeat split; reflexivity|].
  refine (proj1 (run_complete_notified_once "run-1"
                   [exEnv 0; exEnv 60000; exEnv 120000] _ _)).
  repeat constructor.
Defined.

End WatchdogFacts.

(** * Properties of the mail command *)

Module MailFacts.
Import Mail MailSpec MailExamples.

(** ** What the parts of an iteration leave alone *)

Lemma touch_frame env a w :
  mail (touchAgentSession env a w) = mail w /\
  pendingNudges (touchAgentSession env a w) = pendingNudges w /\
  now (touchAgentSession env a w) = now w.
Proof.
  unfold touchAgentSession.
  destruct (sessionStoreOk env); cbn [negb]; [|auto].
  destruct (SessionStore.getByName (sessions w) a) as [s|]; [|auto].
  destruct (state s); auto.
Qed.

Lemma readAndClear_frame a w :
  mail (fst (readAndClearPendingNudge a w)) = mail w /\
  sessions (fst (readAndClearPendingNudge a w)) = sessions w /\
  now (fst (readAndClearPendingNudge a w)) = now w.
Proof.
  unfold readAndClearPendingNudge.
  destruct (pendingNudges w !! a); auto.
Qed.

(** ** The order of one iteration of the wait (C6) *)





(** ** The auto-nudge of a send (C7) *)

Lemma shouldNudge_iff priority type :
  shouldNudge priority type = true <->
  priority = PHigh \/ priority = PUrgent \/
  In type [TWorkerDone; TMergeReady; TError; TEscalation; TMergeFailed].
Proof.
  split.
  - destruct priority; cbn; auto; destruct type; cbn; try discriminate;
      intros _; right; right; auto 10.
  - intros [->|[->|H]]; [reflexivity|reflexivity|].
    cbn in H. destruct priority; cbn; try reflexivity;
      intuition (subst; reflexivity).
Qed.

(** One send to one recipient and the marker directory. *)
Lemma sendOne_marker env broadcast from to subject body type priority payload w :
  let r := sendOne env broadcast from to subject body type priority payload w in
  now (fst r) = now w /\ sessions (fst r) = sessions w /\
  pendingNudges (fst r) =
    if shouldNudge priority type
    then <[to := markerFor from subject (snd r) priority type (now w)]>
           (pendingNudges w)
    else pendingNudges w.
Proof.
  cbv zeta. unfold sendOne, clientSend, recordMailSent, writePendingNudge, markerFor.
  destruct (eventStoreOk env), (shouldNudge priority type); cbn; auto.
Qed.

Lemma sendAll_marker env from subject body type priority payload recipients :
  forall w,
  let r := sendAll env from subject body type priority payload recipients w in
  now (fst r) = now w /\ sessions (fst r) = sessions w /\
  (shouldNudge priority type = false -> pendingNudges (fst r) = pendingNudges w) /\
  (shouldNudge priority type = true ->
   forall recipient,
     (In recipient recipients ->
      exists newId, In newId (snd r) /\
        pendingNudges (fst r) !! recipient
          = Some (markerFor from subject newId priority type (now w))) /\
     (~ In recipient recipients ->
      pendingNudges (fst r) !! recipient = pendingNudges w !! recipient)).
Proof.
  induction recipients as [|x rest IH]; intros w; cbv zeta; cbn [sendAll].
  - cbn. repeat split; auto; try contradiction.
  - pose proof (sendOne_marker env true from x subject body type priority payload w)
      as (Hn1 & Hs1 & Hp1).
    destruct (sendOne env true from x subject body type priority payload w)
      as [w1 id1].
    cbn [fst snd] in *.
    specialize (IH w1). cbv zeta in IH. destruct IH as (Hn2 & Hs2 & Hoff & Hon).
    destruct (sendAll env from subject body type priority payload rest w1)
      as [w2 ids].
    cbn [fst snd] in *.
    split; [congruence|]. split; [congruence|]. split.
    + intros Hno. rewrite (Hoff Hno), Hp1, Hno. reflexivity.
    + intros Hyes recipient. rewrite Hyes in Hp1.
      destruct (Hon Hyes recipient) as [Hin Hout]. split.
      * intros [<-|Hr].
        -- destruct (in_dec String.string_dec x rest) as [Hxr|Hxr].
           ++ destruct (proj1 (Hon Hyes x) Hxr) as (newId & Hi & Hl).
              exists newId. split; [right; exact Hi|]. rewrite Hl, Hn1. reflexivity.
           ++ exists id1. split; [left; reflexivity|].
              rewrite (proj2 (Hon Hyes x) Hxr), Hp1. apply lookup_insert_eq.
        -- destruct (Hin Hr) as (newId & Hi & Hl).
           exists newId. split; [right; exact Hi|]. rewrite Hl, Hn1. reflexivity.
      * intros Hnot. rewrite Hout by (intros Hc; apply Hnot; right; exact Hc).
        rewrite Hp1. apply lookup_insert_ne. intros ->. apply Hnot. left. reflexivity.
Qed.

(** C7: a send that succeeds, with [type] and [priority] the parsed flags
    and [recipients] the addressee (or the members of the group address):
    when the priority is high or urgent, or the type is one of worker_done,
    merge_ready, error, escalation, merge_failed, the marker of every
    recipient is, after the send, the marker of one of the messages just sent
    (whatever marker the recipient had before); otherwise the marker
    directory is unchanged. *)
Theorem send_writes_pending_nudge env args w w' ids :
  handleSend env args w = (w', Returned ids) ->
  exists type priority to subject,
    parseType (default "status" (getFlag args "--type")) = Some type /\
    parsePriority (default "normal" (getFlag args "--priority")) = Some priority /\
    getFlag args "--to" = Some to /\
    getFlag args "--subject" = Some subject /\
    let nudged :=
      priority = PHigh \/ priority = PUrgent \/
      In type [TWorkerDone; TMergeReady; TError; TEscalation; TMergeFailed] in
    let recipients :=
      if isGroupAddress env to
      then resolveGroupAddress env to
             (SessionStore.getActive (sessions (touchAgentSession env (sender args) w)))
             (sender args)
      else [to] in
    (nudged ->
     forall recipient, In recipient recipients ->
       exists newId, In newId ids /\
         pendingNudges w' !! recipient
           = Some (markerFor (sender args) subject newId priority type (now w))) /\
    (~ nudged -> pendingNudges w' = pendingNudges w).
Proof.
  unfold handleSend. fold (sender args).
  destruct (parseType _) as [type|]; [|discriminate].
  destruct (parsePriority _) as [priority|]; [|discriminate].
  destruct (touch_frame env (sender args) w) as (_ & Hp0 & Hn0).
  set (w0 := touchAgentSession env (sender args) w) in *.
  destruct (match getFlag args "--payload" with
            | Some p => negb (validJson env p)
            | None => false
            end); [discriminate|].
  destruct (getFlag args "--to") as [[|c0 to']|]; cbn [required]; try discriminate.
  destruct (getFlag args "--subject") as [[|c1 subject']|]; cbn [required];
    try discriminate.
  destruct (getFlag args "--body") as [[|c2 body']|]; cbn [required];
    try discriminate.
  set (to := String c0 to'). set (subject := String c1 subject').
  set (body := String c2 body').
  intros Hrun. exists type, priority, to, subject.
  repeat (split; [reflexivity|]). cbv zeta.
  pose proof (shouldNudge_iff priority type) as Hiff.
  destruct (isGroupAddress env to).
  - pose proof (sendAll_marker env (sender args) subject body type priority
                  (getFlag args "--payload")
                  (resolveGroupAddress env to (SessionStore.getActive (sessions w0))
                     (sender args)) w0) as H.
    cbv zeta in H. destruct (sendAll _ _ _ _ _ _ _ _ w0) as [w1 ids1].
    injection Hrun as <- <-. cbn [fst snd] in H.
    destruct H as (_ & _ & Hoff & Hon). split.
    + intros Hnudged recipient Hr.
      destruct (proj1 (Hon (proj2 Hiff Hnudged) recipient) Hr) as (newId & Hi & Hl).
      exists newId. split; [exact Hi|]. rewrite Hl, Hn0. reflexivity.
    + intros Hnot. rewrite Hoff, Hp0; [reflexivity|].
      destruct (shouldNudge priority type); [|reflexivity].
      exfalso. apply Hnot. apply Hiff. reflexivity.
  - pose proof (sendOne_marker env false (sender args) to subject body type priority
                  (getFlag args "--payload") w0) as H.
    cbv zeta in H. destruct (sendOne _ _ _ _ _ _ _ _ _ w0) as [w1 id1].
    injection Hrun as <- <-. cbn [fst snd] in H.
    destruct H as (_ & _ & Hp). split.
    + intros Hnudged recipient [<-|[]].
      exists id1. split; [left; reflexivity|].
      rewrite Hp, (proj2 Hiff Hnudged), Hn0. apply lookup_insert_eq.
    + intros Hnot. rewrite Hp, Hp0.
      destruct (shouldNudge priority type); [|reflexivity].
      exfalso. apply Hnot. apply Hiff. reflexivity.
Qed.

(** A worker_done message from a builder to its lead, who had an older
    marker: the marker is replaced. *)
Lemma send_writes_pending_nudge_witness :
  let w := exWorld [] {[ "lead-1" := Some exNudge ]} 5000 in
  let args := ["--to"; "lead-1"; "--subject"; "finished"; "--body"; "all done";
               "--type"; "worker_done"; "--agent"; "builder-2"] in
  pendingNudges (fst (handleSend exEnv args w)) !! "lead-1"
    = Some (Some (mkNudge "builder-2" "worker_done" "finished" "msg-0" 5000)) /\
  exists type priority to subject,
    parseType (default "status" (getFlag args "--type")) = Some type /\
    parsePriority (default "normal" (getFlag args "--priority")) = Some priority /\
    getFlag args "--to" = Some to /\
    getFlag args "--subject" = Some subject /\
    ((priority = PHigh \/ priority = PUrgent \/
      In type [TWorkerDone; TMergeReady; TError; TEscalation; TMergeFailed]) ->
     forall recipient,
       In recipient
         (if isGroupAddress exEnv to
          then resolveGroupAddress exEnv to
                 (SessionStore.getActive
                    (sessions (touchAgentSession exEnv (sender args) w)))
                 (sender args)
          else [to]) ->
       exists newId, In newId ["msg-0"] /\
         pendingNudges (fst (handleSend exEnv args w)) !! recipient
           = Some (markerFor (sender args) subject newId priority type (now w))) /\
    (~ (priority = PHigh \/ priority = PUrgent \/
        In type [TWorkerDone; TMergeReady; TError; TEscalation; TMergeFailed]) ->
     pendingNudges (fst (handleSend exEnv args w)) = pendingNudges w).
Proof.
  cbv zeta. split; [vm_compute; reflexivity|].
  refine (send_writes_pending_nudge exEnv _ _ _ ["msg-0"] _).
  vm_compute. reflexivity.
Defined.

(** ** The heartbeat of mail activity (C8) *)

Lemma find_updateRows n f rows :
  (forall r, agentName (f r) = agentName r) ->
  SessionStore.getByName (SessionStore.updateRows n f rows) n
    = f <$> SessionStore.getByName rows n.
Proof.
  intros Hf. unfold SessionStore.getByName, SessionStore.updateRows.
  induction rows as [|r rows IH]; [reflexivity|]. cbn [map List.find].
  destruct (String.eqb (agentName r) n) eqn:E.
  - rewrite Hf, E. reflexivity.
  - rewrite E. exact IH.
Qed.

(** The row of an agent with a session after its heartbeat. *)
Lemma touch_row env a w s :
  sessionStoreOk env = true ->
  SessionStore.getByName (sessions w) a = Some s ->
  SessionStore.getByName (sessions (touchAgentSession env a w)) a
    = Some (afterTouch (now w) s).
Proof.
  intros Hok Hs. unfold touchAgentSession, afterTouch, heartbeat.
  rewrite Hok, Hs. cbn [negb].
  destruct (state s) eqn:E; cbn [sessions setSessions]; try exact Hs;
    unfold SessionStore.updateState, SessionStore.updateLastActivity;
    rewrite ?find_updateRows by reflexivity; rewrite Hs; reflexivity.
Qed.

Lemma handleSend_sessions env args w :
  parseType (default "status" (getFlag args "--type")) <> None ->
  parsePriority (default "normal" (getFlag args "--priority")) <> None ->
  sessions (fst (handleSend env args w))
    = sessions (touchAgentSession env (sender args) w).
Proof.
  intros Ht Hp. unfold handleSend. fold (sender args).
  destruct (parseType _) as [type|]; [|congruence].
  destruct (parsePriority _) as [priority|]; [|congruence].
  set (w0 := touchAgentSession env (sender args) w).
  destruct (match getFlag args "--payload" with
            | Some p => negb (validJson env p)
            | None => false
            end); [reflexivity|].
  destruct (required (getFlag args "--to")) as [to|]; [|reflexivity].
  destruct (required (getFlag args "--subject")) as [subject|]; [|reflexivity].
  destruct (required (getFlag args "--body")) as [body|]; [|reflexivity].
  destruct (isGroupAddress env to).
  - pose proof (sendAll_marker env (sender args) subject body type priority
                  (getFlag args "--payload")
                  (resolveGroupAddress env to (SessionStore.getActive (sessions w0))
                     (sender args)) w0) as H.
    cbv zeta in H. destruct (sendAll _ _ _ _ _ _ _ _ w0) as [w1 ids1].
    cbn [fst] in *. tauto.
  - pose proof (sendOne_marker env false (sender args) to subject body type priority
                  (getFlag args "--payload") w0) as H.
    cbv zeta in H. destruct (sendOne _ _ _ _ _ _ _ _ _ w0) as [w1 id1].
    cbn [fst] in *. tauto.
Qed.

Lemma handleCheck_sessions env args w :
  checkProceeds args (resolveAgentName env args) w = true ->
  sessions (fst (handleCheck env args w))
    = sessions (touchAgentSession env (resolveAgentName env args) w).
Proof.
  unfold checkProceeds, handleCheck.
  set (a := resolveAgentName env args).
  set (w0 := touchAgentSession env a w).
  assert (forall inject ms,
            sessions
              (fst (let '(w1, pendingNudge) :=
                      if inject : bool then readAndClearPendingNudge a w0
                      else (w0, None) in
                    let '(w2, messages) := clientCheck a w1 in
                    let w3 := match ms : option Z with
                              | Some _ => recordMailCheck a w2
                              | None => w2
                              end in
                    (w3, Returned (messages, pendingNudge))))
            = sessions w0) as Hrest.
  { intros inject ms.
    destruct inject; [|destruct ms; reflexivity].
    destruct (readAndClear_frame a w0) as (_ & Hs & _).
    destruct (readAndClearPendingNudge a w0) as [w1 pn].
    destruct ms; exact Hs. }
  destruct (getFlag args "--debounce") as [flag|];
    [|intros _; exact (Hrest (hasFlag args "--inject") None)].
  destruct (parseInt flag) as [ms|]; [|discriminate].
  destruct (ms <? 0); [discriminate|]. cbn [negb andb].
  destruct (isMailCheckDebounced a ms w); [discriminate|].
  intros _. exact (Hrest (hasFlag args "--inject") (Some ms)).
Qed.

Lemma handleReply_sessions env args w :
  sessions (fst (handleReply env args w))
    = sessions (touchAgentSession env (sender args) w).
Proof.
  unfold handleReply. fold (sender args).
  set (w0 := touchAgentSession env (sender args) w).
  destruct (required (head _)) as [i|]; [|reflexivity].
  destruct (required (getFlag args "--body")) as [body|]; [|reflexivity].
  unfold clientReply.
  destruct (List.find _ (mail w0)) as [original|]; reflexivity.
Qed.

(** C8 as the spec states it fails: a completed session sends mail; the send
    succeeds and the row of the sender is left as it was, its lastActivity
    still 0 at time 5000. *)
Lemma send_leaves_completed_session :
  let a := exSession "a" "builder" Completed in
  let w := exWorld [a] ∅ 5000 in
  let r := handleSend exEnv
             ["--to"; "b"; "--subject"; "hello"; "--body"; "x"; "--agent"; "a"] w in
  snd r = Returned ["msg-0"] /\
  sessions (fst r) = [a] /\ lastActivity a = 0 /\ now w = 5000.
Proof. cbv zeta. repeat split; vm_compute; reflexivity. Qed.

(** C8, amended: for an agent [A] with a session [s], the session store
    being available: after a send by [A] with a valid type and priority, a
    check by [A] that passes the debounce gate, or a reply by [A], the row of
    [A] is [s] itself when [s] is zombie or completed, and otherwise [s]
    with lastActivity the current time and with state working when it was
    booting or stalled (its state is kept otherwise). *)
Theorem mail_activity_is_a_heartbeat env w A s :
  sessionStoreOk env = true ->
  SessionStore.getByName (sessions w) A = Some s ->
  let row w' := SessionStore.getByName (sessions w') A in
  (forall args,
     sender args = A ->
     parseType (default "status" (getFlag args "--type")) <> None ->
     parsePriority (default "normal" (getFlag args "--priority")) <> None ->
     row (fst (handleSend env args w)) = Some (afterTouch (now w) s)) /\
  (forall args,
     resolveAgentName env args = A ->
     checkProceeds args A w = true ->
     row (fst (handleCheck env args w)) = Some (afterTouch (now w) s)) /\
  (forall args,
     sender args = A ->
     row (fst (handleReply env args w)) = Some (afterTouch (now w) s)) /\
  (state s = Zombie \/ state s = Completed -> afterTouch (now w) s = s) /\
  (state s <> Zombie -> state s <> Completed ->
   lastActivity (afterTouch (now w) s) = now w /\
   state (afterTouch (now w) s)
     = match state s with Booting | Stalled => Working | st => st end).
Proof.
  intros Hok Hs row. unfold row. repeat split.
  - intros args <- Ht Hp. rewrite handleSend_sessions by assumption.
    apply touch_row; assumption.
  - intros args <- Hc. rewrite handleCheck_sessions by assumption.
    apply touch_row; assumption.
  - intros args <-. rewrite handleReply_sessions. apply touch_row; assumption.
  - unfold afterTouch. intros [->| ->]; reflexivity.
  - unfold afterTouch, heartbeat. destruct (state s); try congruence; reflexivity.
  - unfold afterTouch, heartbeat. destruct (state s) eqn:E; try congruence;
      cbn; try rewrite E; reflexivity.
Qed.

(** A stalled builder checks its inbox at time 5000. *)
Lemma mail_activity_is_a_heartbeat_witness :
  let a := exSession "a" "builder" Stalled in
  let w := exWorld [a] ∅ 5000 in
  (map state (sessions (fst (handleCheck exEnv ["--agent"; "a"] w))) = [Working] /\
   map lastActivity (sessions (fst (handleCheck exEnv ["--agent"; "a"] w)))
     = [5000]) /\
  SessionStore.getByName
    (sessions (fst (handleCheck exEnv ["--agent"; "a"] w))) "a"
    = Some (afterTouch (now w) a).
Proof.
  cbv zeta. split; [split; vm_compute; reflexivity|].
  refine (proj1 (proj2 (mail_activity_is_a_heartbeat exEnv
                          (exWorld [exSession "a" "builder" Stalled] ∅ 5000)
                          "a" (exSession "a" "builder" Stalled) _ _))
            ["--agent"; "a"] _ _).
  - reflexivity.
  - reflexivity.
  - reflexivity.
  - reflexivity.
Defined.

(** ** Who wakes on a pending nudge (C9) *)

Lemma wakesOnNudge_iff capability agent :
  wakesOnNudge capability agent = true <->
  capability = Some "coordinator" \/ capability = Some "lead" \/
  agent = "coordinator".
Proof.
  unfold wakesOnNudge. rewrite orb_true_iff, String.eqb_eq.
  destruct capability as [c|].
  - rewrite orb_true_iff, !String.eqb_eq. split.
    + intros [[->| ->]| ->]; auto.
    + intros [[= ->]|[[= ->]| ->]]; auto.
  - split; [intros [[=]| ->]; auto|intros [[=]|[[=]| ->]]; auto].
Qed.

Lemma waitOptions_wake env args w options :
  waitOptions env args w = Returned options ->
  agent options = resolveAgentName env args /\
  wakeOnPendingNudge options
    = wakesOnNudge (resolveAgentCapability env (resolveAgentName env args) w)
        (resolveAgentName env args).
Proof.
  unfold waitOptions.
  repeat match goal with
         | |- context [match ?x with _ => _ end] =>
             lazymatch x with
             | context [match _ with _ => _ end] => fail
             | _ => destruct x; try discriminate
             end
         end.
  all: intros [= <-]; split; reflexivity.
Qed.

(** C9 as the spec states it fails: an agent named coordinator whose
    recorded capability is builder, and one with no recorded session at
    all, wake on the pending nudge; the wait returns nudged and the
    marker is gone. *)
Lemma coordinator_name_wakes_on_nudge :
  let nudges : gmap string (option PendingNudge) :=
    {[ "coordinator" := Some exNudge ]} in
  let w := exWorld [exSession "coordinator" "builder" Working] nudges 0 in
  let w0 := exWorld [] nudges 0 in
  let waited w :=
    handleWait 1 exEnv ["--agent"; "coordinator"] w in
  let wakes r :=
    match r with
    | Some (w', Returned res) =>
        status res = StNudged /\ nudge res = Some exNudge /\
        pendingNudges w' !! "coordinator" = None
    | _ => False
    end in
  resolveAgentCapability exEnv "coordinator" w = Some "builder" /\
  resolveAgentCapability exEnv "coordinator" w0 = None /\
  wakes (waited w) /\ wakes (waited w0).
Proof.
  cbv zeta. repeat split; vm_compute; reflexivity.
Qed.

(** C9, amended: the wait wakes on a pending nudge exactly when the
    recorded capability of the agent is coordinator or lead, or the agent
    itself is named coordinator: that is the flag [handleWait] gives the
    wait.  Without the flag an iteration of the wait leaves every pending
    nudge marker in place and returns no nudge, so it ends with message,
    timeout or cancelled only, or sleeps. *)
Theorem wake_on_nudge_by_role env args w options :
  (wakesOnNudge (resolveAgentCapability env (resolveAgentName env args) w)
     (resolveAgentName env args) = true <->
   resolveAgentCapability env (resolveAgentName env args) w = Some "coordinator" \/
   resolveAgentCapability env (resolveAgentName env args) w = Some "lead" \/
   resolveAgentName env args = "coordinator") /\
  (waitOptions env args w = Returned options ->
   wakeOnPendingNudge options
     = wakesOnNudge (resolveAgentCapability env (resolveAgentName env args) w)
         (resolveAgentName env args)) /\
  (wakeOnPendingNudge options = false ->
   forall startedAt pollMs polls w0,
     let r := waitIteration env options startedAt pollMs polls w0 in
     pendingNudges (fst r) = pendingNudges w0 /\
     match snd r with
     | Return res => status res <> StNudged /\ nudge res = None
     | Sleep _ _ _ => True
     end).
Proof.
  split; [apply wakesOnNudge_iff|]. split.
  - intros H. apply (waitOptions_wake env args w options H).
  - intros Hoff startedAt pollMs polls w0. cbv zeta. unfold waitIteration.
    rewrite Hoff.
    destruct (cancelRequested options w0); [split; [reflexivity|split; [discriminate|reflexivity]]|].
    unfold clientCheck.
    destruct (touch_frame env (agent options)
                (setMail (map (fun m => if unreadFor (agent options) m
                                        then markRead m else m) (mail w0)) w0))
      as (_ & Hp & _).
    destruct (0 <? length (List.filter (unreadFor (agent options)) (mail w0)))%nat;
      [split; [exact Hp|split; [discriminate|reflexivity]]|].
    destruct (timeoutMs options <=? _);
      (split; [exact Hp|]); [split; [discriminate|reflexivity]|exact I].
Qed.

End MailFacts.

(** * The scenarios of the spec, run through the model *)

Module Scenarios.
Import Watchdog WatchdogSpec WatchdogExamples.

(** Scenario 1, dead terminal: the session becomes zombie with its
    escalation reset, and a tier-0 failure is recorded. *)
Example scenario_dead_terminal :
  let s := exSession "a" EmptyString Working 0 0 None in
  let w' := fst (runDaemonTick (exEnvClosed 0 []) (exWorld [s])) in
  map (fun r => (state r, escalationLevel r, stalledSince r)) (store w')
    = [(Zombie, 0, None)] /\
  List.filter (fun e => match e with Failure _ _ _ _ _ => true | _ => false end)
    (trace w')
    = [Failure "a" "builder" "terminal is dead: process terminated" 0 None].
Proof. cbv zeta. split; vm_compute; reflexivity. Qed.

(** Scenario 2, stall, nudge, terminate: the levels after the ticks at 0,
    61, 121 and 181 seconds. *)
Example scenario_stall_nudge_terminate :
  let after envs :=
    map (fun r => (state r, escalationLevel r, stalledSince r))
      (store (fst (startDaemon envs (exWorld [quietSession])))) in
  after [exEnv 0] = [(Stalled, 0, Some 0)] /\
  after [exEnv 0; exEnv 61000] = [(Stalled, 1, Some 0)] /\
  after [exEnv 0; exEnv 61000; exEnv 121000] = [(Stalled, 2, Some 0)] /\
  after [exEnv 0; exEnv 61000; exEnv 121000; exEnv 181000] = [(Zombie, 0, None)].
Proof. cbv zeta. repeat split; vm_compute; reflexivity. Qed.

(** Scenario 3, recovery: the stalled session is active again at 30 s; the
    tick at 61 s clears the escalation and the state is working. *)
Example scenario_recovery :
  let w1 := fst (runDaemonTick (exEnv 0) (exWorld [quietSession])) in
  let w2 := mkWorld (SessionStore.updateLastActivity "a" 30000 (store w1))
              (marker w1) (trace w1) in
  map (fun r => (state r, escalationLevel r, stalledSince r))
    (store (fst (runDaemonTick (exEnv 61000) w2)))
    = [(Working, 0, None)].
Proof. cbv zeta. vm_compute. reflexivity. Qed.

End Scenarios.

Module MailScenarios.
Import Mail MailSpec MailExamples.

(** Scenario 5, broadcast fan-out: three active workers and the sender; a
    high-priority send to a group gives three messages and three markers. *)
Example scenario_broadcast :
  let rows := [exSession "x" "lead" Working; exSession "a" "builder" Working;
               exSession "b" "builder" Booting; exSession "c" "scout" Stalled] in
  let r := handleSend exEnv
             ["--to"; "@workers"; "--subject"; "s"; "--body"; "b";
              "--priority"; "high"; "--agent"; "x"] (exWorld rows ∅ 0) in
  snd r = Returned ["msg-0"; "msg-1"; "msg-2"] /\
  map msgTo (mail (fst r)) = ["a"; "b"; "c"] /\
  size (pendingNudges (fst r)) = 3%nat.
Proof. cbv zeta. repeat split; vm_compute; reflexivity. Qed.

(** Scenario 6, the wait returns on a wake: a coordinator waits with a
    timeout of 10 s; after its first sleep a nudge marker is there. *)
Example scenario_wait_wakes :
  let env :=
    mkEnv true true (freshId exEnv) (validJson exEnv) (parseFloat exEnv) None
      (isGroupAddress exEnv) (resolveGroupAddress exEnv)
      (fun w ms => mkWorld (sessions w) (mail w)
                     (<["boss" := Some exNudge]> (pendingNudges w))
                     (mailCheckState w) (files w) (events w) (now w + ms)) in
  let w := exWorld [exSession "boss" "coordinator" Working] ∅ 0 in
  match handleWait 5 env ["--agent"; "boss"; "--timeout-ms"; "10000"] w with
  | Some (w', Returned r) =>
      status r = StNudged /\ messages r = [] /\ nudge r = Some exNudge /\
      waitedMs r = 1000 /\ polls r = 2%nat /\ pendingNudges w' = ∅
  | _ => False
  end.
Proof. cbv zeta. vm_compute. repeat split; reflexivity. Qed.

(** A builder waits while a marker is pending for it: the wait times out
    and the marker stays. *)
Example builder_wait_keeps_marker :
  let w := exWorld [exSession "b" "builder" Working] {[ "b" := Some exNudge ]} 0 in
  match handleWait 5 exEnv ["--agent"; "b"; "--timeout-ms"; "1500"] w with
  | Some (w', Returned r) =>
      status r = StTimeout /\ nudge r = None /\
      pendingNudges w' !! "b" = Some (Some exNudge)
  | _ => False
  end.
Proof. cbv zeta. vm_compute. repeat split; reflexivity. Qed.

End MailScenarios.

(** * Further properties of the watchdog *)

Module WatchdogLaws.
Import Watchdog WatchdogSpec WatchdogExamples WatchdogFacts WatchdogTerms.
Local Open Scope daemon_scope.

(** ** Code that does not throw *)

Lemma returns_ret {A} (a : A) : returns (ret a).
Proof. intros w. discriminate. Qed.

Lemma returns_emit e : returns (emit e).
Proof. intros w. discriminate. Qed.

Lemma returns_bind {A B} (m : M A) (k : A -> M B) :
  returns m -> (forall a, returns (k a)) -> returns (bind m k).
Proof.
  intros Hm Hk w. unfold bind. specialize (Hm w).
  destruct (m w) as [w1 [a|]]; [apply Hk|contradiction].
Qed.

Lemma returns_tryCatch (m : M unit) : returns (tryCatch m).
Proof. intros w. discriminate. Qed.

Lemma returns_recordEvent env e : returns (recordEvent env e).
Proof.
  unfold recordEvent. destruct (eventStore env) as [acc|]; [destruct (acc e)|];
    auto using returns_emit, returns_ret.
Qed.

Lemma returns_checkRunCompletion env R : returns (checkRunCompletion env R).
Proof.
  intros w. unfold checkRunCompletion.
  repeat match goal with
         | |- context [if ?c then _ else _] => destruct c; try discriminate
         end.
  unfold bind, tryCatch, callNudge, emit, ret, recordEvent, writeMarker.
  cbn. destruct (eventStore env) as [acc|]; [destruct (acc _)|];
    cbn; discriminate.
Qed.

(** ** The run-completion detector *)

(** X2: The run-completion check returns normally whatever its collaborators
    do (the nudge sender may throw, the event store may be missing or reject
    the event, the marker file may be unreadable or unwritable); it never
    writes the session store and only appends to the trace. *)
Theorem run_completion_check_never_throws env R w :
  snd (checkRunCompletion env R w) = Some tt /\
  store (fst (checkRunCompletion env R w)) = store w /\
  exists tr, trace (fst (checkRunCompletion env R w)) = trace w ++ tr.
Proof.
  split; [|split].
  - pose proof (returns_checkRunCompletion env R w) as H.
    destruct (snd (checkRunCompletion env R w)) as [[]|]; [reflexivity|contradiction].
  - apply checkRunCompletion_store.
  - destruct (workersOf R w) as [|x ws] eqn:E.
    { rewrite checkRunCompletion_skips by (left; exact E).
      exists []. symmetry. apply app_nil_r. }
    destruct (forallb (fun s => AgentState_eqb (state s) Completed) (workersOf R w))
      eqn:Hall.
    2:{ rewrite checkRunCompletion_skips by (right; left; exact Hall).
        exists []. symmetry. apply app_nil_r. }
    destruct (alreadyNotified env w R) eqn:Hn.
    { rewrite checkRunCompletion_skips by (right; right; exact Hn).
      exists []. symmetry. apply app_nil_r. }
    rewrite checkRunCompletion_fires; [|congruence|exact Hall|exact Hn].
    eexists. reflexivity.
Qed.

Lemma tickBody_completed env ss s w :
  state s = Completed -> tickBody env ss s w = (w, Some tt).
Proof.
  intros H. unfold tickBody, processSession. rewrite H. reflexivity.
Qed.

Lemma forEach_completed env ss l w :
  Forall (fun s => state s = Completed) l ->
  forEach (tickBody env ss) l w = (w, Some tt).
Proof.
  induction 1 as [|x l Hx _ IH]; [reflexivity|].
  cbn [forEach]. unfold bind. rewrite (tickBody_completed _ _ _ _ Hx). exact IH.
Qed.

Lemma forallb_completed l :
  Forall (fun s => state s = Completed) l ->
  forallb (fun s => AgentState_eqb (state s) Completed) l = true.
Proof.
  induction 1 as [|x l Hx _ IH]; [reflexivity|].
  cbn. rewrite Hx, IH. reflexivity.
Qed.

Lemma workers_completed R w :
  Forall (fun s => state s = Completed) (store w) ->
  Forall (fun s => state s = Completed) (workersOf R w).
Proof.
  intros H. unfold workersOf, SessionStore.getByRun.
  apply List.Forall_forall. intros s Hs.
  apply filter_In in Hs. destruct Hs as [Hs _].
  apply filter_In in Hs. destruct Hs as [Hs _].
  rewrite List.Forall_forall in H. auto.
Qed.

(** ** What a tick leaves alone *)

Lemma sameIdentity_refl r : sameIdentity r r.
Proof. unfold sameIdentity. repeat split. Qed.

Lemma sameIdentity_trans r1 r2 r3 :
  sameIdentity r1 r2 -> sameIdentity r2 r3 -> sameIdentity r1 r3.
Proof.
  unfold sameIdentity. intros H1 H2.
  decompose [and] H1. decompose [and] H2. repeat split; congruence.
Qed.

Lemma statusOnly_ret {A} (a : A) : statusOnly (ret a).
Proof.
  intros w. exists (fun r => r). split; [apply sameIdentity_refl|].
  symmetry. apply map_id.
Qed.

Lemma statusOnly_throw {A} : statusOnly (@throw A).
Proof. exact (statusOnly_ret tt). Qed.

Lemma statusOnly_emit e : statusOnly (emit e).
Proof. exact (statusOnly_ret tt). Qed.

Lemma statusOnly_neutral {A} (m : M A) : neutral m -> statusOnly m.
Proof.
  intros Hm w. destruct (Hm w) as [Hs _]. exists (fun r => r).
  split; [apply sameIdentity_refl|]. rewrite Hs. symmetry. apply map_id.
Qed.

Lemma statusOnly_storeWrite env op : statusOnly (storeWrite env op).
Proof.
  intros w. unfold storeWrite.
  destruct (storeThrows env op); [apply (statusOnly_ret tt)|].
  cbn [fst store].
  destruct op as [n st|n lvl since]; cbn [applyOp];
    unfold SessionStore.updateState, SessionStore.updateEscalation,
      SessionStore.updateRows;
    eexists; (split; [|reflexivity]); intros r; cbv beta;
    destruct (String.eqb (agentName r) n);
    unfold sameIdentity; repeat split.
Qed.

Lemma statusOnly_bind {A B} (m : M A) (k : A -> M B) :
  statusOnly m -> (forall a, statusOnly (k a)) -> statusOnly (bind m k).
Proof.
  intros Hm Hk w. unfold bind. specialize (Hm w).
  destruct (m w) as [w1 [a|]]; cbn [fst] in *; [|exact Hm].
  destruct Hm as (f1 & Hf1 & Hs1). destruct (Hk a w1) as (f2 & Hf2 & Hs2).
  exists (fun r => f2 (f1 r)). split.
  - intros r. eapply sameIdentity_trans; [apply Hf1|apply Hf2].
  - rewrite Hs2, Hs1. apply map_map.
Qed.

Ltac statusOnly_step :=
  lazymatch goal with
  | |- statusOnly (ret _) => apply statusOnly_ret
  | |- statusOnly throw => apply statusOnly_throw
  | |- statusOnly (storeWrite _ _) => apply statusOnly_storeWrite
  | |- statusOnly (bind _ _) => apply statusOnly_bind; [|intros ?]
  | |- statusOnly (Watchdog.updateState _ _ _) => unfold Watchdog.updateState
  | |- statusOnly (Watchdog.updateEscalation _ _ _ _) => unfold Watchdog.updateEscalation
  | |- statusOnly (trackStall _ _ _) => unfold trackStall
  | |- statusOnly (escalate _ _ _ _) => unfold escalate
  | |- statusOnly (processSession _ _ _ _) => unfold processSession
  | |- statusOnly ?m =>
      first [ apply statusOnly_neutral; solve [repeat neutral_step]
            | lazymatch m with
              | (if ?c then _ else _) => destruct c
              | (match ?x with _ => _ end) => destruct x
              end ]
  end; cbv beta zeta; cbn [fst snd].

Lemma statusOnly_processSession env run closed s :
  statusOnly (processSession env run closed s).
Proof. repeat statusOnly_step. Qed.

Lemma statusOnly_forEach env ss l : statusOnly (forEach (tickBody env ss) l).
Proof.
  induction l as [|x l IH]; cbn [forEach]; [apply statusOnly_ret|].
  apply statusOnly_bind; [|intros _; exact IH].
  unfold tickBody. apply statusOnly_bind;
    [apply statusOnly_processSession|intros _; apply statusOnly_ret].
Qed.

(** X4: A tick, whether it returns or throws, adds and removes no row of the
    session store and writes nothing but the state, the escalation level and
    stalledSince: in particular it never changes a session's lastActivity,
    capability, bead or terminal. *)
Theorem tick_writes_status_fields_only env w :
  Forall2 sameIdentity (store w) (store (fst (runDaemonTick env w))).
Proof.
  assert (statusOnly (runDaemonTick env)) as H.
  { intros w0. unfold runDaemonTick.
    apply statusOnly_bind; [apply statusOnly_forEach|intros _].
    destruct (readCurrentRunId env) as [R|]; [|apply statusOnly_ret].
    intros w1. exists (fun r => r). split; [apply sameIdentity_refl|].
    rewrite checkRunCompletion_store. symmetry. apply map_id. }
  destruct (H w) as (f & Hf & ->).
  induction (store w) as [|r rows IH]; constructor; auto.
Qed.

(** The iterations of a loop write rows of sessions that are not completed only. *)
Lemma forEach_framed_active env ss l :
  framed (fun n => exists s, In s l /\ agentName s = n /\ state s <> Completed)
    (forEach (tickBody env ss) l).
Proof.
  induction l as [|x l IH]; cbn [forEach]; [apply framed_ret|].
  apply framed_bind.
  - destruct (AgentState_eqb (state x) Completed) eqn:E.
    + apply AgentState_eqb_eq in E. intros w.
      rewrite (tickBody_completed env ss x w E).
      exact (framed_ret (fun n => exists s, In s (x :: l) /\ agentName s = n /\ state s <> Completed) tt w).
    + eapply framed_weaken; [|apply tickBody_framed].
      intros n ->. exists x. split; [left; reflexivity|]. split; [reflexivity|].
      intros Hc. apply AgentState_eqb_eq in Hc. congruence.
  - intros _. eapply framed_weaken; [|exact IH].
    intros n (s & Hs & Hn & Hst). exists s. split; [right; exact Hs|]. auto.
Qed.

Lemma tick_keeps_completed_row env w s :
  In s (store w) ->
  (forall s', In s' (store w) -> agentName s' = agentName s -> state s' = Completed) ->
  In s (store (fst (runDaemonTick env w))).
Proof.
  intros Hs Hdone.
  assert (store (fst (runDaemonTick env w))
          = store (fst (forEach (tickBody env (store w)) (store w) w))) as ->.
  { unfold runDaemonTick, bind, SessionStore.getAll.
    destruct (forEach _ _ w) as [w1 [[]|]]; cbn [fst]; [|reflexivity].
    destruct (readCurrentRunId env) as [R|]; [|reflexivity].
    apply checkRunCompletion_store. }
  destruct (forEach_framed_active env (store w) (store w) w)
    as (_ & _ & (f & _ & Hfo & ->)).
  apply in_map_iff. exists s. split; [|exact Hs].
  apply Hfo. intros (s' & Hs' & Hn & Hst). apply Hst. apply Hdone; assumption.
Qed.

(** X5: Completed sessions are skipped: a tick, whether it returns or throws,
    leaves the row of a completed session exactly as it is, escalation
    fields included (no other session of that name being live). *)
Theorem completed_sessions_are_skipped env w s :
  In s (store w) ->
  (forall s', In s' (store w) -> agentName s' = agentName s -> state s' = Completed) ->
  In s (store (fst (runDaemonTick env w))).
Proof. apply tick_keeps_completed_row. Qed.

Lemma completed_sessions_are_skipped_witness :
  let s := exSession "a" EmptyString Completed 0 2 (Some 5) in
  In s (store (fst (runDaemonTick (exEnv 900000)
                      (exWorld [s; exSession "b" EmptyString Working 0 0 None])))).
Proof.
  cbv zeta.
  refine (completed_sessions_are_skipped (exEnv 900000) (exWorld [_; _]) _ _ _).
  - left. reflexivity.
  - intros s' [<-|[<-|[]]]; [reflexivity|discriminate].
Defined.

(** ** The marker file is the only dedup of the notification *)

(** The workers of a run are kept by a rewriting of the rows that changes
    status fields only and leaves the rows of the workers as they are. *)
Lemma workers_kept R (f : AgentSession -> AgentSession) rows tr0 tr1 m0 m1 :
  (forall r, In r rows -> sameIdentity r (f r)) ->
  (forall r, In r rows -> In r (workersOf R (mkWorld rows m0 tr0)) -> f r = r) ->
  workersOf R (mkWorld (map f rows) m1 tr1) = workersOf R (mkWorld rows m0 tr0).
Proof.
  unfold workersOf, SessionStore.getByRun. cbn [store].
  induction rows as [|r rows IH]; intros Hid Hfix; [reflexivity|].
  assert (List.filter
            (fun s => negb (Js.includes PERSISTENT_CAPABILITIES (capability s)))
            (List.filter
               (fun r0 => match runId r0 with
                          | Some x => String.eqb x R
                          | None => false
                          end) (map f rows))
          = List.filter
              (fun s => negb (Js.includes PERSISTENT_CAPABILITIES (capability s)))
              (List.filter
                 (fun r0 => match runId r0 with
                            | Some x => String.eqb x R
                            | None => false
                            end) rows)) as IH'.
  { apply IH.
    - intros r0 Hr0. apply Hid. right. exact Hr0.
    - intros r0 Hr0 Hw. apply Hfix; [right; exact Hr0|].
      cbn [List.filter]. destruct (match runId r with Some _ => _ | None => _ end);
        cbn [List.filter];
        [destruct (negb _); [right|]; exact Hw|exact Hw]. }
  destruct (Hid r (or_introl eq_refl))
    as (_ & _ & Hcap & _ & _ & _ & _ & _ & _ & _ & Hrun & _).
  cbn [map List.filter]. rewrite Hrun.
  destruct (match runId r with Some x => String.eqb x R | None => false end) eqn:Er;
    [|exact IH'].
  cbn [List.filter]. rewrite Hcap.
  destruct (negb (Js.includes PERSISTENT_CAPABILITIES (capability r))) eqn:Ec;
    [|exact IH'].
  rewrite IH'. f_equal. apply Hfix; [left; reflexivity|].
  cbn [List.filter]. rewrite Er. cbn [List.filter]. rewrite Ec. left. reflexivity.
Qed.

(** X3: The dedup of the completion notification rests on the marker file
    alone.  When the marker cannot be read, or cannot be written and does
    not name the run yet, a tick that returns and finds the workers of the
    run completed (no live row sharing a worker's name) sends the
    notification, whatever was sent before; it leaves the workers as they
    are and, when it cannot write the marker, the marker too: the next such
    tick finds the same and notifies again. *)
Theorem broken_marker_renotifies env R w :
  readCurrentRunId env = Some R ->
  markerReadable env = false \/ (markerWritable env = false /\ notified R w = false) ->
  workersOf R w <> [] ->
  Forall (fun s => state s = Completed) (workersOf R w) ->
  (forall s s', In s (workersOf R w) -> In s' (store w) ->
                agentName s' = agentName s -> state s' = Completed) ->
  snd (runDaemonTick env w) = Some tt ->
  let w' := fst (runDaemonTick env w) in
  completionNudges (trace w') = S (completionNudges (trace w)) /\
  workersOf R w' = workersOf R w /\
  (forall s s', In s (workersOf R w') -> In s' (store w') ->
                agentName s' = agentName s -> state s' = Completed) /\
  (markerWritable env = false -> marker w' = marker w).
Proof.
  intros HR Hbroken Hne Hdone Hnames Hret. cbv zeta.
  destruct (forEach (tickBody env (store w)) (store w) w) as [w1 [[]|]] eqn:Hloop.
  2:{ unfold runDaemonTick, bind, SessionStore.getAll in Hret.
      rewrite Hloop in Hret. discriminate. }
  rewrite (tick_ends_with_check env R w w1 HR Hloop).
  destruct (forEach_framed_active env (store w) (store w) w)
    as (Hmk & (tr & Htr & Heff) & (f & Hfname & Hfo & Hst)).
  destruct (statusOnly_forEach env (store w) (store w) w) as (g & Hg & Hsg).
  rewrite Hloop in *. cbn [fst] in *.
  assert (forall r, In r (store w) -> f r = g r) as Hfg.
  { apply List.map_ext_in_iff. congruence. }
  assert (forall r, In r (workersOf R w) -> In r (store w)) as Hin.
  { intros r Hr. unfold workersOf, SessionStore.getByRun in Hr.
    apply filter_In in Hr. destruct Hr as [Hr _].
    apply filter_In in Hr. tauto. }
  assert (forall r, In r (workersOf R w) -> f r = r) as Hfix.
  { intros r Hr. apply Hfo. intros (s' & Hs' & Hn & Hlive). apply Hlive.
    apply (Hnames r s' Hr Hs' Hn). }
  assert (workersOf R w1 = workersOf R w) as Hw1.
  { destruct w as [rows m0 tr0], w1 as [rows1 m1 tr1]. cbn [store] in *. subst rows1.
    apply workers_kept.
    - intros r Hr. rewrite (Hfg r Hr). apply Hg.
    - intros r _ Hr. apply Hfix. exact Hr. }
  assert (alreadyNotified env w1 R = false) as Hfresh.
  { unfold alreadyNotified. rewrite Hmk. fold (notified R w).
    destruct Hbroken as [->|[_ ->]]; [reflexivity|apply andb_false_r]. }
  rewrite checkRunCompletion_fires;
    [|rewrite Hw1; exact Hne
     |rewrite Hw1; apply forallb_completed; exact Hdone
     |exact Hfresh].
  cbn [fst store marker trace].
  split.
  { rewrite Htr, !completionNudges_app.
    destruct (sessionEffects_count tr Heff) as [-> _].
    destruct (recorded_runComplete env (workersOf R w1) R) as [-> _].
    cbn. lia. }
  assert (forall m tr2, workersOf R (mkWorld (store w1) m tr2) = workersOf R w1) as Hsame
    by (intros; reflexivity).
  rewrite Hsame, Hw1. split; [reflexivity|]. split.
  - intros s s' Hs Hs' Hn. rewrite Hst in Hs'. apply in_map_iff in Hs'.
    destruct Hs' as (r0 & <- & Hr0).
    rewrite Hfname in Hn.
    assert (state r0 = Completed) as Hc by (apply (Hnames s r0 Hs Hr0 Hn)).
    rewrite Hfo; [exact Hc|].
    intros (s2 & Hs2 & Hn2 & Hlive). apply Hlive.
    apply (Hnames s s2 Hs Hs2). congruence.
  - intros ->. exact Hmk.
Qed.

(** Two completed workers and a live coordinator, with a marker file that
    cannot be written: the tick notifies, and so does the next. *)
Lemma broken_marker_renotifies_witness :
  let done n := exSession n EmptyString Completed 0 0 None in
  let coordinator :=
    mkSession "session-c" "coordinator" "coordinator" "/" "main" EmptyString
      "tmux-c" Booting None None 0 (Some "run-1") 0 0 0 None in
  let w := exWorld [done "a"; done "b"; coordinator] in
  let w' := fst (runDaemonTick (exEnvMail 0 0 false) w) in
  completionNudges (trace (fst (runDaemonTick (exEnvMail 60000 0 false) w'))) = 2%nat /\
  completionNudges (trace w') = S (completionNudges (trace w)) /\
  workersOf "run-1" w' = workersOf "run-1" w /\
  (forall s s', In s (workersOf "run-1" w') -> In s' (store w') ->
                agentName s' = agentName s -> state s' = Completed) /\
  (markerWritable (exEnvMail 0 0 false) = false -> marker w' = marker w).
Proof.
  cbv zeta. split; [vm_compute; reflexivity|].
  refine (broken_marker_renotifies (exEnvMail 0 0 false) "run-1"
            (exWorld [_; _; _]) _ _ _ _ _ _).
  - reflexivity.
  - right. split; reflexivity.
  - discriminate.
  - repeat constructor.
  - intros s s' [<-|[<-|[]]] [<-|[<-|[<-|[]]]]; cbn; intros E;
      first [reflexivity | discriminate].
  - vm_compute. reflexivity.
Defined.

(** ** The completion message and the phase of a batch *)

Lemma in_uniq x l : In x (Js.uniq l) <-> In x l.
Proof.
  induction l as [|a l IH]; [reflexivity|]. cbn [Js.uniq In].
  rewrite filter_In, IH. split.
  - intros [H|[H _]]; auto.
  - intros [H|H]; [left; exact H|].
    destruct (String.eqb a x) eqn:E.
    + left. apply String.eqb_eq. exact E.
    + right. split; [exact H|]. reflexivity.
Qed.

Lemma uniq_constant c l :
  l <> [] -> Forall (fun x => x = c) l -> Js.uniq l = [c].
Proof.
  intros Hne Hall. induction Hall as [|x l -> Hall IH]; [congruence|].
  cbn [Js.uniq]. destruct l as [|y l]; [reflexivity|].
  rewrite IH by discriminate. cbn. rewrite String.eqb_refl. reflexivity.
Qed.

Lemma length_insertSorted x l : length (Js.insertSorted x l) = S (length l).
Proof.
  induction l as [|y l IH]; [reflexivity|]. cbn [Js.insertSorted].
  destruct (Js.leb x y); cbn [length]; [reflexivity|]. rewrite IH. reflexivity.
Qed.

Lemma length_sort l : length (Js.sort l) = length l.
Proof.
  unfold Js.sort. induction l as [|x l IH]; [reflexivity|].
  cbn [foldr]. rewrite length_insertSorted. cbn [length]. rewrite IH. reflexivity.
Qed.

Lemma two_distinct_length (x y : string) l :
  In x l -> In y l -> x <> y -> (2 <= length l)%nat.
Proof.
  intros Hx Hy Hne. destruct l as [|a [|b l]]; cbn [length]; [contradiction| |lia].
  destruct Hx as [<-|[]], Hy as [<-|[]]. congruence.
Qed.

(** X6: The phase of a batch of workers.  When every worker has the same
    capability [c], the run_complete event names [c] as its phase and the
    message sent to the coordinator is the one of that phase (scout,
    builder, reviewer, lead, merger), or the generic one with [c] as the
    breakdown.  When two workers differ in capability, the phase is
    ["mixed"] and the message is the generic one, with the capabilities
    sorted in the breakdown. *)
Theorem completion_phase_of_batch ws R :
  (forall c, ws <> [] -> Forall (fun s => capability s = c) ws ->
     evData (runCompleteEvent ws R)
       = RunComplete (length ws) (map agentName ws) [c] c /\
     buildCompletionMessage ws R
       = "[WATCHDOG] All " +:+ pretty (length ws) +:+ " " +:+
         match phaseTail c with
         | Some tail => c +:+ "(s) in run " +:+ R +:+ " have completed. " +:+ tail
         | None => "worker(s) in run " +:+ R +:+ " have completed (" +:+ c
                     +:+ "). Ready for next steps."
         end) /\
  (forall s1 s2, In s1 ws -> In s2 ws -> capability s1 <> capability s2 ->
     (exists n ags caps, evData (runCompleteEvent ws R) = RunComplete n ags caps "mixed") /\
     buildCompletionMessage ws R
       = "[WATCHDOG] All " +:+ pretty (length ws) +:+ " worker(s) in run " +:+ R
           +:+ " have completed ("
           +:+ Js.join ", " (Js.sort (Js.uniq (map capability ws)))
           +:+ "). Ready for next steps.").
Proof.
  split.
  - intros c Hne Hall.
    assert (Js.uniq (map capability ws) = [c]) as Hu.
    { apply uniq_constant.
      - destruct ws; [congruence|discriminate].
      - apply List.Forall_forall. intros x Hx. apply in_map_iff in Hx.
        destruct Hx as (s & <- & Hs). rewrite List.Forall_forall in Hall. auto. }
    unfold runCompleteEvent, buildCompletionMessage. rewrite Hu.
    split; [reflexivity|].
    cbn [length Nat.eqb Js.includes existsb orb Js.sort foldr Js.insertSorted Js.join].
    unfold phaseTail. rewrite !(String.eqb_sym _ c).
    repeat match goal with
           | |- context [String.eqb c ?k] => destruct (String.eqb_spec c k); [subst; reflexivity|]
           end.
    cbn [orb]. reflexivity.
  - intros s1 s2 H1 H2 Hne.
    assert (2 <= length (Js.uniq (map capability ws)))%nat as Hlen.
    { apply (two_distinct_length (capability s1) (capability s2));
        [apply in_uniq, in_map; exact H1|apply in_uniq, in_map; exact H2|exact Hne]. }
    split.
    + unfold runCompleteEvent. cbn [evData].
      pose proof (length_sort (Js.uniq (map capability ws))) as Hs.
      destruct (Js.sort (Js.uniq (map capability ws))) as [|a [|b l]];
        cbn [length] in Hs; try lia; eauto.
    + unfold buildCompletionMessage.
      destruct (Nat.eqb_spec (length (Js.uniq (map capability ws))) 1); [lia|].
      reflexivity.
Qed.

(** ** The actions of the ladder *)

Lemma recorded_no_kill env e : existsb isKill (recorded env e) = false.
Proof.
  unfold recorded. destruct (eventStore env) as [acc|]; [destruct (acc e)|];
    reflexivity.
Qed.

Ltac ladder_facts :=
  intros;
  repeat match goal with
         | H : _ /\ _ |- _ => destruct H
         | H : _ \/ _ |- _ => destruct H
         | H : negb _ = true |- _ => apply negb_true_iff in H
         | H : negb _ = false |- _ => apply negb_false_iff in H
         end;
  try discriminate; try congruence; try lia.

(** X7: The action of the ladder throws at one place only, the triage (level 2
    with tier 1 enabled): the nudge sender's and the kill's failures are
    caught.  It writes neither the session store nor the marker file, and it
    reports termination exactly at a level other than 0, 1 and 2 (the
    terminal level 3) and on the triage verdict "terminate"; the terminal is
    killed only then, and only when the probe found it alive. *)
Theorem ladder_action_throws_only_at_triage env run s alive w :
  let r := executeEscalationAction env run s alive w in
  let atTriage := escalationLevel s = 2 /\ tier1Enabled env = true in
  let verdict := triage env (agentName s) (lastActivity s) in
  (snd r = None <-> atTriage /\ verdict = None) /\
  (snd r = Some true <->
   (atTriage /\ verdict = Some VTerminate) \/
   (escalationLevel s < 0 \/ 3 <= escalationLevel s)) /\
  store (fst r) = store w /\ marker (fst r) = marker w /\
  exists tr, trace (fst r) = trace w ++ tr /\
    (existsb isKill tr = true -> alive = true /\ snd r = Some true).
Proof.
  cbv zeta.
  assert (neutral (executeEscalationAction env run s alive)) as Hn
    by (repeat neutral_step).
  destruct (Hn w) as [Hst Hmk].
  enough (wp (executeEscalationAction env run s alive) w
            (fun w' r =>
               (r = None <->
                (escalationLevel s = 2 /\ tier1Enabled env = true) /\
                triage env (agentName s) (lastActivity s) = None) /\
               (r = Some true <->
                ((escalationLevel s = 2 /\ tier1Enabled env = true) /\
                 triage env (agentName s) (lastActivity s) = Some VTerminate) \/
                (escalationLevel s < 0 \/ 3 <= escalationLevel s)) /\
               exists tr, trace w' = trace w ++ tr /\
                 (existsb isKill tr = true -> alive = true /\ r = Some true)))
    as (H1 & H2 & H3) by tauto.
  clear Hn Hst Hmk. revert w.
  unfold executeEscalationAction. intros w.
  repeat wp_ladder_step.
  all: (split; [split; ladder_facts|split; [split; ladder_facts|]]).
  all: try solve [repeat split; ladder_facts].
  all: try solve [left; repeat split; ladder_facts].
  all: try solve [right; ladder_facts].
  all: rewrite <- ?app_assoc; eexists;
    (split; [first [reflexivity | symmetry; apply app_nil_r]|]).
  all: rewrite ?existsb_app, ?recorded_no_kill; cbn; ladder_facts.
  all: split; reflexivity.
Qed.

(** ** One iteration, by the action of the health check *)

Lemma withState_same s : withState (state s) s = s.
Proof. destruct s. reflexivity. Qed.

Lemma not_completed s : state s <> Completed -> AgentState_eqb (state s) Completed = false.
Proof.
  intros H. destruct (AgentState_eqb (state s) Completed) eqn:E; [|reflexivity].
  apply AgentState_eqb_eq in E. contradiction.
Qed.

(** X8: A session whose health check says terminate (its terminal is dead):
    the failure is recorded with the reconciliation note as its reason
    ("Process terminated" without one), the terminal is killed only when
    the probe found it alive, and then the row is written zombie with its
    escalation reset; nothing else happens (no nudge, no triage, no event). *)
Theorem dead_session_is_terminated env run closed s alive w w' s' :
  state s <> Completed ->
  Js.truthy (beadId s) && Js.includes closed (beadId s) = false ->
  isSessionAlive env (tmuxSession s) = Some alive ->
  hcAction (checkOf env s alive) = ActTerminate ->
  processSession env run closed s w = (w', Some s') ->
  s' = terminated s /\
  store w' = applyOps (transitionWrite env s alive ++
                       [OpUpdateState (agentName s) Zombie;
                        OpUpdateEscalation (agentName s) 0 None]) (store w) /\
  marker w' = marker w /\
  trace w' = trace w ++ [Probe (tmuxSession s)] ++ callback env (checkOf env s alive) ++
             [Failure (agentName s) (capability s)
                (default "Process terminated"
                   (hcReconciliationNote (checkOf env s alive))) 0 None] ++
             (if alive then [Kill (tmuxSession s)] else []).
Proof.
  intros Hst Hbead Hprobe Hact Hrun.
  enough (wp (processSession env run closed s) w
            (fun w' r =>
               match r with
               | None => True
               | Some s' =>
                   s' = terminated s /\
                   store w' = applyOps (transitionWrite env s alive ++
                                        [OpUpdateState (agentName s) Zombie;
                                         OpUpdateEscalation (agentName s) 0 None])
                                (store w) /\
                   marker w' = marker w /\
                   trace w' = trace w ++ [Probe (tmuxSession s)] ++
                              callback env (checkOf env s alive) ++
                              [Failure (agentName s) (capability s)
                                 (default "Process terminated"
                                    (hcReconciliationNote (checkOf env s alive)))
                                 0 None] ++
                              (if alive then [Kill (tmuxSession s)] else [])
               end)) as H by exact (wp_run _ _ _ _ _ H Hrun).
  clear Hrun.
  unfold processSession. rewrite (not_completed _ Hst), Hbead.
  unfold probeSession. rewrite Hprobe.
  unfold checkOf in *. unfold transitionWrite, newStateOf, callback, checkOf.
  apply wp_bind. apply wp_bind. apply wp_emit. apply wp_ret. cbv zeta.
  rewrite Hact.
  repeat wp_trace_step; try exact I.
  all: unfold terminated, applyOps; cbn [fold_left app applyOp default].
  all: rewrite <- ?app_assoc; cbn [app].
  all: repeat split; reflexivity.
Qed.

Lemma dead_session_is_terminated_witness :
  let s := exSession "a" EmptyString Working 0 0 None in
  let env := exEnvClosed 0 [] in
  let r := processSession env (Some "run-1") [] s (exWorld [s]) in
  default s (snd r) = terminated s /\
  store (fst r) = applyOps (transitionWrite env s false ++
                            [OpUpdateState "a" Zombie; OpUpdateEscalation "a" 0 None])
                    [s] /\
  marker (fst r) = None /\
  trace (fst r) = [] ++ [Probe "tmux-a"] ++ callback env (checkOf env s false) ++
                  [Failure "a" "builder"
                     (default "Process terminated"
                        (hcReconciliationNote (checkOf env s false))) 0 None] ++
                  [].
Proof.
  cbv zeta.
  refine (dead_session_is_terminated (exEnvClosed 0 []) (Some "run-1") []
            (exSession "a" EmptyString Working 0 0 None) false (exWorld [_])
            _ _ _ _ _ _ _).
  - discriminate.
  - reflexivity.
  - reflexivity.
  - reflexivity.
  - vm_compute. reflexivity.
Defined.

(** X9: A session whose health check says none or investigate: the tick probes
    the terminal, reports the check to the callback and does nothing else to
    the world outside the store (no kill, no nudge, no triage, no failure
    record, no event).  In the store it writes the state transition, if any,
    and, for a session that was stalled and is healthy again (action none),
    the reset of the escalation. *)
Theorem healthy_session_is_left_alone env run closed s alive w w' s' :
  state s <> Completed ->
  Js.truthy (beadId s) && Js.includes closed (beadId s) = false ->
  isSessionAlive env (tmuxSession s) = Some alive ->
  hcAction (checkOf env s alive) = ActNone \/
  hcAction (checkOf env s alive) = ActInvestigate ->
  processSession env run closed s w = (w', Some s') ->
  let recovered :=
    match hcAction (checkOf env s alive), stalledSince s with
    | ActNone, Some _ => true
    | _, _ => false
    end in
  trace w' = trace w ++ [Probe (tmuxSession s)] ++ callback env (checkOf env s alive) /\
  marker w' = marker w /\
  store w' = applyOps (transitionWrite env s alive ++
                       if recovered then [OpUpdateEscalation (agentName s) 0 None]
                       else []) (store w) /\
  s' = (if recovered then withEscalation 0 None (withState (newStateOf env s alive) s)
        else withState (newStateOf env s alive) s).
Proof.
  intros Hst Hbead Hprobe Hact Hrun.
  enough (wp (processSession env run closed s) w
            (fun w' r =>
               match r with
               | None => True
               | Some s' =>
                   let recovered :=
                     match hcAction (checkOf env s alive), stalledSince s with
                     | ActNone, Some _ => true
                     | _, _ => false
                     end in
                   trace w' = trace w ++ [Probe (tmuxSession s)] ++
                              callback env (checkOf env s alive) /\
                   marker w' = marker w /\
                   store w' = applyOps (transitionWrite env s alive ++
                                if recovered
                                then [OpUpdateEscalation (agentName s) 0 None]
                                else []) (store w) /\
                   s' = (if recovered
                         then withEscalation 0 None (withState (newStateOf env s alive) s)
                         else withState (newStateOf env s alive) s)
               end)) as H by exact (wp_run _ _ _ _ _ H Hrun).
  clear Hrun.
  unfold processSession. rewrite (not_completed _ Hst), Hbead.
  unfold probeSession. rewrite Hprobe.
  unfold checkOf in *. unfold transitionWrite, newStateOf, callback, checkOf.
  apply wp_bind. apply wp_bind. apply wp_emit. apply wp_ret. cbv zeta.
  destruct Hact as [Hact|Hact]; rewrite Hact.
  all: repeat wp_trace_step; try exact I.
  all: unfold applyOps; cbn [fold_left app applyOp].
  all: rewrite <- ?app_assoc, ?app_nil_r; cbn [app].
  all: repeat match goal with
              | H : AgentState_eqb _ _ = true |- _ =>
                  apply AgentState_eqb_eq in H; rewrite ?H
              | H : stalledSince _ = _ |- _ =>
                  cbn [stalledSince withState] in H; rewrite H
              end.
  all: rewrite ?withState_same; cbn [fold_left applyOp].
  all: repeat split; try reflexivity.
Qed.

(** Scenario 3 of the spec: stalled since 0 at level 1, active again at 30 s. *)
Lemma healthy_session_is_left_alone_witness :
  let s := exSession "a" EmptyString Stalled 30000 1 (Some 0) in
  let env := exEnv 61000 in
  let r := processSession env (Some "run-1") [] s (exWorld [s]) in
  map (fun r => (state r, escalationLevel r, stalledSince r)) (store (fst r))
    = [(Working, 0, None)] /\
  trace (fst r) = [] ++ [Probe "tmux-a"] ++ callback env (checkOf env s true) /\
  marker (fst r) = None /\
  store (fst r) = applyOps (transitionWrite env s true ++
                            [OpUpdateEscalation "a" 0 None]) [s] /\
  default s (snd r) = withEscalation 0 None (withState (newStateOf env s true) s).
Proof.
  cbv zeta. split; [vm_compute; reflexivity|].
  refine (healthy_session_is_left_alone (exEnv 61000) (Some "run-1") []
            (exSession "a" EmptyString Stalled 30000 1 (Some 0)) true (exWorld [_])
            _ _ _ _ _ _ _).
  - discriminate.
  - reflexivity.
  - reflexivity.
  - left. reflexivity.
  - vm_compute. reflexivity.
Defined.

(** ** The courtesy nudge of the first stall tick *)

(** X10: Stall tracking calls the nudge sender on the tick that first sees the
    stall only (stalledSince null), and then only when the mail store
    reports unread mail for the agent: the message names the count.  A
    missing or throwing mail store and a throwing nudge sender are
    swallowed; on every later tick stall tracking has no effect outside the
    session store.  It never touches the marker file. *)
Theorem unread_mail_nudge_on_first_stall_only env run s w w' s' :
  trackStall env run s w = (w', Some s') ->
  let name := agentName s in
  let n := unreadCount env name in
  marker w' = marker w /\
  trace w' = trace w ++
    match stalledSince s with
    | Some _ => []
    | None =>
        if (0 <? n)%nat then
          Nudge UnreadMailSite name (unreadMessage n name) true ::
          match nudge env name (unreadMessage n name) with
          | Some delivered =>
              recorded env (mkEvent run name LvWarn (MailPendingNudge n delivered))
          | None => []
          end
        else []
    end.
Proof.
  intros Hrun.
  enough (wp (trackStall env run s) w
            (fun w' r =>
               match r with
               | None => True
               | Some _ =>
                   marker w' = marker w /\
                   trace w' = trace w ++
                     match stalledSince s with
                     | Some _ => []
                     | None =>
                         if (0 <? unreadCount env (agentName s))%nat then
                           Nudge UnreadMailSite (agentName s)
                             (unreadMessage (unreadCount env (agentName s))
                                (agentName s)) true ::
                           match nudge env (agentName s)
                                   (unreadMessage (unreadCount env (agentName s))
                                      (agentName s)) with
                           | Some delivered =>
                               recorded env
                                 (mkEvent run (agentName s) LvWarn
                                    (MailPendingNudge
                                       (unreadCount env (agentName s)) delivered))
                           | None => []
                           end
                         else []
                     end
               end)) as H by exact (wp_run _ _ _ _ _ H Hrun).
  clear Hrun. unfold trackStall, unreadCount.
  repeat wp_ladder_step; try exact I.
  all: cbn [default from_option id]; rewrite <- ?app_assoc, ?app_nil_r; cbn [app].
  all: repeat match goal with
              | H : (0 <? _)%nat = _ |- _ => rewrite H
              | H : nudge _ _ _ = _ |- _ => rewrite H
              end.
  all: rewrite ?app_nil_r; split; reflexivity.
Qed.

Lemma unread_mail_nudge_on_first_stall_only_witness :
  let s := exSession "a" EmptyString Stalled (-660000) 0 None in
  let r := trackStall (exEnvMail 0 2 true) (Some "run-1") s (exWorld [s]) in
  marker (fst r) = None /\
  trace (fst r) = [] ++
    [Nudge UnreadMailSite "a"
       "[WATCHDOG] You have 2 unread mail messages. Run: overstory mail check --agent a"
       true;
     EventInsert (mkEvent (Some "run-1") "a" LvWarn (MailPendingNudge 2 true))].
Proof.
  cbv zeta.
  assert (trackStall (exEnvMail 0 2 true) (Some "run-1")
            (exSession "a" EmptyString Stalled (-660000) 0 None)
            (exWorld [exSession "a" EmptyString Stalled (-660000) 0 None])
          = (fst (trackStall (exEnvMail 0 2 true) (Some "run-1")
                    (exSession "a" EmptyString Stalled (-660000) 0 None)
                    (exWorld [exSession "a" EmptyString Stalled (-660000) 0 None])),
             Some (withEscalation 0 (Some 0)
                     (exSession "a" EmptyString Stalled (-660000) 0 None))))
    as Hrun by (vm_compute; reflexivity).
  exact (unread_mail_nudge_on_first_stall_only _ _ _ _ _ _ Hrun).
Defined.

(** ** The current run *)

(** X11: The run id a tick works with is the trimmed content of current-run.txt:
    never the empty string and never with white space around it; a missing
    or blank file means no run, and then the tick skips the run-completion
    check. *)
Theorem current_run_id_is_trimmed env :
  match readCurrentRunId env with
  | Some R =>
      R <> EmptyString /\ Js.trim R = R /\
      exists text, currentRunFile env = Some text /\ R = Js.trim text
  | None =>
      (currentRunFile env = None \/
       exists text, currentRunFile env = Some text /\ Js.trim text = EmptyString) /\
      forall w, runDaemonTick env w
                = forEach (tickBody env (store w)) (store w) w
  end.
Proof.
  destruct (readCurrentRunId env) as [R|] eqn:E.
  - pose proof (readCurrentRunId_trimmed env R E) as Ht.
    unfold readCurrentRunId in E.
    destruct (currentRunFile env) as [text|]; [|discriminate].
    destruct (Js.trim text) as [|c r] eqn:Et; [discriminate|].
    cbn in E. injection E as <-. split; [discriminate|]. split; [exact Ht|].
    exists text. split; [reflexivity|congruence].
  - split.
    + unfold readCurrentRunId in E.
      destruct (currentRunFile env) as [text|]; [|left; reflexivity].
      right. exists text. split; [reflexivity|].
      destruct (Js.trim text); [reflexivity|discriminate].
    + intros w. unfold runDaemonTick, SessionStore.getAll, bind. rewrite E.
      destruct (forEach _ _ w) as [w1 [[]|]]; reflexivity.
Qed.

(** ** The closed-bead lookup *)

Lemma NoDup_uniq l : NoDup (Js.uniq l).
Proof.
  induction l as [|a l IH]; [constructor|]. cbn [Js.uniq].
  apply NoDup_cons. split.
  - intros Hin. apply list_elem_of_In in Hin. apply filter_In in Hin.
    destruct Hin as [_ Hneq]. rewrite String.eqb_refl in Hneq. discriminate.
  - apply NoDup_ListNoDup. apply List.NoDup_filter. apply NoDup_ListNoDup. exact IH.
Qed.

(** X12: The closed-bead lookup.  Every bead it returns is not the empty string
    and was reported by [bd] with status closed, the command having exited
    with code 0 and printed an array that parses.  When it runs [bd], the
    [--id] argument joins the bead ids that are not blank, each once; it
    does not run [bd] when there is no such id or no [.beads] directory.  It
    fails open: a failing command, a non-zero exit code and an output that
    does not parse give the empty set. *)
Theorem closed_bead_lookup_fails_open benv beadIds :
  let r := Beads.getClosedBeadIds benv beadIds in
  (forall b, In b (Beads.closed r) ->
     b <> EmptyString /\
     exists arg, Beads.spawned r = Some arg /\ reportedClosed benv arg b) /\
  (forall arg, Beads.spawned r = Some arg ->
     Beads.beadsDirExists benv = true /\
     exists ids, arg = Js.join "," ids /\ ids <> [] /\ NoDup ids /\
       forall b, In b ids <-> In b beadIds /\ Beads.nonBlank b = true) /\
  (Beads.spawned r = None <->
   Beads.beadsDirExists benv = false \/ Forall (fun b => Beads.nonBlank b = false) beadIds) /\
  (forall arg, Beads.spawned r = Some arg ->
     (Beads.bdList benv arg = None \/
      (exists code out, Beads.bdList benv arg = Some (code, out) /\ code <> 0) \/
      (exists code, Beads.bdList benv arg = Some (code, None))) ->
     Beads.closed r = []).
Proof.
  cbv zeta. unfold Beads.getClosedBeadIds.
  set (ids := Js.uniq (List.filter Beads.nonBlank beadIds)).
  assert (forall b, In b ids <-> In b beadIds /\ Beads.nonBlank b = true) as Hids.
  { intros b. unfold ids. rewrite in_uniq, filter_In. reflexivity. }
  assert (ids = [] <-> Forall (fun b => Beads.nonBlank b = false) beadIds) as Hempty.
  { split.
    - intros E. apply List.Forall_forall. intros b Hb.
      destruct (Beads.nonBlank b) eqn:Eb; [|reflexivity].
      assert (In b ids) as Hin by (apply Hids; auto). rewrite E in Hin. contradiction.
    - intros Hall. destruct ids as [|b l]; [reflexivity|]. exfalso.
      assert (In b (b :: l)) as Hin by (left; reflexivity).
      apply Hids in Hin. destruct Hin as [Hb Hnb].
      rewrite List.Forall_forall in Hall. rewrite (Hall b Hb) in Hnb. discriminate. }
  destruct (Nat.eqb_spec (length ids) 0) as [Hlen|Hlen].
  { assert (ids = []) as E by (destruct ids; [reflexivity|discriminate]).
    cbn. repeat split; try contradiction; try discriminate.
    right. apply Hempty. exact E. }
  assert (ids <> []) as Hne by (intros E; rewrite E in Hlen; apply Hlen; reflexivity).
  destruct (Beads.beadsDirExists benv) eqn:Hdir; cbn [negb].
  2:{ cbn. repeat split; try contradiction; try discriminate. left. reflexivity. }
  assert (forall cl,
            Beads.spawned (Beads.mkLookup (Some (Js.join "," ids)) cl) = None <->
            true = false \/ Forall (fun b => Beads.nonBlank b = false) beadIds) as Hsp.
  { intros cl. cbn. split; [discriminate|].
    intros [H|H]; [discriminate|apply Hempty in H; contradiction]. }
  assert (forall cl arg,
            Beads.spawned (Beads.mkLookup (Some (Js.join "," ids)) cl) = Some arg ->
            true = true /\
            exists ids0, arg = Js.join "," ids0 /\ ids0 <> [] /\ NoDup ids0 /\
              forall b, In b ids0 <-> In b beadIds /\ Beads.nonBlank b = true) as Harg.
  { intros cl arg [= <-]. split; [reflexivity|]. exists ids.
    split; [reflexivity|]. split; [exact Hne|]. split; [apply NoDup_uniq|exact Hids]. }
  destruct (Beads.bdList benv (Js.join "," ids)) as [[code out]|] eqn:Hbd.
  2:{ split; [intros b []|]. split; [apply Harg|]. split; [apply Hsp|]. reflexivity. }
  destruct (Z.eqb_spec code 0) as [->|Hcode]; cbn [negb].
  2:{ split; [intros b []|]. split; [apply Harg|]. split; [apply Hsp|]. reflexivity. }
  destruct out as [parsed|].
  2:{ split; [intros b []|]. split; [apply Harg|]. split; [apply Hsp|]. reflexivity. }
  split; [|split; [apply Harg|split; [apply Hsp|]]].
  - cbn [Beads.closed Beads.spawned]. intros b Hb.
    unfold Beads.closedOf in Hb. apply (proj1 (in_uniq _ _)) in Hb.
    apply list_elem_of_In in Hb. apply list_elem_of_omap in Hb.
    destruct Hb as (item & Hitem & Hsome). apply list_elem_of_In in Hitem.
    unfold Beads.isClosed in Hsome.
    destruct (Beads.itemId item) as [i|] eqn:Ei; [|discriminate].
    destruct (Beads.itemStatus item) as [st|] eqn:Es; [|discriminate].
    destruct (Js.truthy i) eqn:Et; [|discriminate]. cbn [andb] in Hsome.
    destruct (String.eqb_spec st "closed") as [->|]; [|discriminate].
    injection Hsome as ->. split.
    + intros ->. discriminate.
    + eexists. split; [reflexivity|]. exists parsed, item. auto.
  - cbn [Beads.spawned Beads.closed]. intros arg [= <-] [H|[(c & o & H & Hc)|(c & H)]];
      rewrite Hbd in H; try discriminate.
    injection H as <- <-. contradiction.
Qed.

End WatchdogLaws.

(** * Further properties of the mail command *)

Module MailLaws.
Import Mail MailSpec MailExamples MailFacts MailTerms.

(** ** Flags and positional arguments *)

(** X13: The value of a flag is the argument after its first occurrence, whatever
    that argument is; a flag that is absent, or present as the last argument
    only, has no value. *)
Theorem flag_value_follows_first_occurrence flag pre :
  ~ In flag pre ->
  getFlag pre flag = None /\
  getFlag (pre ++ [flag]) flag = None /\
  forall v post, getFlag (pre ++ flag :: v :: post) flag = Some v.
Proof.
  intros Hpre. induction pre as [|a pre IH]; cbn [getFlag app].
  - rewrite String.eqb_refl. auto.
  - destruct (String.eqb_spec a flag) as [->|Hne].
    + exfalso. apply Hpre. left. reflexivity.
    + apply IH. intros Hin. apply Hpre. right. exact Hin.
Qed.

Lemma flag_value_follows_first_occurrence_witness :
  getFlag ["--to"; "lead-1"] "--body" = None /\
  getFlag (["--to"; "lead-1"] ++ ["--body"]) "--body" = None /\
  forall v post, getFlag (["--to"; "lead-1"] ++ "--body" :: v :: post) "--body" = Some v.
Proof.
  refine (flag_value_follows_first_occurrence "--body" ["--to"; "lead-1"] _).
  intros [H|[H|[]]]; discriminate.
Defined.

Lemma getPositionalArgs_fuel f1 : forall f2 args,
  (length args <= f1)%nat -> (length args <= f2)%nat ->
  getPositionalArgs f1 args = getPositionalArgs f2 args.
Proof.
  induction f1 as [|f1 IH]; intros f2 args H1 H2.
  - destruct args; [|cbn in H1; lia]. destruct f2; reflexivity.
  - destruct args as [|a rest]; [destruct f2; reflexivity|].
    destruct f2 as [|f2]; [cbn in H2; lia|].
    cbn [length] in H1, H2. cbn [getPositionalArgs].
    assert (length (tail rest) <= length rest)%nat as Ht
      by (destruct rest; cbn; lia).
    destruct (startsWithDash a); [destruct (Js.includes BOOLEAN_FLAGS a)|];
      [apply IH; lia|apply IH; lia|f_equal; apply IH; lia].
Qed.

Lemma getPositionalArgs_app pre rest :
  Forall (fun a => startsWithDash a = false) pre ->
  getPositionalArgs (length (pre ++ rest)) (pre ++ rest)
    = pre ++ getPositionalArgs (length rest) rest.
Proof.
  induction 1 as [|a pre Ha _ IH]; [reflexivity|].
  cbn [app length getPositionalArgs]. rewrite Ha, IH. reflexivity.
Qed.

(** X14: The positional arguments, for the loop run to its end ([fuel] at least
    the number of arguments, any such [fuel] giving the same): they are
    arguments, in their order, none starts with a dash, and arguments
    without any flag are all positional.  A boolean flag is skipped alone; any
    other argument that starts with a dash is skipped together with the
    argument after it, whatever that is. *)
Theorem positional_args_skip_flags fuel args :
  (length args <= fuel)%nat ->
  let positional := getPositionalArgs fuel args in
  positional = getPositionalArgs (length args) args /\
  sublist positional args /\
  Forall (fun a => startsWithDash a = false) positional /\
  (forall pre flag rest,
     args = pre ++ flag :: rest ->
     Forall (fun a => startsWithDash a = false) pre ->
     startsWithDash flag = true ->
     positional
       = pre ++ if Js.includes BOOLEAN_FLAGS flag
                then getPositionalArgs (length rest) rest
                else getPositionalArgs (length (tail rest)) (tail rest)).
Proof.
  intros Hfuel. cbv zeta.
  rewrite (getPositionalArgs_fuel fuel (length args) args Hfuel (le_n _)).
  split; [reflexivity|].
  assert (forall n l, (length l <= n)%nat ->
            sublist (getPositionalArgs n l) l /\
            Forall (fun a => startsWithDash a = false) (getPositionalArgs n l)) as H.
  { induction n as [|n IH]; intros l Hl.
    - destruct l; [|cbn in Hl; lia]. split; constructor.
    - destruct l as [|a rest]; [split; constructor|].
      cbn [length] in Hl. cbn [getPositionalArgs].
      assert (length (tail rest) <= n)%nat as Ht by (destruct rest; cbn in *; lia).
      destruct (startsWithDash a) eqn:Ea; [destruct (Js.includes BOOLEAN_FLAGS a)|].
      + destruct (IH rest) as [H1 H2]; [lia|]. split; [apply sublist_cons; exact H1|exact H2].
      + destruct (IH (tail rest) Ht) as [H1 H2]. split; [|exact H2].
        apply sublist_cons. destruct rest as [|b rest]; [exact H1|].
        apply sublist_cons. exact H1.
      + destruct (IH rest) as [H1 H2]; [lia|].
        split; [apply sublist_skip; exact H1|constructor; assumption]. }
  destruct (H (length args) args (le_n _)) as [H1 H2].
  split; [exact H1|]. split; [exact H2|].
  intros pre flag rest -> Hpre Hflag.
  rewrite getPositionalArgs_app by exact Hpre. f_equal.
  cbn [length getPositionalArgs]. rewrite Hflag.
  destruct (Js.includes BOOLEAN_FLAGS flag); [reflexivity|].
  apply getPositionalArgs_fuel; destruct rest; cbn; lia.
Qed.

Lemma positional_args_skip_flags_witness :
  let args := ["msg-1"; "--agent"; "lead-1"; "--json"; "--body"; "done"] in
  getPositionalArgs 6 args = ["msg-1"] /\
  sublist (getPositionalArgs 6 args) args.
Proof.
  cbv zeta. split; [reflexivity|].
  refine (proj1 (proj2 (positional_args_skip_flags 6 _ _))).
  cbn. lia.
Defined.

(** ** The identity of the caller *)

(** X15: The agent of an inbox operation is never the empty string and carries no
    white space around it: the trimmed value of --agent when that is not
    blank, else the trimmed OVERSTORY_AGENT_NAME when that is not blank, else
    "orchestrator". *)
Theorem resolved_agent_name_is_not_blank env args :
  let name := resolveAgentName env args in
  name <> EmptyString /\ Js.trim name = name /\
  (forall v, getFlag args "--agent" = Some v -> Js.trim v <> EmptyString ->
     name = Js.trim v) /\
  ((forall v, getFlag args "--agent" = Some v -> Js.trim v = EmptyString) ->
   (forall e, envAgentName env = Some e -> Js.trim e <> EmptyString ->
      name = Js.trim e) /\
   ((forall e, envAgentName env = Some e -> Js.trim e = EmptyString) ->
    name = "orchestrator")).
Proof.
  cbv zeta. unfold resolveAgentName.
  destruct (getFlag args "--agent") as [v|]; cbn [fmap option_fmap option_map];
    [destruct (Js.trim v) as [|c r] eqn:Ev|];
    try (destruct (envAgentName env) as [e|]; cbn [fmap option_fmap option_map];
         [destruct (Js.trim e) as [|c' r'] eqn:Ee|]).
  all: repeat split; try discriminate; intros.
  all: repeat match goal with
              | H : Some _ = Some _ |- _ => injection H as <-
              | H : forall v, Some ?x = Some v -> _ |- _ => specialize (H x eq_refl)
              end.
  all: try congruence.
  all: match goal with
       | E : Js.trim ?x = String ?c ?r |- Js.trim (String ?c ?r) = String ?c ?r =>
           rewrite <- E; apply WatchdogFacts.trim_idem
       end.
Qed.

(** ** Pending nudge markers *)

(** X16: A pending nudge is delivered once, and only the latest counts: reading
    after a write returns the marker written last, with the time of that
    write, and removes it; a second read finds nothing and changes nothing;
    a marker that does not parse is removed and read as nothing.  Writing and
    reading the marker of one agent leave the markers of all others, the
    mail and the sessions alone. *)
Theorem pending_nudge_is_delivered_once agent w :
  (forall f1 r1 s1 i1 f2 r2 s2 i2,
     readAndClearPendingNudge agent
       (writePendingNudge agent f2 r2 s2 i2 (writePendingNudge agent f1 r1 s1 i1 w))
     = (setPendingNudges (delete agent (pendingNudges w)) w,
        Some (mkNudge f2 r2 s2 i2 (now w)))) /\
  (let w1 := fst (readAndClearPendingNudge agent w) in
   pendingNudges w1 !! agent = None /\
   readAndClearPendingNudge agent w1 = (w1, None)) /\
  (pendingNudges w !! agent = Some None ->
   readAndClearPendingNudge agent w
     = (setPendingNudges (delete agent (pendingNudges w)) w, None)) /\
  (forall other f r s i,
     other <> agent ->
     pendingNudges (writePendingNudge agent f r s i w) !! other
       = pendingNudges w !! other /\
     pendingNudges (fst (readAndClearPendingNudge agent w)) !! other
       = pendingNudges w !! other) /\
  (forall f r s i,
     mail (writePendingNudge agent f r s i w) = mail w /\
     sessions (writePendingNudge agent f r s i w) = sessions w).
Proof.
  split; [|split; [|split; [|split]]].
  - intros. unfold readAndClearPendingNudge, writePendingNudge.
    cbn [pendingNudges setPendingNudges now mail sessions mailCheckState files events].
    rewrite lookup_insert_eq. unfold setPendingNudges. cbn.
    rewrite insert_insert_eq, delete_insert_eq. reflexivity.
  - cbv zeta. unfold readAndClearPendingNudge.
    destruct (pendingNudges w !! agent) as [c|] eqn:E; cbn [fst].
    + cbn [pendingNudges setPendingNudges]. rewrite lookup_delete_eq. auto.
    + rewrite E. auto.
  - intros E. unfold readAndClearPendingNudge. rewrite E. reflexivity.
  - intros other f r s i Hne. split.
    + unfold writePendingNudge. cbn. apply lookup_insert_ne. congruence.
    + unfold readAndClearPendingNudge.
      destruct (pendingNudges w !! agent); cbn; [|reflexivity].
      apply lookup_delete_ne. congruence.
  - intros. split; reflexivity.
Qed.

(** ** The debounce of a mail check *)

Lemma touch_frame_rest env a w :
  mailCheckState (touchAgentSession env a w) = mailCheckState w /\
  files (touchAgentSession env a w) = files w /\
  events (touchAgentSession env a w) = events w.
Proof.
  unfold touchAgentSession.
  destruct (sessionStoreOk env); cbn [negb]; [|auto].
  destruct (SessionStore.getByName (sessions w) a) as [s|]; [|auto].
  destruct (state s); auto.
Qed.

Lemma readAndClear_frame_rest a w :
  mailCheckState (fst (readAndClearPendingNudge a w)) = mailCheckState w /\
  files (fst (readAndClearPendingNudge a w)) = files w /\
  events (fst (readAndClearPendingNudge a w)) = events w.
Proof.
  unfold readAndClearPendingNudge. destruct (pendingNudges w !! a); auto.
Qed.

Lemma readAndClear_touch env a b w :
  snd (readAndClearPendingNudge a (touchAgentSession env b w))
    = snd (readAndClearPendingNudge a w).
Proof.
  destruct (touch_frame env b w) as (_ & Hp & _).
  unfold readAndClearPendingNudge. rewrite Hp.
  destruct (pendingNudges w !! a); reflexivity.
Qed.

(** X17: A check with [--debounce d] ([d] a non-negative integer).  Outside the
    window (no check of this agent recorded, or the last one [d] ms ago or
    more) the check proceeds: it returns the unread mail of the agent (and,
    with --inject, the pending nudge) and records the current time as the
    agent's last check.  Inside the window it is a silent skip that changes
    nothing: no message is marked read, no marker is cleared, no heartbeat
    is written and the recorded time stays. *)
Theorem debounced_check_consumes_nothing env args w flag d :
  getFlag args "--debounce" = Some flag ->
  parseInt flag = Some d ->
  0 <= d ->
  let agent := resolveAgentName env args in
  let r := handleCheck env args w in
  (isMailCheckDebounced agent d w = true <->
   exists t, mailCheckState w !! agent = Some t /\ now w - t < d) /\
  (isMailCheckDebounced agent d w = true -> r = (w, Returned ([], None))) /\
  (isMailCheckDebounced agent d w = false ->
   snd r = Returned (List.filter (unreadFor agent) (mail w),
                     if hasFlag args "--inject"
                     then snd (readAndClearPendingNudge agent w) else None) /\
   mailCheckState (fst r) !! agent = Some (now w) /\
   now (fst r) = now w).
Proof.
  intros Hflag Hparse Hd. cbv zeta.
  split; [|split].
  - unfold isMailCheckDebounced.
    destruct (mailCheckState w !! resolveAgentName env args) as [t|].
    + rewrite Z.ltb_lt. split; [intros H; exists t; auto|intros (t' & [= <-] & H); exact H].
    + split; [discriminate|intros (t & [=] & _)].
  - intros Hdeb. unfold handleCheck. rewrite Hflag, Hparse.
    destruct (Z.ltb_spec d 0); [lia|]. rewrite Hdeb. reflexivity.
  - intros Hdeb. unfold handleCheck. rewrite Hflag, Hparse.
    destruct (Z.ltb_spec d 0); [lia|]. rewrite Hdeb.
    set (a := resolveAgentName env args).
    set (w0 := touchAgentSession env a w).
    destruct (touch_frame env a w) as (Hm0 & _ & Hn0).
    destruct (hasFlag args "--inject").
    + destruct (readAndClear_frame a w0) as (Hm1 & _ & Hn1).
      pose proof (readAndClear_touch env a a w) as Hs. fold w0 in Hs.
      destruct (readAndClearPendingNudge a w0) as [w1 pn]. cbn [fst snd] in *.
      unfold clientCheck, recordMailCheck. cbn.
      rewrite Hm1, Hn1. fold w0. change (mail w0) with (mail (touchAgentSession env a w)).
      rewrite Hm0, Hs. split; [reflexivity|]. split; [|exact Hn0].
      rewrite lookup_insert_eq. f_equal. exact Hn0.
    + unfold clientCheck, recordMailCheck. cbn. fold w0.
      change (mail w0) with (mail (touchAgentSession env a w)).
      rewrite Hm0. split; [reflexivity|]. split; [|exact Hn0].
      rewrite lookup_insert_eq. f_equal. exact Hn0.
Qed.

Lemma debounced_check_consumes_nothing_witness :
  let w := mkWorld [exSession "a" "builder" Working]
             [mkMessage "msg-0" "lead-1" "a" "s" "b" PNormal TStatus None None false 0]
             {[ "a" := Some exNudge ]} {[ "a" := 4000 ]} ∅ [] 4400 in
  let args := ["--agent"; "a"; "--inject"; "--debounce"; "500"] in
  isMailCheckDebounced "a" 500 w = true /\
  handleCheck exEnv args w = (w, Returned ([], None)).
Proof.
  cbv zeta. split; [reflexivity|].
  refine (proj1 (proj2 (debounced_check_consumes_nothing exEnv
                          ["--agent"; "a"; "--inject"; "--debounce"; "500"]
                          _ "500" 500 _ _ _)) _).
  - reflexivity.
  - reflexivity.
  - lia.
  - reflexivity.
Defined.

(** ** Sends *)

Lemma sendOne_mail env broadcast from to subject body type priority payload w :
  let r := sendOne env broadcast from to subject body type priority payload w in
  mail (fst r) = mail w ++
    [sentMessage from subject body type priority payload (now w) to (snd r)] /\
  events (fst r) = events w ++
    (if eventStoreOk env then [mkMailSent from to (snd r) broadcast] else []) /\
  now (fst r) = now w.
Proof.
  cbv zeta. unfold sendOne, clientSend, recordMailSent, writePendingNudge, sentMessage.
  destruct (shouldNudge priority type), (eventStoreOk env); cbn;
    rewrite ?app_nil_r; auto.
Qed.

Lemma sendAll_mail env from subject body type priority payload recipients :
  forall w,
  let r := sendAll env from subject body type priority payload recipients w in
  length (snd r) = length recipients /\
  mail (fst r) = mail w ++
    zip_with (sentMessage from subject body type priority payload (now w))
      recipients (snd r) /\
  events (fst r) = events w ++
    (if eventStoreOk env
     then zip_with (fun to newId => mkMailSent from to newId true) recipients (snd r)
     else []) /\
  now (fst r) = now w.
Proof.
  induction recipients as [|x rest IH]; intros w; cbv zeta; cbn [sendAll].
  - destruct (eventStoreOk env); cbn; rewrite ?app_nil_r; auto.
  - pose proof (sendOne_mail env true from x subject body type priority payload w)
      as (Hm & He & Hn).
    destruct (sendOne env true from x subject body type priority payload w)
      as [w1 id1]. cbn [fst snd] in *.
    specialize (IH w1). cbv zeta in IH.
    destruct (sendAll env from subject body type priority payload rest w1)
      as [w2 ids]. cbn [fst snd] in *.
    destruct IH as (Hl & Hm2 & He2 & Hn2).
    cbn [length zip_with]. rewrite Hl, Hm2, He2, Hm, He, Hn, Hn2.
    rewrite <- !app_assoc. destruct (eventStoreOk env); cbn [app]; auto.
Qed.

(** X18: A send that succeeds appends to the mail store exactly one unread
    message per recipient, in the order of the recipients (the addressee, or
    the members the group address resolves to among the active sessions),
    each with the sender, subject, body, type, priority and payload of the
    command and the current time, and records one mail_sent event per
    message when the event store is available; the ids it returns are those
    of the messages.  A group that resolves to nobody sends nothing, and the
    send still succeeds.  Mail already in the store is left as it is. *)
Theorem send_appends_one_message_per_recipient env args w w' ids :
  handleSend env args w = (w', Returned ids) ->
  exists type priority to subject body,
    parseType (default "status" (getFlag args "--type")) = Some type /\
    parsePriority (default "normal" (getFlag args "--priority")) = Some priority /\
    getFlag args "--to" = Some to /\
    getFlag args "--subject" = Some subject /\
    getFlag args "--body" = Some body /\
    let recipients :=
      if isGroupAddress env to
      then resolveGroupAddress env to
             (SessionStore.getActive (sessions (touchAgentSession env (sender args) w)))
             (sender args)
      else [to] in
    length ids = length recipients /\
    mail w' = mail w ++
      zip_with (sentMessage (sender args) subject body type priority
                  (getFlag args "--payload") (now w)) recipients ids /\
    events w' = events w ++
      (if eventStoreOk env
       then zip_with (fun r newId =>
                        mkMailSent (sender args) r newId (isGroupAddress env to))
              recipients ids
       else []).
Proof.
  unfold handleSend. fold (sender args).
  destruct (parseType _) as [type|]; [|discriminate].
  destruct (parsePriority _) as [priority|]; [|discriminate].
  destruct (touch_frame env (sender args) w) as (Hm0 & _ & Hn0).
  destruct (touch_frame_rest env (sender args) w) as (_ & _ & He0).
  set (w0 := touchAgentSession env (sender args) w) in *.
  destruct (match getFlag args "--payload" with
            | Some p => negb (validJson env p)
            | None => false
            end); [discriminate|].
  destruct (getFlag args "--to") as [[|c0 to']|]; cbn [required]; try discriminate.
  destruct (getFlag args "--subject") as [[|c1 subject']|]; cbn [required];
    try discriminate.
  destruct (getFlag args "--body") as [[|c2 body']|]; cbn [required];
    try discriminate.
  set (to := String c0 to'). set (subject := String c1 subject').
  set (body := String c2 body').
  intros Hrun. exists type, priority, to, subject, body.
  repeat (split; [reflexivity|]). cbv zeta.
  destruct (isGroupAddress env to).
  - pose proof (sendAll_mail env (sender args) subject body type priority
                  (getFlag args "--payload")
                  (resolveGroupAddress env to (SessionStore.getActive (sessions w0))
                     (sender args)) w0) as H.
    cbv zeta in H. destruct (sendAll _ _ _ _ _ _ _ _ w0) as [w1 ids1].
    injection Hrun as <- <-. cbn [fst snd] in H.
    destruct H as (Hl & Hm & He & _). rewrite Hm, He, Hm0, He0, Hn0. auto.
  - pose proof (sendOne_mail env false (sender args) to subject body type priority
                  (getFlag args "--payload") w0) as H.
    cbv zeta in H.
    destruct (sendOne env false _ _ _ _ _ _ _ w0) as [w1 id1].
    cbn [fst snd] in *. injection Hrun as <- <-.
    destruct H as (Hm & He & _).
    rewrite Hm, He, Hm0, He0, Hn0. cbn [length zip_with].
    destruct (eventStoreOk env); auto.
Qed.

(** Scenario 5 of the spec: a broadcast to three active workers. *)
Lemma send_appends_one_message_per_recipient_witness :
  let rows := [exSession "x" "lead" Working; exSession "a" "builder" Working;
               exSession "b" "builder" Booting; exSession "c" "scout" Stalled] in
  let args := ["--to"; "@workers"; "--subject"; "s"; "--body"; "b";
               "--priority"; "high"; "--agent"; "x"] in
  let w := exWorld rows ∅ 0 in
  map msgTo (mail (fst (handleSend exEnv args w))) = ["a"; "b"; "c"] /\
  exists type priority to subject body,
    parseType (default "status" (getFlag args "--type")) = Some type /\
    parsePriority (default "normal" (getFlag args "--priority")) = Some priority /\
    getFlag args "--to" = Some to /\
    getFlag args "--subject" = Some subject /\
    getFlag args "--body" = Some body /\
    let recipients :=
      if isGroupAddress exEnv to
      then resolveGroupAddress exEnv to
             (SessionStore.getActive (sessions (touchAgentSession exEnv (sender args) w)))
             (sender args)
      else [to] in
    length ["msg-0"; "msg-1"; "msg-2"] = length recipients /\
    mail (fst (handleSend exEnv args w)) = mail w ++
      zip_with (sentMessage (sender args) subject body type priority
                  (getFlag args "--payload") (now w)) recipients
        ["msg-0"; "msg-1"; "msg-2"] /\
    events (fst (handleSend exEnv args w)) = events w ++
      (if eventStoreOk exEnv
       then zip_with (fun r newId =>
                        mkMailSent (sender args) r newId (isGroupAddress exEnv to))
              recipients ["msg-0"; "msg-1"; "msg-2"]
       else []).
Proof.
  cbv zeta. split; [vm_compute; reflexivity|].
  refine (send_appends_one_message_per_recipient exEnv _ _ _
            ["msg-0"; "msg-1"; "msg-2"] _).
  vm_compute. reflexivity.
Defined.

(** ** Commands that fail *)

(** X19: A mail command that fails validation persists nothing.  A send throws
    for an unknown type, an unknown priority, a payload that is not JSON and a
    missing or empty --to, --subject or --body, in that order, and never
    with a mail error; a reply throws for a missing message id or body,
    and with a mail error for an unknown message.  Neither adds a message,
    a marker or an event, but both have refreshed the sender's heartbeat
    by then, except for a send with an unknown type or priority, which
    changes nothing at all.  A check throws for a --debounce value that is not
    a non-negative integer, and changes nothing. *)
Theorem failed_mail_command_persists_nothing env args w :
  (forall w' field,
     handleSend env args w = (w', ValidationError field) ->
     In field ["type"; "priority"; "payload"; "to"; "subject"; "body"] /\
     (if String.eqb field "type" || String.eqb field "priority"
      then w' = w else w' = touchAgentSession env (sender args) w) /\
     mail w' = mail w /\ pendingNudges w' = pendingNudges w /\ events w' = events w) /\
  snd (handleSend env args w) <> MailError /\
  (forall w' r,
     handleReply env args w = (w', r) -> (forall replyId, r <> Returned replyId) ->
     (r = ValidationError "id" \/ r = ValidationError "body" \/ r = MailError) /\
     w' = touchAgentSession env (sender args) w /\
     mail w' = mail w /\ pendingNudges w' = pendingNudges w /\ events w' = events w) /\
  (forall w' field,
     handleCheck env args w = (w', ValidationError field) ->
     field = "debounce" /\ w' = w) /\
  snd (handleCheck env args w) <> MailError /\
  (forall fuel w' field,
     handleWait fuel env args w = Some (w', ValidationError field) ->
     In field ["timeout-ms"; "poll-ms"; "max-poll-ms"; "backoff"] /\ w' = w).
Proof.
  destruct (touch_frame env (sender args) w) as (Hm0 & Hp0 & _).
  destruct (touch_frame_rest env (sender args) w) as (_ & _ & He0).
  split; [|split; [|split; [|split; [|split]]]].
  - intros w' field. unfold handleSend. fold (sender args).
    destruct (parseType _) as [type|];
      [|intros [= <- <-]; cbn; auto 10].
    destruct (parsePriority _) as [priority|];
      [|intros [= <- <-]; cbn; auto 10].
    destruct (match getFlag args "--payload" with
              | Some p => negb (validJson env p)
              | None => false
              end); [intros [= <- <-]; cbn; auto 10|].
    destruct (required (getFlag args "--to")) as [to|];
      [|intros [= <- <-]; cbn; auto 10].
    destruct (required (getFlag args "--subject")) as [subject|];
      [|intros [= <- <-]; cbn; auto 10].
    destruct (required (getFlag args "--body")) as [body|];
      [|intros [= <- <-]; cbn; auto 10].
    destruct (isGroupAddress env to).
    + destruct (sendAll _ _ _ _ _ _ _ _ _) as [w1 ids1]. discriminate.
    + destruct (sendOne _ _ _ _ _ _ _ _ _ _) as [w1 id1]. discriminate.
  - unfold handleSend.
    repeat match goal with
           | |- context [match ?x with _ => _ end] =>
               lazymatch x with
               | context [match _ with _ => _ end] => fail
               | _ => destruct x; try discriminate
               end
           end.
  - intros w' r. unfold handleReply. fold (sender args).
    destruct (required (head _)) as [i|]; [|intros [= <- <-] _; auto 10].
    destruct (required (getFlag args "--body")) as [body|];
      [|intros [= <- <-] _; auto 10].
    unfold clientReply.
    destruct (List.find _ _) as [original|]; [|intros [= <- <-] _; auto 10].
    cbn. intros [= <- <-] H. exfalso. eapply H. reflexivity.
  - intros w' field. unfold handleCheck.
    destruct (getFlag args "--debounce") as [flag|].
    + destruct (parseInt flag) as [ms|]; [|intros [= <- <-]; auto].
      destruct (ms <? 0); [intros [= <- <-]; auto|].
      destruct (isMailCheckDebounced _ ms w); [discriminate|].
      destruct (if hasFlag args "--inject" then _ else _) as [w1 pn].
      destruct (clientCheck _ w1) as [w2 ms2]. discriminate.
    + destruct (if hasFlag args "--inject" then _ else _) as [w1 pn].
      destruct (clientCheck _ w1) as [w2 ms2]. discriminate.
  - unfold handleCheck.
    destruct (getFlag args "--debounce") as [flag|].
    + destruct (parseInt flag) as [ms|]; [|discriminate].
      destruct (ms <? 0); [discriminate|].
      destruct (isMailCheckDebounced _ ms w); [discriminate|].
      destruct (if hasFlag args "--inject" then _ else _) as [w1 pn].
      destruct (clientCheck _ w1) as [w2 ms2]. discriminate.
    + destruct (if hasFlag args "--inject" then _ else _) as [w1 pn].
      destruct (clientCheck _ w1) as [w2 ms2]. discriminate.
  - intros fuel w' field. unfold handleWait.
    destruct (waitOptions env args w) as [o|f|] eqn:E.
    + destruct (waitForMail fuel env o w) as [[w1 r]|]; discriminate.
    + intros [= <- <-]. split; [|reflexivity].
      unfold waitOptions in E.
      repeat match type of E with
             | context [match ?x with _ => _ end] =>
                 lazymatch x with
                 | context [match _ with _ => _ end] => fail
                 | _ => destruct x; try discriminate
                 end
             end.
      all: injection E as <-; cbn; auto 10.
    + discriminate.
Qed.

(** ** The long-poll wait *)

Lemma nextPollMs_bounds o p :
  initialPollMs o <= maxPollMs o ->
  initialPollMs o <= p <= maxPollMs o ->
  initialPollMs o <= nextPollMs o p <= maxPollMs o.
Proof. unfold nextPollMs. destruct (Js.floor _); lia. Qed.

Lemma nextPollMs_nonneg o p :
  0 < initialPollMs o <= maxPollMs o -> 0 <= p -> 0 <= nextPollMs o p.
Proof. unfold nextPollMs. destruct (Js.floor _); lia. Qed.

(** One iteration of the wait, without its pattern bindings. *)
Lemma waitIteration_eq env o st p polls w :
  let rd := if wakeOnPendingNudge o
            then readAndClearPendingNudge (agent o) w else (w, None) in
  let inbox := List.filter (unreadFor (agent o)) (mail w) in
  let w3 := touchAgentSession env (agent o) (fst (clientCheck (agent o) (fst rd))) in
  let elapsed := now w - st in
  now w3 = now w /\ files w3 = files w /\
  waitIteration env o st p polls w =
    if cancelRequested o w
    then (w, Return (mkResult StCancelled [] elapsed polls (cancelFile o) None))
    else if (0 <? length inbox)%nat
    then (w3, Return (mkResult StMessage inbox elapsed (S polls) (cancelFile o) (snd rd)))
    else match snd rd with
         | Some _ =>
             (w3, Return (mkResult StNudged [] elapsed (S polls) (cancelFile o) (snd rd)))
         | None =>
             if timeoutMs o <=? elapsed
             then (w3, Return (mkResult StTimeout [] elapsed (S polls) (cancelFile o) None))
             else (w3, Sleep (Z.min p (timeoutMs o - elapsed)) (nextPollMs o p) (S polls))
         end.
Proof.
  cbv zeta. unfold waitIteration.
  set (rd := if wakeOnPendingNudge o
             then readAndClearPendingNudge (agent o) w else (w, None)).
  assert (mail (fst rd) = mail w /\ now (fst rd) = now w /\ files (fst rd) = files w)
    as (Hm & Hn & Hf).
  { unfold rd. destruct (wakeOnPendingNudge o); [|auto].
    destruct (readAndClear_frame (agent o) w) as (? & _ & ?).
    destruct (readAndClear_frame_rest (agent o) w) as (_ & ? & _). auto. }
  destruct (touch_frame env (agent o) (fst (clientCheck (agent o) (fst rd))))
    as (_ & _ & Hn3).
  destruct (touch_frame_rest env (agent o) (fst (clientCheck (agent o) (fst rd))))
    as (_ & Hf3 & _).
  unfold clientCheck in *. cbn [fst snd now files setMail] in *.
  rewrite Hn3, Hf3, Hn, Hf. split; [reflexivity|]. split; [reflexivity|].
  destruct (cancelRequested o w); [reflexivity|].
  destruct rd as [w1 pn]. cbn [fst snd] in *. rewrite ?Hn3, ?Hn, ?Hm.
  reflexivity.
Qed.


(** The loop returns within [fuel] iterations when the time left is at most
    [fuel - 1] first poll intervals. *)
Lemma waitLoop_returns env o st :
  validOptions o -> sleepAdvances env ->
  forall fuel p polls w,
    initialPollMs o <= p <= maxPollMs o ->
    timeoutMs o - (now w - st) <= (Z.of_nat fuel - 1) * initialPollMs o ->
    (1 <= fuel)%nat ->
    exists w' r, waitLoop fuel env o st p polls w = Some (w', r).
Proof.
  intros (Ht & Hi & Hmax & Hb) Hsleep.
  induction fuel as [|fuel IH]; intros p polls w Hp Hrem Hfuel; [lia|].
  cbn [waitLoop].
  destruct (waitIteration_eq env o st p polls w) as (Hn3 & _ & ->).
  cbv zeta in *.
  destruct (cancelRequested o w); [eauto|].
  destruct (0 <? length _)%nat; [eauto|].
  destruct (snd (if wakeOnPendingNudge o then _ else _)); [eauto|].
  destruct (Z.leb_spec (timeoutMs o) (now w - st)) as [Hdone|Hleft]; [eauto|].
  set (w3 := touchAgentSession env (agent o) _) in *.
  set (ms := Z.min p (timeoutMs o - (now w - st))).
  pose proof (Hsleep w3 ms) as Hadv. rewrite Hn3 in Hadv.
  assert (1 <= fuel)%nat as Hf1.
  { destruct fuel; [|lia]. cbn in Hrem. lia. }
  apply IH; [|unfold ms in *; nia|exact Hf1].
  apply nextPollMs_bounds; assumption.
Qed.

Lemma waitLoop_polls env o st : forall fuel p n w w' r,
  waitLoop fuel env o st p n w = Some (w', r) ->
  (polls r <= n + fuel)%nat.
Proof.
  induction fuel as [|fuel IH]; intros p n w w' r; [discriminate|].
  cbn [waitLoop].
  destruct (waitIteration_eq env o st p n w) as (_ & _ & ->). cbv zeta.
  destruct (cancelRequested o w); [intros [= <- <-]; cbn; lia|].
  destruct (0 <? length _)%nat; [intros [= <- <-]; cbn; lia|].
  destruct (snd (if wakeOnPendingNudge o then _ else _)); [intros [= <- <-]; cbn; lia|].
  destruct (timeoutMs o <=? now w - st); [intros [= <- <-]; cbn; lia|].
  intros H. apply IH in H. lia.
Qed.

(** X21: The wait ends.  With options that have passed the validation, and a
    sleep that returns no earlier than asked, the wait returns within
    [fuel] iterations as soon as [fuel - 1] first poll intervals cover the
    timeout, having polled the inbox [fuel] times at most; so does the
    command, which returns the result or the validation error. *)
Theorem mail_wait_ends env o w fuel :
  validOptions o -> sleepAdvances env ->
  timeoutMs o <= (Z.of_nat fuel - 1) * initialPollMs o ->
  (exists w' r, waitForMail fuel env o w = Some (w', r) /\ (polls r <= fuel)%nat) /\
  (forall args,
     waitOptions env args w = Returned o ->
     exists w' r, handleWait fuel env args w = Some (w', Returned r)).
Proof.
  intros Hv Hsleep Hfuel.
  assert (exists w' r, waitForMail fuel env o w = Some (w', r)) as (w' & r & Hrun).
  { unfold waitForMail.
    destruct (touch_frame env (agent o) w) as (_ & _ & Hn).
    destruct Hv as (Ht & Hi & Hmax & Hb).
    apply waitLoop_returns; auto.
    - unfold validOptions. tauto.
    - lia.
    - rewrite Hn. lia.
    - destruct fuel; [|lia]. cbn in Hfuel. lia. }
  split.
  - exists w', r. split; [exact Hrun|].
    unfold waitForMail in Hrun. apply waitLoop_polls in Hrun. lia.
  - intros args Ho. unfold handleWait. rewrite Ho, Hrun. eauto.
Qed.

Lemma mail_wait_ends_witness :
  exists w' r,
    waitForMail 6 exEnv (mkOptions "lead-1" 5000 1000 10000 (Js.literal (15 # 10)) None false)
      (exWorld [] ∅ 0) = Some (w', r) /\ (polls r <= 6)%nat.
Proof.
  refine (proj1 (mail_wait_ends exEnv _ _ 6 _ _ _)).
  - unfold validOptions. cbn. repeat split; try lia; vm_compute; reflexivity.
  - intros w ms. cbn. lia.
  - cbn. lia.
Defined.

Lemma waitLoop_shape env o st : forall fuel p n w w' r,
  st <= now w -> sleepAdvances env -> 0 <= p ->
  (forall q, 0 <= q -> 0 <= nextPollMs o q) ->
  waitLoop fuel env o st p n w = Some (w', r) ->
  resultCancelFile r = cancelFile o /\
  (status r = StMessage <-> messages r <> []) /\
  Forall (fun m => msgTo m = agent o /\ msgRead m = false) (messages r) /\
  (status r = StNudged -> nudge r <> None /\ wakeOnPendingNudge o = true) /\
  (status r = StTimeout \/ status r = StCancelled -> nudge r = None) /\
  (status r = StTimeout -> timeoutMs o <= waitedMs r) /\
  (status r = StCancelled -> cancelRequested o w' = true) /\
  0 <= waitedMs r.
Proof.
  induction fuel as [|fuel IH]; intros p n w w' r Hst Hsleep Hp Hnext;
    [discriminate|].
  cbn [waitLoop].
  destruct (waitIteration_eq env o st p n w) as (Hn3 & Hf3 & ->). cbv zeta in *.
  destruct (cancelRequested o w) eqn:Hc.
  { intros [= <- <-]. cbn. repeat split; intros;
      repeat match goal with H : _ \/ _ |- _ => destruct H end;
      try discriminate; try congruence; try lia; try constructor. }
  destruct (0 <? length (List.filter (unreadFor (agent o)) (mail w)))%nat eqn:Hlen.
  { intros [= <- <-]. cbn.
    assert (Forall (fun m => msgTo m = agent o /\ msgRead m = false)
              (List.filter (unreadFor (agent o)) (mail w))) as Hall.
    { apply List.Forall_forall. intros m Hm. apply filter_In in Hm.
      destruct Hm as [_ Hm]. unfold unreadFor in Hm. apply andb_true_iff in Hm.
      destruct Hm as [H1 H2]. apply String.eqb_eq in H1. apply negb_true_iff in H2.
      auto. }
    assert (List.filter (unreadFor (agent o)) (mail w) <> []) as Hne.
    { intros E. rewrite E in Hlen. discriminate. }
    repeat split; intros;
      repeat match goal with H : _ \/ _ |- _ => destruct H end;
      try discriminate; try assumption; try lia. }
  destruct (snd (if wakeOnPendingNudge o then _ else _)) as [pn|] eqn:Hpn.
  { intros [= <- <-]. cbn.
    assert (wakeOnPendingNudge o = true) as Hw
      by (destruct (wakeOnPendingNudge o); [reflexivity|discriminate]).
    repeat split; intros;
      repeat match goal with H : _ \/ _ |- _ => destruct H end;
      try discriminate; try congruence; try lia; try constructor. }
  destruct (Z.leb_spec (timeoutMs o) (now w - st)).
  { intros [= <- <-]. cbn. repeat split; intros;
      repeat match goal with H : _ \/ _ |- _ => destruct H end;
      try discriminate; try congruence; try lia; try constructor. }
  set (w3 := touchAgentSession env (agent o) _) in *.
  set (ms := Z.min p (timeoutMs o - (now w - st))).
  pose proof (Hsleep w3 ms) as Hadv. rewrite Hn3 in Hadv.
  apply IH; auto. unfold ms in *. lia.
Qed.

(** X22: The result of a wait, whenever it returns one.  Its status is message
    exactly when it carries messages, and these are unread mail addressed
    to the agent; nudged comes with a nudge and no message, and only when
    the wait wakes on pending nudges; timeout and cancelled come with
    neither, timeout not before the timeout has passed, cancelled only with
    the cancel file in place.  The time waited is never negative. *)
Theorem mail_wait_result_shape env o w fuel w' r :
  validOptions o -> sleepAdvances env ->
  waitForMail fuel env o w = Some (w', r) ->
  resultCancelFile r = cancelFile o /\
  (status r = StMessage <-> messages r <> []) /\
  Forall (fun m => msgTo m = agent o /\ msgRead m = false) (messages r) /\
  (status r = StNudged -> nudge r <> None /\ wakeOnPendingNudge o = true) /\
  (status r = StTimeout \/ status r = StCancelled -> nudge r = None) /\
  (status r = StTimeout -> timeoutMs o <= waitedMs r) /\
  (status r = StCancelled -> cancelRequested o w' = true) /\
  0 <= waitedMs r.
Proof.
  intros (Ht & Hi & Hmax & Hb) Hsleep. unfold waitForMail.
  destruct (touch_frame env (agent o) w) as (_ & _ & Hn).
  apply waitLoop_shape; auto; try lia.
  intros q Hq. apply nextPollMs_nonneg; [lia|exact Hq].
Qed.



(** Scenario 6 of the spec: the coordinator's wait wakes on a nudge. *)
Lemma mail_wait_result_shape_witness :
  let env := exEnvWaking "boss" in
  let o := mkOptions "boss" 10000 1000 10000 (Js.literal (15 # 10)) None true in
  let w := exWorld [exSession "boss" "coordinator" Working] ∅ 0 in
  let r := mkResult StNudged [] 1000 2 None (Some exNudge) in
  snd <$> waitForMail 5 env o w = Some r /\
  (status r = StMessage <-> messages r <> []) /\
  (status r = StNudged -> nudge r <> None /\ wakeOnPendingNudge o = true) /\
  0 <= waitedMs r.
Proof.
  cbv zeta.
  assert (snd <$> waitForMail 5 (exEnvWaking "boss")
                    (mkOptions "boss" 10000 1000 10000 (Js.literal (15 # 10)) None true)
                    (exWorld [exSession "boss" "coordinator" Working] ∅ 0)
          = Some (mkResult StNudged [] 1000 2 None (Some exNudge))) as Hr
    by (vm_compute; reflexivity).
  split; [exact Hr|].
  destruct (waitForMail 5 _ _ _) as [[w' r']|] eqn:E; [|discriminate].
  cbn in Hr. injection Hr as ->.
  assert (validOptions (mkOptions "boss" 10000 1000 10000 (Js.literal (15 # 10)) None true)) as Hv
    by (unfold validOptions; cbn; repeat split; try lia; vm_compute; reflexivity).
  assert (sleepAdvances (exEnvWaking "boss")) as Hs by (intros w ms; cbn; lia).
  pose proof (mail_wait_result_shape _ _ _ _ _ _ Hv Hs E) as H.
  tauto.
Defined.

(** ** overstory mail purge *)

(** X24: A purge never runs without a filter: the request reaches the mail store
    only with --all, --agent or --days given, and --days must then parse to a
    positive number of days, which the command converts to milliseconds
    (as doubles); otherwise the command throws a validation error (for the
    missing filter first, then for the days). *)
Theorem purge_needs_a_filter args :
  match MailPurge.purgeRequest args with
  | Returned o =>
      (MailPurge.purgeAll o = true \/ MailPurge.olderThanMs o <> None \/
       MailPurge.purgeAgent o <> None) /\
      MailPurge.purgeAll o = hasFlag args "--all" /\
      MailPurge.purgeAgent o = getFlag args "--agent" /\
      match MailPurge.olderThanMs o with
      | Some ms =>
          exists s days, getFlag args "--days" = Some s /\ parseInt s = Some days /\
                         0 < days /\ ms = MailPurge.daysToMs days
      | None => getFlag args "--days" = None
      end
  | ValidationError field =>
      (field = "purge" /\ hasFlag args "--all" = false /\
       getFlag args "--days" = None /\ getFlag args "--agent" = None) \/
      (field = "days" /\ exists s, getFlag args "--days" = Some s /\
         forall days, parseInt s = Some days -> days <= 0)
  | MailError => False
  end.
Proof.
  unfold MailPurge.purgeRequest.
  destruct (hasFlag args "--all") eqn:Ha;
  destruct (getFlag args "--days") as [s|] eqn:Ed;
  destruct (getFlag args "--agent") as [a|] eqn:Eg; cbn.
  all: try destruct (parseInt s) as [days|] eqn:Ep;
    try destruct (Z.leb_spec days 0); cbn.
  all: try solve [repeat split; auto; try discriminate;
                  try (left; reflexivity);
                  try (right; left; discriminate);
                  try (right; right; discriminate);
                  try (exists s, days; repeat split; auto; lia)].
  all: try solve [right; split; [reflexivity|]; eexists; split; [reflexivity|];
                  intros d Hd;
                  first [ congruence
                        | match goal with
                          | E : parseInt ?x = Some ?v, E' : parseInt ?x = Some ?v' |- _ =>
                              assert (v = v') by congruence
                          end; lia ]].
  all: try solve [left; auto].
Qed.

(** Thirty days are 2592000000 ms; no days at all are refused. *)
Lemma purge_needs_a_filter_witness :
  MailPurge.purgeRequest ["--days"; "30"]
    = Returned (MailPurge.mkPurge false (Some (Js.ofZ 2592000000)) None) /\
  MailPurge.purgeRequest ["--days"; "0"; "--all"] = ValidationError "days" /\
  exists s days,
    getFlag ["--days"; "30"] "--days" = Some s /\ parseInt s = Some days /\
    0 < days /\ Js.ofZ 2592000000 = MailPurge.daysToMs days.
Proof.
  assert (MailPurge.purgeRequest ["--days"; "30"]
          = Returned (MailPurge.mkPurge false (Some (Js.ofZ 2592000000)) None)) as E
    by (vm_compute; reflexivity).
  split; [exact E|]. split; [vm_compute; reflexivity|].
  pose proof (purge_needs_a_filter ["--days"; "30"]) as H.
  rewrite E in H. cbn [MailPurge.olderThanMs] in H.
  destruct H as (_ & _ & _ & H). exact H.
Defined.

End MailLaws.

(** * Properties of the stop command *)

Module StopLaws.
Import Stop StopTerms.

Lemma getByName_name rows n s :
  SessionStore.getByName rows n = Some s -> agentName s = n /\ In s rows.
Proof.
  unfold SessionStore.getByName. intros H. apply find_some in H.
  destruct H as [Hin E]. apply String.eqb_eq in E. auto.
Qed.

Lemma stopped_row_fuse name rows now0 :
  SessionStore.updateLastActivity name now0
    (SessionStore.updateState name Completed rows)
  = SessionStore.updateRows name (stoppedRow now0) rows.
Proof.
  unfold SessionStore.updateLastActivity, SessionStore.updateState,
    SessionStore.updateRows, stoppedRow.
  rewrite map_map. apply map_ext. intros row.
  destruct (String.eqb (agentName row) name) eqn:E; [|rewrite E; reflexivity].
  cbn [agentName withState]. rewrite E. reflexivity.
Qed.

(** X25: What a stop that fails leaves behind.  With any error but one of
    the session store, the store is as before: the stop fails before doing
    anything (no probe, no kill) when no agent is named, the config does not
    load, the agent has no session, or its session is already completed or
    zombie, and after the probe (and the kill, if the terminal was alive)
    when one of these two throws.  With an error of the session store the
    row can be half written: the state and the last activity are two
    calls, so a throw of the second leaves the row completed with its old
    last activity; and a throw of the closing call fails a stop whatever
    it had written, both fields included. *)
Theorem failed_stop_and_the_store env args w w' e :
  stopCommand env args w = (w', Failed e) ->
  match e with
  | ValidationError field =>
      w' = w /\ field = "agentName" /\
      (agentArg args = None \/ agentArg args = Some EmptyString)
  | ConfigError => w' = w /\ loadConfig env = None
  | AgentNotFound =>
      w' = w /\ exists name, agentArg args = Some name /\
                  SessionStore.getByName (sessions w) name = None
  | AgentAlreadyCompleted | AgentAlreadyZombie =>
      w' = w /\ exists name session,
        agentArg args = Some name /\
        SessionStore.getByName (sessions w) name = Some session /\
        state session = (match e with AgentAlreadyZombie => Zombie | _ => Completed end)
  | TmuxError =>
      sessions w' = sessions w /\
      exists name session,
        agentArg args = Some name /\
        SessionStore.getByName (sessions w) name = Some session /\
        ((isSessionAlive env (tmuxSession session) = None /\
          trace w' = trace w ++ [Probe (tmuxSession session)]) \/
         (isSessionAlive env (tmuxSession session) = Some true /\
          killSession env (tmuxSession session) = false /\
          trace w' = trace w ++ [Probe (tmuxSession session); Kill (tmuxSession session)]))
  | StoreError =>
      exists name,
        agentArg args = Some name /\
        ((storeThrows env OpenStore = true /\ w' = w) \/
         (storeThrows env GetByName = true /\ w' = w) \/
         (storeThrows env UpdateState = true /\ sessions w' = sessions w) \/
         (storeThrows env UpdateLastActivity = true /\
          sessions w' = SessionStore.updateState name Completed (sessions w)) \/
         (storeThrows env CloseStore = true /\
          (sessions w' = sessions w \/
           sessions w' = SessionStore.updateState name Completed (sessions w) \/
           sessions w' = SessionStore.updateRows name (stoppedRow (now w))
                           (sessions w))))
  end.
Proof.
  unfold stopCommand, agentArg.
  destruct (Js.includes args "--help" || Js.includes args "-h"); [discriminate|].
  destruct (List.find _ args) as [[|c name]|] eqn:Ea;
    [intros [= <- <-]; auto 10| |intros [= <- <-]; auto 10].
  destruct (loadConfig env) as [root|] eqn:Ec; [|intros [= <- <-]; auto].
  destruct (storeThrows env OpenStore) eqn:Eopen;
    [intros [= <- <-]; exists (String c name); auto|].
  pose proof (stopped_row_fuse (String c name)) as Hfuse.
  unfold finallyClose.
  destruct (storeThrows env CloseStore) eqn:Eclose.
  { intros [= <- <-]. exists (String c name). split; [reflexivity|].
    do 4 right. split; [reflexivity|].
    repeat match goal with
           | |- context [if ?b then _ else _] => destruct b; cbn [fst sessions emit setSessions]
           | |- context [match ?x with _ => _ end] => destruct x; cbn [fst sessions emit setSessions]
           end; rewrite ?Hfuse; auto. }
  destruct (storeThrows env GetByName) eqn:Eget;
    [intros [= <- <-]; exists (String c name); auto 10|].
  destruct (SessionStore.getByName (sessions w) (String c name)) as [session|] eqn:Es;
    [|intros [= <- <-]; split; [reflexivity|]; eauto].
  destruct (state session) eqn:Est.
  3,5: intros [= <- <-]; split; [reflexivity|]; eauto 10.
  all: destruct (isSessionAlive env (tmuxSession session)) as [[|]|] eqn:Ep;
    cbn [andb negb];
    try destruct (killSession env (tmuxSession session)) eqn:Ek; cbn [negb].
  all: destruct (storeThrows env UpdateState) eqn:Eus;
    try destruct (storeThrows env UpdateLastActivity) eqn:Eul;
    try discriminate.
  all: intros [= <- <-]; cbn [sessions trace emit setSessions].
  all: try (exists (String c name); split; [reflexivity|]; auto 10).
  all: split; [reflexivity|].
  all: exists (String c name), session; repeat split; auto.
  all: rewrite <- ?app_assoc; auto.
Qed.

(** The store throws at the write of the last activity: the stop fails and
    the session, stalled before, is left completed with its old last
    activity. *)
Lemma failed_stop_and_the_store_witness :
  let env := exEnvStoreThrows UpdateLastActivity in
  let w := mkWorld [exSession "a" Stalled 2 (Some 100)] [] 5000 in
  map (fun s => (state s, lastActivity s))
    (sessions (fst (stopCommand env ["a"] w))) = [(Completed, 0)] /\
  exists name,
    agentArg ["a"] = Some name /\
    ((storeThrows env OpenStore = true /\ fst (stopCommand env ["a"] w) = w) \/
     (storeThrows env GetByName = true /\ fst (stopCommand env ["a"] w) = w) \/
     (storeThrows env UpdateState = true /\
      sessions (fst (stopCommand env ["a"] w)) = sessions w) \/
     (storeThrows env UpdateLastActivity = true /\
      sessions (fst (stopCommand env ["a"] w))
      = SessionStore.updateState name Completed (sessions w)) \/
     (storeThrows env CloseStore = true /\
      (sessions (fst (stopCommand env ["a"] w)) = sessions w \/
       sessions (fst (stopCommand env ["a"] w))
       = SessionStore.updateState name Completed (sessions w) \/
       sessions (fst (stopCommand env ["a"] w))
       = SessionStore.updateRows name (stoppedRow (now w)) (sessions w)))).
Proof.
  cbv zeta. split; [vm_compute; reflexivity|].
  refine (failed_stop_and_the_store (exEnvStoreThrows UpdateLastActivity) ["a"]
            (mkWorld [exSession "a" Stalled 2 (Some 100)] [] 5000) _ StoreError _).
  reflexivity.
Defined.

Lemma stop_marks_the_session_completed_core env args w w' r :
  stopCommand env args w = (w', Stopped r) ->
  exists session root,
    loadConfig env = Some root /\
    agentArg args = Some (reportAgentName r) /\
    SessionStore.getByName (sessions w) (reportAgentName r) = Some session /\
    state session <> Completed /\ state session <> Zombie /\
    isSessionAlive env (tmuxSession session) = Some (tmuxKilled r) /\
    (tmuxKilled r = true -> killSession env (tmuxSession session) = true) /\
    sessions w' = SessionStore.updateRows (reportAgentName r) (stoppedRow (now w))
                    (sessions w) /\
    let remove := Js.includes args "--clean-worktree" && Js.truthy (worktreePath session) in
    trace w' = trace w ++ [Probe (tmuxSession session)] ++
               (if tmuxKilled r then [Kill (tmuxSession session)] else []) ++
               (if remove
                then [RemoveWorktree root (worktreePath session)
                        (Js.includes args "--force") (Js.includes args "--force")]
                else []) /\
    r = mkReport (reportAgentName r) (sessionId session) (capability session)
          (tmuxKilled r) (remove && removeWorktree env root (worktreePath session))
          (Js.includes args "--force").
Proof.
  unfold stopCommand, agentArg.
  destruct (Js.includes args "--help" || Js.includes args "-h"); [discriminate|].
  destruct (List.find _ args) as [[|c name]|] eqn:Ea; try discriminate.
  destruct (loadConfig env) as [root|] eqn:Ec; [|discriminate].
  destruct (storeThrows env OpenStore); [discriminate|].
  unfold finallyClose.
  destruct (storeThrows env CloseStore); [discriminate|].
  destruct (storeThrows env GetByName); [discriminate|].
  destruct (SessionStore.getByName (sessions w) (String c name)) as [session|] eqn:Es;
    [|discriminate].
  pose proof (stopped_row_fuse (String c name)) as Hfuse.
  destruct (state session) eqn:Est; try discriminate.
  all: destruct (isSessionAlive env (tmuxSession session)) as [[|]|] eqn:Ep;
    cbn [andb negb];
    try destruct (killSession env (tmuxSession session)) eqn:Ek; cbn [negb];
    try discriminate.
  all: destruct (storeThrows env UpdateState); [discriminate|].
  all: destruct (storeThrows env UpdateLastActivity); [discriminate|].
  all: destruct (Js.includes args "--clean-worktree" && Js.truthy (worktreePath session))
    eqn:Er; cbn [andb].
  all: intros [= <- <-]; cbn [sessions trace now emit setSessions reportAgentName
                               tmuxKilled].
  all: exists session, root; cbv zeta;
    rewrite Hfuse, Er, <- ?app_assoc, ?app_nil_r; cbn [andb].
  all: repeat split; auto; try discriminate; congruence.
Qed.

Lemma stopped_without_store_fault env args w w' r :
  stopCommand env args w = (w', Stopped r) ->
  forall call, storeThrows env call = false.
Proof.
  unfold stopCommand, finallyClose.
  destruct (Js.includes args "--help" || Js.includes args "-h"); [discriminate|].
  destruct (List.find _ args) as [[|c name]|]; try discriminate.
  destruct (loadConfig env); [|discriminate].
  destruct (storeThrows env OpenStore) eqn:E1; [discriminate|].
  destruct (storeThrows env CloseStore) eqn:E2; [discriminate|].
  destruct (storeThrows env GetByName) eqn:E3; [discriminate|].
  destruct (SessionStore.getByName (sessions w) (String c name)) as [session|];
    [|discriminate].
  destruct (state session); try discriminate.
  all: destruct (isSessionAlive env (tmuxSession session)) as [[|]|];
    cbn [andb negb];
    try destruct (killSession env (tmuxSession session)); cbn [negb];
    try discriminate.
  all: destruct (storeThrows env UpdateState) eqn:E4; [discriminate|].
  all: destruct (storeThrows env UpdateLastActivity) eqn:E5; [discriminate|].
  all: intros _ [| | | |]; assumption.
Qed.

(** X26: A stop that succeeds.  The agent named has a session that is neither
    completed nor zombie; its terminal is probed and killed exactly when the
    probe finds it alive; then every row of that name is marked completed
    with the current time as its last activity, and nothing else of it is
    written (the escalation level and stalledSince stay).  The worktree is
    removed only with --clean-worktree and a worktree path, after the row is
    written, and a failing removal does not fail the stop. *)
Theorem stop_marks_the_session_completed env args w w' r :
  stopCommand env args w = (w', Stopped r) ->
  exists session root,
    loadConfig env = Some root /\
    agentArg args = Some (reportAgentName r) /\
    SessionStore.getByName (sessions w) (reportAgentName r) = Some session /\
    state session <> Completed /\ state session <> Zombie /\
    isSessionAlive env (tmuxSession session) = Some (tmuxKilled r) /\
    (tmuxKilled r = true -> killSession env (tmuxSession session) = true) /\
    sessions w' = SessionStore.updateRows (reportAgentName r) (stoppedRow (now w))
                    (sessions w) /\
    let remove := Js.includes args "--clean-worktree" && Js.truthy (worktreePath session) in
    trace w' = trace w ++ [Probe (tmuxSession session)] ++
               (if tmuxKilled r then [Kill (tmuxSession session)] else []) ++
               (if remove
                then [RemoveWorktree root (worktreePath session)
                        (Js.includes args "--force") (Js.includes args "--force")]
                else []) /\
    r = mkReport (reportAgentName r) (sessionId session) (capability session)
          (tmuxKilled r) (remove && removeWorktree env root (worktreePath session))
          (Js.includes args "--force").
Proof. apply stop_marks_the_session_completed_core. Qed.

Lemma stop_marks_the_session_completed_witness :
  let w := mkWorld [exSession "a" Stalled 2 (Some 100)] [] 5000 in
  let r := mkReport "a" "session-a" "builder" true true false in
  map (fun s => (state s, lastActivity s, escalationLevel s, stalledSince s))
    (sessions (fst (stopCommand (exEnv true) ["a"; "--clean-worktree"] w)))
    = [(Completed, 5000, 2, Some 100)] /\
  exists session root,
    loadConfig (exEnv true) = Some root /\
    agentArg ["a"; "--clean-worktree"] = Some "a" /\
    SessionStore.getByName (sessions w) "a" = Some session /\
    state session <> Completed /\ state session <> Zombie /\
    isSessionAlive (exEnv true) (tmuxSession session) = Some true /\
    (true = true -> killSession (exEnv true) (tmuxSession session) = true) /\
    sessions (fst (stopCommand (exEnv true) ["a"; "--clean-worktree"] w))
      = SessionStore.updateRows "a" (stoppedRow 5000) (sessions w) /\
    trace (fst (stopCommand (exEnv true) ["a"; "--clean-worktree"] w))
      = [] ++ [Probe (tmuxSession session)] ++ [Kill (tmuxSession session)] ++
        (if Js.includes ["a"; "--clean-worktree"] "--clean-worktree"
            && Js.truthy (worktreePath session)
         then [RemoveWorktree root (worktreePath session) false false] else []) /\
    r = mkReport "a" (sessionId session) (capability session) true
          (Js.includes ["a"; "--clean-worktree"] "--clean-worktree"
             && Js.truthy (worktreePath session)
             && removeWorktree (exEnv true) root (worktreePath session)) false.
Proof.
  cbv zeta. split; [vm_compute; reflexivity|].
  refine (stop_marks_the_session_completed (exEnv true) ["a"; "--clean-worktree"]
            (mkWorld [exSession "a" Stalled 2 (Some 100)] [] 5000) _
            (mkReport "a" "session-a" "builder" true true false) _).
  reflexivity.
Defined.

(** X27: A stopped agent stays stopped.  After a stop that succeeded, the
    session found under the agent's name is the one before the stop with
    state completed and the time of the stop as last activity, its
    escalation level and stalledSince as they were; a second stop fails
    with "already completed" and changes nothing; mail sent or checked by
    the agent no longer touches its session; and a watchdog tick leaves
    the row as it is. *)
Theorem stopped_agent_stays_stopped env args w w' r :
  stopCommand env args w = (w', Stopped r) ->
  exists session,
    SessionStore.getByName (sessions w) (reportAgentName r) = Some session /\
    let row := stoppedRow (now w) session in
    SessionStore.getByName (sessions w') (reportAgentName r) = Some row /\
    state row = Completed /\ lastActivity row = now w /\
    escalationLevel row = escalationLevel session /\
    stalledSince row = stalledSince session /\
    stopCommand env args w' = (w', Failed AgentAlreadyCompleted) /\
    (forall menv mw,
       Mail.sessions mw = sessions w' ->
       Mail.touchAgentSession menv (reportAgentName r) mw = mw) /\
    (forall wenv ww,
       Watchdog.store ww = sessions w' ->
       In row (Watchdog.store (fst (Watchdog.runDaemonTick wenv ww)))).
Proof.
  intros Hrun.
  destruct (stop_marks_the_session_completed_core env args w w' r Hrun)
    as (session & root & Hc & Ha & Hs & _ & _ & _ & _ & Hrows & _).
  exists session. split; [exact Hs|]. cbv zeta.
  assert (SessionStore.getByName (sessions w') (reportAgentName r)
          = Some (stoppedRow (now w) session)) as Hrow.
  { rewrite Hrows, MailFacts.find_updateRows by reflexivity. rewrite Hs. reflexivity. }
  split; [exact Hrow|]. repeat (split; [reflexivity|]).
  split; [|split].
  - pose proof (stopped_without_store_fault env args w w' r Hrun) as Hok.
    unfold stopCommand, finallyClose in *. unfold agentArg in Ha.
    destruct (Js.includes args "--help" || Js.includes args "-h"); [discriminate|].
    rewrite Ha, Hc, !Hok, Hrow.
    destruct (reportAgentName r) eqn:En; [|reflexivity].
    exfalso. rewrite Ha in Hrun. discriminate.
  - intros menv mw Hmw. unfold Mail.touchAgentSession.
    destruct (Mail.sessionStoreOk menv); [|reflexivity]. cbn [negb].
    rewrite Hmw, Hrow. reflexivity.
  - intros wenv ww Hww. apply WatchdogLaws.tick_keeps_completed_row.
    + rewrite Hww. apply getByName_name in Hrow. tauto.
    + rewrite Hww, Hrows. intros s' Hs' Hn.
      unfold SessionStore.updateRows in Hs'. apply in_map_iff in Hs'.
      destruct Hs' as (r0 & <- & Hr0).
      destruct (String.eqb (agentName r0) (reportAgentName r)) eqn:E; [reflexivity|].
      apply String.eqb_neq in E. exfalso. apply E. rewrite Hn.
      apply (getByName_name _ _ _ Hs).
Qed.

(** A session stopped while stalled at level 2 keeps its escalation. *)
Lemma stopped_agent_stays_stopped_witness :
  let w := mkWorld [exSession "a" Stalled 2 (Some 100)] [] 5000 in
  let r := mkReport "a" "session-a" "builder" true false false in
  let w' := fst (stopCommand (exEnv true) ["a"] w) in
  exists session,
    SessionStore.getByName (sessions w) (reportAgentName r) = Some session /\
    let row := stoppedRow (now w) session in
    SessionStore.getByName (sessions w') (reportAgentName r) = Some row /\
    state row = Completed /\ lastActivity row = now w /\
    escalationLevel row = escalationLevel session /\
    stalledSince row = stalledSince session /\
    stopCommand (exEnv true) ["a"] w' = (w', Failed AgentAlreadyCompleted) /\
    (forall menv mw,
       Mail.sessions mw = sessions w' ->
       Mail.touchAgentSession menv (reportAgentName r) mw = mw) /\
    (forall wenv ww,
       Watchdog.store ww = sessions w' ->
       In row (Watchdog.store (fst (Watchdog.runDaemonTick wenv ww)))).
Proof.
  cbv zeta.
  refine (stopped_agent_stays_stopped (exEnv true) ["a"]
            (mkWorld [exSession "a" Stalled 2 (Some 100)] [] 5000) _
            (mkReport "a" "session-a" "builder" true false false) _).
  reflexivity.
Defined.

End StopLaws.

(** * Properties of the coordinator command *)

Module CoordinatorLaws.
Import Coordinator CoordinatorTerms.

Lemma active_none_after n st rows now0 :
  st = Completed \/ st = Zombie ->
  activeCoordinator
    (mkWorld (SessionStore.updateLastActivity COORDINATOR_NAME now0
                (SessionStore.updateState COORDINATOR_NAME st rows)) n now0) = None.
Proof.
  intros Hst. unfold activeCoordinator. cbn [sessions].
  unfold SessionStore.updateLastActivity, SessionStore.updateState.
  rewrite !MailFacts.find_updateRows by reflexivity.
  destruct (SessionStore.getByName rows COORDINATOR_NAME) as [s|]; [|reflexivity].
  cbn. destruct (String.eqb (capability s) "coordinator"); [|reflexivity].
  cbn. destruct Hst as [-> | ->]; reflexivity.
Qed.

Lemma update_fuse n t st rows :
  SessionStore.updateLastActivity n t (SessionStore.updateState n st rows)
  = SessionStore.updateRows n (fun r => withLastActivity t (withState st r)) rows.
Proof.
  unfold SessionStore.updateLastActivity, SessionStore.updateState,
    SessionStore.updateRows.
  rewrite map_map. apply map_ext. intros row.
  destruct (String.eqb (agentName row) n) eqn:E; [|rewrite E; reflexivity].
  cbn [agentName withState]. rewrite E. reflexivity.
Qed.

(** X28: The status command reconciles the record with the terminal.  Without an
    active coordinator session it reports "not running" and touches nothing.
    With one, it probes the terminal and never kills it: alive, it reports
    the session as recorded; dead, it marks the row zombie (with the current
    time as last activity) and reports zombie, after which there is no
    active coordinator and the next status reports "not running".  When it
    fails because the config does not load or the probe throws, the session
    store is as before.  When it fails because a call of the session store
    throws, the row can be half written: the state and the last activity
    are two calls, so a throw of the second leaves the row zombie with its
    old last activity, and a throw of the closing call fails a status
    whatever it had written. *)
Theorem coordinator_status_reconciles env w :
  let r := statusCoordinator env w in
  match snd r with
  | NotRunning => fst r = w /\ activeCoordinator w = None
  | Reported st =>
      exists session,
        activeCoordinator w = Some session /\
        isSessionAlive env (tmuxSession session) = Some (running st) /\
        trace (fst r) = trace w ++ [Probe (tmuxSession session)] /\
        statusSessionId st = sessionId session /\
        if running st
        then sessions (fst r) = sessions w /\ statusState st = state session
        else statusState st = Zombie /\
             sessions (fst r)
               = SessionStore.updateRows COORDINATOR_NAME (zombieRow (now w))
                   (sessions w) /\
             activeCoordinator (fst r) = None /\
             statusCoordinator env (fst r) = (fst r, NotRunning)
  | Failed ConfigError => fst r = w /\ loadConfig env = None
  | Failed TmuxError =>
      sessions (fst r) = sessions w /\
      exists session,
        activeCoordinator w = Some session /\
        isSessionAlive env (tmuxSession session) = None /\
        trace (fst r) = trace w ++ [Probe (tmuxSession session)]
  | Failed StoreError =>
      (storeThrows env OpenStore = true /\ fst r = w) \/
      (storeThrows env GetByName = true /\ fst r = w) \/
      (storeThrows env UpdateState = true /\ sessions (fst r) = sessions w) \/
      (storeThrows env UpdateLastActivity = true /\
       sessions (fst r)
       = SessionStore.updateState COORDINATOR_NAME Zombie (sessions w)) \/
      (storeThrows env CloseStore = true /\
       (sessions (fst r) = sessions w \/
        sessions (fst r)
        = SessionStore.updateState COORDINATOR_NAME Zombie (sessions w) \/
        sessions (fst r)
        = SessionStore.updateRows COORDINATOR_NAME (zombieRow (now w))
            (sessions w)))
  | Failed _ | Started _ _ _ | Stopped _ => False
  end.
Proof.
  cbv zeta. unfold statusCoordinator.
  destruct (loadConfig env) as [config|] eqn:Ec; [|cbn; auto].
  destruct (storeThrows env OpenStore) eqn:Eopen; [cbn; auto|].
  unfold finallyClose.
  destruct (storeThrows env CloseStore) eqn:Eclose.
  { cbn [snd fst]. do 4 right. split; [reflexivity|].
    repeat match goal with
           | |- context [if ?b then _ else _] =>
               destruct b; cbn [fst sessions emit setSessions]
           | |- context [match ?x with _ => _ end] =>
               destruct x; cbn [fst sessions emit setSessions]
           end; rewrite ?update_fuse; auto. }
  destruct (storeThrows env GetByName) eqn:Eget; [cbn; auto|].
  destruct (activeCoordinator w) as [session|] eqn:Ea; [|cbn; auto].
  destruct (isSessionAlive env (tmuxSession session)) as [[|]|] eqn:Ep;
    cbn [fst snd]; [| |cbn; eauto].
  - exists session. cbn. auto 10.
  - destruct (storeThrows env UpdateState) eqn:Eus; [cbn; auto 10|].
    destruct (storeThrows env UpdateLastActivity) eqn:Eul; [cbn; auto 10|].
    cbn [fst snd].
    exists session. cbn [running statusState statusSessionId trace sessions now
                         emit setSessions].
    repeat (split; [first [reflexivity | exact Ep]|]).
    split; [apply update_fuse|].
    pose proof (active_none_after (trace w ++ [Probe (tmuxSession session)]) Zombie
                  (sessions w) (now w) (or_intror eq_refl)) as Hnone.
    split; [exact Hnone|]. unfold setSessions, emit. cbn [sessions trace now].
    rewrite Hnone. reflexivity.
Qed.

(** The store throws at the write of the last activity: the status fails
    and the coordinator, working before, is left zombie with its old last
    activity. *)
Lemma coordinator_status_reconciles_witness :
  let w := mkWorld [exCoordinator Working] [] 9000 in
  let r := statusCoordinator exEnvActivityThrows w in
  snd r = Failed StoreError /\
  map (fun s => (state s, lastActivity s)) (sessions (fst r)) = [(Zombie, 1)] /\
  match snd r with
  | NotRunning => fst r = w /\ activeCoordinator w = None
  | Reported st =>
      exists session,
        activeCoordinator w = Some session /\
        isSessionAlive exEnvActivityThrows (tmuxSession session) = Some (running st) /\
        trace (fst r) = trace w ++ [Probe (tmuxSession session)] /\
        statusSessionId st = sessionId session /\
        if running st
        then sessions (fst r) = sessions w /\ statusState st = state session
        else statusState st = Zombie /\
             sessions (fst r)
               = SessionStore.updateRows COORDINATOR_NAME (zombieRow (now w))
                   (sessions w) /\
             activeCoordinator (fst r) = None /\
             statusCoordinator exEnvActivityThrows (fst r) = (fst r, NotRunning)
  | Failed ConfigError => fst r = w /\ loadConfig exEnvActivityThrows = None
  | Failed TmuxError =>
      sessions (fst r) = sessions w /\
      exists session,
        activeCoordinator w = Some session /\
        isSessionAlive exEnvActivityThrows (tmuxSession session) = None /\
        trace (fst r) = trace w ++ [Probe (tmuxSession session)]
  | Failed StoreError =>
      (storeThrows exEnvActivityThrows OpenStore = true /\ fst r = w) \/
      (storeThrows exEnvActivityThrows GetByName = true /\ fst r = w) \/
      (storeThrows exEnvActivityThrows UpdateState = true /\
       sessions (fst r) = sessions w) \/
      (storeThrows exEnvActivityThrows UpdateLastActivity = true /\
       sessions (fst r)
       = SessionStore.updateState COORDINATOR_NAME Zombie (sessions w)) \/
      (storeThrows exEnvActivityThrows CloseStore = true /\
       (sessions (fst r) = sessions w \/
        sessions (fst r)
        = SessionStore.updateState COORDINATOR_NAME Zombie (sessions w) \/
        sessions (fst r)
        = SessionStore.updateRows COORDINATOR_NAME (zombieRow (now w))
            (sessions w)))
  | Failed _ | Started _ _ _ | Stopped _ => False
  end.
Proof.
  cbv zeta. split; [vm_compute; reflexivity|]. split; [vm_compute; reflexivity|].
  exact (coordinator_status_reconciles exEnvActivityThrows
           (mkWorld [exCoordinator Working] [] 9000)).
Defined.

(** X29: A stop of the coordinator that succeeds: there was an active coordinator
    session; its terminal is probed, and killed exactly when the probe finds
    it alive; its row is marked completed with the current time as last
    activity.  After it there is no active coordinator: the status reports
    "not running" and a second stop fails with "no active coordinator",
    both without touching anything. *)
Theorem coordinator_stop_ends_the_session env w w' stopped :
  stopCoordinator env w = (w', Stopped stopped) ->
  exists session alive,
    activeCoordinator w = Some session /\ stopped = sessionId session /\
    isSessionAlive env (tmuxSession session) = Some alive /\
    trace w' = trace w ++ Probe (tmuxSession session) ::
                 (if alive then [Kill (tmuxSession session)] else []) /\
    sessions w' = SessionStore.updateRows COORDINATOR_NAME
                    (fun r => withLastActivity (now w) (withState Completed r))
                    (sessions w) /\
    activeCoordinator w' = None /\
    statusCoordinator env w' = (w', NotRunning) /\
    stopCoordinator env w' = (w', Failed NoActiveCoordinator).
Proof.
  unfold stopCoordinator, finallyClose.
  destruct (loadConfig env) as [config|] eqn:Ec; [|discriminate].
  destruct (storeThrows env OpenStore) eqn:Eopen; [discriminate|].
  destruct (storeThrows env CloseStore) eqn:Eclose; [discriminate|].
  destruct (storeThrows env GetByName) eqn:Eget; [discriminate|].
  destruct (activeCoordinator w) as [session|] eqn:Ea; [|discriminate].
  destruct (isSessionAlive env (tmuxSession session)) as [alive|] eqn:Ep;
    [|discriminate].
  destruct (alive && negb (killSession env (tmuxSession session))); [discriminate|].
  destruct (storeThrows env UpdateState); [discriminate|].
  destruct (storeThrows env UpdateLastActivity); [discriminate|].
  intros [= <- <-]. exists session, alive.
  do 3 (split; [first [reflexivity | exact Ep]|]).
  destruct alive; unfold setSessions, emit; cbn [sessions trace now];
    rewrite <- ?app_assoc; cbn [app].
  all: split; [reflexivity|]. all: split; [apply update_fuse|].
  all: unfold statusCoordinator, finallyClose; rewrite Ec, Eopen, Eclose, Eget.
  all: rewrite (active_none_after _ Completed) by (left; reflexivity); auto.
Qed.

Lemma coordinator_stop_ends_the_session_witness :
  let w := mkWorld [exCoordinator Working] [] 9000 in
  map (fun s => (state s, lastActivity s))
    (sessions (fst (stopCoordinator (exEnv true) w))) = [(Completed, 9000)] /\
  exists session alive,
    activeCoordinator w = Some session /\
    "session-1-coordinator" = sessionId session /\
    isSessionAlive (exEnv true) (tmuxSession session) = Some alive /\
    trace (fst (stopCoordinator (exEnv true) w))
      = trace w ++ Probe (tmuxSession session) ::
          (if alive then [Kill (tmuxSession session)] else []) /\
    sessions (fst (stopCoordinator (exEnv true) w))
      = SessionStore.updateRows COORDINATOR_NAME
          (fun r => withLastActivity (now w) (withState Completed r)) (sessions w) /\
    activeCoordinator (fst (stopCoordinator (exEnv true) w)) = None /\
    statusCoordinator (exEnv true) (fst (stopCoordinator (exEnv true) w))
      = (fst (stopCoordinator (exEnv true) w), NotRunning) /\
    stopCoordinator (exEnv true) (fst (stopCoordinator (exEnv true) w))
      = (fst (stopCoordinator (exEnv true) w), Failed NoActiveCoordinator).
Proof.
  cbv zeta. split; [vm_compute; reflexivity|].
  refine (coordinator_stop_ends_the_session (exEnv true)
            (mkWorld [exCoordinator Working] [] 9000) _ "session-1-coordinator" _).
  reflexivity.
Defined.








End CoordinatorLaws.
